(** * File-manager service: path confinement and file operations

    Shallow embedding of the Express servers of this repository
    ([api/server.js] and its two sibling variants) and proofs about the
    path resolver ([getSafePath], [getRelativePath]) and the request
    handlers built on it.

    Strings are byte strings ([string]); the only characters the code
    inspects are ['/'], ['.'] and the backslash.  The platform is POSIX
    (the servers are deployed on Linux), so [path] is Node's [path.posix]. *)

From Stdlib Require Import Ascii String ZArith Lia DecimalString.
From stdpp Require Import gmap strings list.

Local Open Scope char_scope.
Local Open Scope stdpp_scope.

(** ** JavaScript string primitives used by the servers *)

Module Str.

(** [s.startsWith(pre)] *)
Fixpoint startsWith (s pre : string) : bool :=
  match pre, s with
  | EmptyString, _ => true
  | String _ _, EmptyString => false
  | String a pre', String b s' => Ascii.eqb a b && startsWith s' pre'
  end.

(** [s.substring(1)] *)
Definition substring1 (s : string) : string :=
  match s with
  | EmptyString => EmptyString
  | String _ s' => s'
  end.

(** the last character of [s], if any: [s.charCodeAt(s.length - 1)] *)
Fixpoint last (s : string) : option ascii :=
  match s with
  | EmptyString => None
  | String c EmptyString => Some c
  | String _ s' => last s'
  end.

Definition endsWithSlash (s : string) : bool :=
  match last s with
  | Some c => Ascii.eqb c "/"
  | None => false
  end.

(** [s.includes(c)] for a single character *)
Fixpoint mem (c : ascii) (s : string) : bool :=
  match s with
  | EmptyString => false
  | String a s' => Ascii.eqb a c || mem c s'
  end.

(** [s.replace(/\\/g, '/')] *)
Fixpoint replaceBackslash (s : string) : string :=
  match s with
  | EmptyString => EmptyString
  | String c s' =>
      String (if Ascii.eqb c "\" then "/" else c) (replaceBackslash s')
  end.

(** [s.split('/')]: never empty, [split "" = [""]] *)
Fixpoint split (s : string) : list string :=
  match s with
  | EmptyString => [EmptyString]
  | String c s' =>
      if Ascii.eqb c "/" then EmptyString :: split s'
      else match split s' with
           | seg :: rest => String c seg :: rest
           | [] => [String c EmptyString]
           end
  end.

(** [segs.join('/')] *)
Definition join (segs : list string) : string := String.concat "/" segs.

(** [n] copies of the separator *)
Fixpoint slashes (n : nat) : string :=
  match n with
  | O => EmptyString
  | S n' => String "/" (slashes n')
  end.

End Str.

(** ** Node's [path.posix], at the level of path segments

    [normalizeString] scans the path once, keeping the segments seen so
    far; an empty segment and ["."] are dropped, [".."] removes the last
    kept segment (or, when [allowAboveRoot], is kept once nothing is left
    to remove).  The kept segments are held most recent first. *)

Module Path.

Definition step (allowAboveRoot : bool) (kept : list string) (seg : string)
  : list string :=
  if decide (seg = "" ∨ seg = ".") then kept
  else if decide (seg = "..") then
    match kept with
    | top :: below =>
        if decide (top = "..")
        then (if allowAboveRoot then ".." :: kept else kept)
        else below
    | [] => if allowAboveRoot then [".."] else []
    end
  else seg :: kept.

Definition normalizeString (path : string) (allowAboveRoot : bool)
  : list string :=
  rev (fold_left (step allowAboveRoot) (Str.split path) []).

(** [path.normalize(p)] *)
Definition normalize (p : string) : string :=
  if decide (p = "") then "."
  else
    let isAbsolute := Str.startsWith p "/" in
    let trailingSeparator := Str.endsWithSlash p in
    match normalizeString p (negb isAbsolute) with
    | [] => if isAbsolute then "/"
            else if trailingSeparator then "./" else "."
    | segs =>
        (if isAbsolute then "/" else "") +:+ Str.join segs
        +:+ (if trailingSeparator then "/" else "")
    end.

(** [path.join(...args)]: the non-empty arguments, separated by ['/'],
    then normalized *)
Definition join (args : list string) : string :=
  match filter (λ a, a ≠ "") args with
  | [] => "."
  | parts => normalize (Str.join parts)
  end.

(** The segments of [path.resolve(p)] for an absolute [p].  (For a
    relative argument Node first prepends the working directory; the
    servers only resolve [DOCUMENT_ROOT] and results of [getSafePath],
    which are absolute.) *)
Definition segments (p : string) : list string := normalizeString p false.

(** the absolute path with the given segments and no trailing separator *)
Definition render (segs : list string) : string := "/" +:+ Str.join segs.

(** [path.resolve(p)] for an absolute [p] *)
Definition resolve (p : string) : string := render (segments p).

(** length of the longest common prefix of two segment lists *)
Fixpoint common (xs ys : list string) : nat :=
  match xs, ys with
  | x :: xs', y :: ys' => if decide (x = y) then S (common xs' ys') else 0
  | _, _ => 0
  end.

(** [path.relative] on segments: one [".."] per segment of [from] below
    the common ancestor, then the rest of [to] *)
Definition relative_segments (f t : list string) : list string :=
  replicate (length f - common f t) ".." ++ drop (common f t) t.

(** [path.relative(from, to)] for absolute arguments *)
Definition relative (from to : string) : string :=
  if decide (from = to) then ""
  else
    let f := segments from in
    let t := segments to in
    if decide (f = t) then ""
    else Str.join (relative_segments f t).

(** the segments reached from the directory [from] by following [segs] *)
Definition walk (from segs : list string) : list string :=
  rev (fold_left (step false) segs (rev from)).

(** an absolute, normalized path, with the trailing separator that
    [normalize] keeps on a non-root path *)
Definition render_dir (segs : list string) (trailing : bool) : string :=
  match segs with
  | [] => "/"
  | _ => "/" +:+ Str.join segs +:+ (if trailing then "/" else "")
  end.

(** a segment that [normalizeString] keeps as it is *)
Definition plain (seg : string) : Prop :=
  seg ≠ "" ∧ seg ≠ "." ∧ seg ≠ ".." ∧ Str.mem "/" seg = false.

End Path.

(** ** The path resolver (identical in every variant of the server) *)

(** [getSafePath] of [api/server.js]; [DOCUMENT_ROOT] is the module-level
    constant [path.resolve(__dirname)]. *)
Definition getSafePath (DOCUMENT_ROOT userPath : string) : string :=
  let targetPath :=
    if Str.startsWith userPath "/" then Str.substring1 userPath else userPath in
  let fullPath := Path.join [DOCUMENT_ROOT; targetPath] in
  if negb (Str.startsWith fullPath DOCUMENT_ROOT) then DOCUMENT_ROOT
  else fullPath.

(** [getSafePath] as written in the first variant (the test is not negated
    and the branches are swapped). *)
Definition getSafePath0 (DOCUMENT_ROOT userPath : string) : string :=
  let fullPath :=
    Path.join [DOCUMENT_ROOT;
               if Str.startsWith userPath "/" then Str.substring1 userPath
               else userPath] in
  if Str.startsWith fullPath DOCUMENT_ROOT then fullPath
  else DOCUMENT_ROOT.

Definition getRelativePath (DOCUMENT_ROOT absolutePath : string) : string :=
  "/" +:+ Str.replaceBackslash (Path.relative DOCUMENT_ROOT absolutePath).

(** [DOCUMENT_ROOT] is a result of [path.resolve]: absolute, normalized and
    without trailing separator. *)
Definition resolved (root : string) : bool :=
  bool_decide (Path.resolve root = root).

(** Directory containment: the segments of [root] are an initial part of
    the segments of [p]. *)
Definition inside (root p : string) : Prop :=
  Path.segments root `prefix_of` Path.segments p.

(** what [getSafePath] joins onto the root: [userPath] without one leading
    separator *)
Definition targetPath (userPath : string) : string :=
  if Str.startsWith userPath "/" then Str.substring1 userPath else userPath.

(** ** JavaScript values, errors and Express responses *)

(** A value of a request field or of a backend answer.  [JNum] holds an
    integer that a double holds exactly and prints in full, that is, one
    below 2^53 in size (no handler computes with numbers); [JObj] stands
    for a plain object without a [length]: arrays and the like, which
    turn into strings and into buffers in their own way, are left out. *)
Inductive jsval :=
| JUndefined
| JNull
| JBool (b : bool)
| JNum (n : Z)
| JStr (s : string)
| JObj.

Global Instance jsval_eq_dec : EqDecision jsval.
Proof. solve_decision. Defined.

(** [!!v] *)
Definition truthy (v : jsval) : bool :=
  match v with
  | JUndefined | JNull => false
  | JBool b => b
  | JNum n => negb (n =? 0)%Z
  | JStr s => bool_decide (s ≠ "")
  | JObj => true
  end.

(** [a || b] *)
Definition js_or (a b : jsval) : jsval := if truthy a then a else b.

(** [`${v}`] *)
Definition js_to_string (v : jsval) : string :=
  match v with
  | JUndefined => "undefined"
  | JNull => "null"
  | JBool true => "true"
  | JBool false => "false"
  | JNum n => DecimalString.NilZero.string_of_int (Z.to_int n)
  | JStr s => s
  | JObj => "[object Object]"
  end.

(** [o.k] for an object [o] held as a finite map: [undefined] when absent *)
Definition prop (o : gmap string jsval) (k : string) : jsval :=
  default JUndefined (o !! k).

Record request := Request {
  query : gmap string jsval;
  body : gmap string jsval
}.

(** an [Error]: its class, [error.code], [error.status], [error.message] *)
Record js_error := JsError {
  e_name : string;
  e_code : option string;
  e_status : option Z;
  e_message : string
}.

Definition TypeError (code message : string) : js_error :=
  {| e_name := "TypeError"; e_code := Some code; e_status := None;
     e_message := message |}.

Definition ERR_INVALID_ARG_TYPE : js_error :=
  TypeError "ERR_INVALID_ARG_TYPE" "The argument must be of type string.".

Definition not_a_function : js_error :=
  {| e_name := "TypeError"; e_code := None; e_status := None;
     e_message := "userPath.startsWith is not a function" |}.

Definition ERR_HTTP_HEADERS_SENT : js_error :=
  {| e_name := "Error"; e_code := Some "ERR_HTTP_HEADERS_SENT";
     e_status := None;
     e_message := "Cannot set headers after they are sent to the client" |}.

(** [error.code || 'UNKNOWN'] *)
Definition code_or_unknown (e : js_error) : jsval :=
  match e_code e with
  | Some c => js_or (JStr c) (JStr "UNKNOWN")
  | None => JStr "UNKNOWN"
  end.

(** [error.status || 500] and [error.status || 'UNKNOWN'] *)
Definition status_or_500 (e : js_error) : Z :=
  match e_status e with
  | Some n => if (n =? 0)%Z then 500%Z else n
  | None => 500%Z
  end.

Definition status_or_unknown (e : js_error) : jsval :=
  match e_status e with
  | Some n => js_or (JNum n) (JStr "UNKNOWN")
  | None => JStr "UNKNOWN"
  end.

Inductive payload :=
| Json (fields : list (string * jsval))
| Text (s : string)
| Attachment (path filename : string).

Record response := Response { status : Z; content : payload }.

(** ** Handlers as state-and-exception computations

    A handler runs against a world: the backing store, the list of calls
    made to the storage backend so far, and the Express response object
    ([headersSent], the responses begun, and the writes attempted after
    the headers had gone).  A computation either returns or throws. *)

Record world {S C : Type} := World {
  store : S;
  calls : list C;
  headersSent : bool;
  sent : list response;
  late : list response
}.
Arguments world : clear implicits.
Arguments World {S C}.

Definition fresh {S C : Type} (s : S) : world S C :=
  {| store := s; calls := []; headersSent := false; sent := []; late := [] |}.

Definition M (S C A : Type) : Type :=
  world S C → (js_error + A) * world S C.

Definition ret {S C A} (a : A) : M S C A := λ w, (inr a, w).

Definition bind {S C A B} (m : M S C A) (k : A → M S C B) : M S C B :=
  λ w, match m w with
       | (inr a, w') => k a w'
       | (inl e, w') => (inl e, w')
       end.

Definition throw {S C A} (e : js_error) : M S C A := λ w, (inl e, w).

(** [try { m } catch (error) { h error }]: effects of [m] up to the throw
    are kept *)
Definition try_catch {S C A} (m : M S C A) (h : js_error → M S C A)
  : M S C A :=
  λ w, match m w with
       | (inr a, w') => (inr a, w')
       | (inl e, w') => h e w'
       end.

Notation "'do' x <- m ; k" := (bind m (λ x, k))
  (at level 10, x name, m at level 100, k at level 200).
Notation "m ;;; k" := (bind m (λ _, k))
  (at level 100, k at level 200, right associativity).

(** record a call to the storage backend *)
Definition call {S C} (c : C) : M S C unit :=
  λ w, (inr tt, {| store := store w; calls := calls w ++ [c];
                   headersSent := headersSent w; sent := sent w;
                   late := late w |}).

(** begin a response: [res.status(n).json(..)], [res.json(..)],
    [res.status(n).send(..)]; throws once the headers have been sent *)
Definition res_write {S C} (r : response) : M S C unit :=
  λ w, if headersSent w
       then (inl ERR_HTTP_HEADERS_SENT,
             {| store := store w; calls := calls w;
                headersSent := true; sent := sent w;
                late := late w ++ [r] |})
       else (inr tt,
             {| store := store w; calls := calls w;
                headersSent := true; sent := sent w ++ [r];
                late := late w |}).

Definition res_json {S C} (st : Z) (fields : list (string * jsval))
  : M S C unit :=
  res_write {| status := st; content := Json fields |}.

Definition res_send {S C} (st : Z) (text : string) : M S C unit :=
  res_write {| status := st; content := Text text |}.

(** [res.headersSent] *)
Definition res_headersSent {S C} : M S C bool := λ w, (inr (headersSent w), w).

(** [getSafePath(v)] and [path.join(dir, v)] on a request value: both
    throw a [TypeError] unless [v] is a string *)
Definition getSafePath_of {S C} (root : string) (v : jsval) : M S C string :=
  match v with
  | JStr s => ret (getSafePath root s)
  | _ => throw not_a_function
  end.

Definition path_join_of {S C} (dir : string) (v : jsval) : M S C string :=
  match v with
  | JStr s => ret (Path.join [dir; s])
  | _ => throw ERR_INVALID_ARG_TYPE
  end.

(** ** The local backend: Node's [fs/promises] over a tree of files

    The store maps the segments of an absolute path to a node; the key
    [[]] is the directory [/].  Errors carry the system code in
    [error.code]. *)

Inductive node := File (data : string) | Dir.

Inductive fs_call :=
| FsStat (p : string)
| FsReadFile (p : string)
| FsWriteFile (p : string) (data : jsval)
| FsRm (p : string)
| FsUnlink (p : string)
| FsSendFile (p : string).

Abbreviation tree := (gmap (list string) node).
Abbreviation Fs := (M tree fs_call).

(** the description libuv gives for a system error code *)
Definition errno_text (code : string) : string :=
  default "unknown error"
    (snd <$> find (λ kv : string * string, String.eqb kv.1 code)
       [("ENOENT", "no such file or directory");
        ("ENOTDIR", "not a directory");
        ("EISDIR", "illegal operation on a directory");
        ("EEXIST", "file already exists");
        ("EINVAL", "invalid argument");
        ("ENOTEMPTY", "directory not empty");
        ("ENAMETOOLONG", "name too long")]).

(** a system error of a call on a path: [error.message] is the code, its
    description, the call and the path; of a call on two paths, both are
    given; of a call on an open file, none *)
Definition sys_error (code syscall p : string) : js_error :=
  {| e_name := "Error"; e_code := Some code; e_status := None;
     e_message := code +:+ ": " +:+ errno_text code +:+ ", " +:+ syscall
                  +:+ " '" +:+ p +:+ "'" |}.

Definition sys_error_to (code syscall p dest : string) : js_error :=
  {| e_name := "Error"; e_code := Some code; e_status := None;
     e_message := code +:+ ": " +:+ errno_text code +:+ ", " +:+ syscall
                  +:+ " '" +:+ p +:+ "' -> '" +:+ dest +:+ "'" |}.

Definition sys_error_fd (code syscall : string) : js_error :=
  {| e_name := "Error"; e_code := Some code; e_status := None;
     e_message := code +:+ ": " +:+ errno_text code +:+ ", " +:+ syscall |}.

(** does the path hold a NUL byte? *)
Definition has_nul (p : string) : bool := Str.mem Ascii.zero p.

(** the limits of the system on a name and on a path, in bytes *)
Definition NAME_MAX : nat := 255.
Definition PATH_MAX : nat := 4096.

(** is the path, or one of its names, longer than the system takes? *)
Definition too_long (p : string) : bool :=
  Nat.leb PATH_MAX (String.length p)
  || existsb (λ seg, Nat.ltb NAME_MAX (String.length seg)) (Path.segments p).

(** a path that can be given to the file system: without NUL byte and
    within the limits *)
Definition usable (p : string) : bool := negb (has_nul p) && negb (too_long p).

(** Node turns down a path with a NUL byte before any system call; the
    message names the argument (and goes on with the value received) *)
Definition ERR_INVALID_ARG_VALUE (arg : string) : js_error :=
  TypeError "ERR_INVALID_ARG_VALUE"
    ("The argument '" +:+ arg
     +:+ "' must be a string, Uint8Array, or URL without null bytes.").

(** update the store *)
Definition put_store {C : Type} (t : tree) : M tree C unit :=
  λ w, (inr tt, {| store := t; calls := calls w;
                   headersSent := headersSent w; sent := sent w;
                   late := late w |}).

Definition get_store {C : Type} : M tree C tree := λ w, (inr (store w), w).

(** the directory holding the entry with key [k] *)
Definition parent (k : list string) : list string := take (length k - 1) k.

(** [fs.stat(p)], answering [stats.isDirectory()] *)
Definition fs_stat (p : string) : Fs bool :=
  call (FsStat p) ;;;
  do t <- get_store;
  match t !! Path.segments p with
  | Some Dir => ret true
  | Some (File _) =>
      if Str.endsWithSlash p then throw (sys_error "ENOTDIR" "stat" p)
      else ret false
  | None => throw (sys_error "ENOENT" "stat" p)
  end.

(** [fs.readFile(p, 'utf8')] *)
Definition fs_readFile (p : string) : Fs string :=
  call (FsReadFile p) ;;;
  do t <- get_store;
  match t !! Path.segments p with
  | Some (File data) =>
      if Str.endsWithSlash p then throw (sys_error "ENOTDIR" "open" p)
      else ret data
  | Some Dir => throw (sys_error_fd "EISDIR" "read")
  | None => throw (sys_error "ENOENT" "open" p)
  end.

(** [fs.writeFile(p, data)]: [data] must be a string and [p] a usable
    path; the file is created or replaced when its directory exists *)
Definition fs_writeFile (p : string) (data : jsval) : Fs unit :=
  call (FsWriteFile p data) ;;;
  match data with
  | JStr text =>
      if has_nul p then throw (ERR_INVALID_ARG_VALUE "path")
      else if too_long p then throw (sys_error "ENAMETOOLONG" "open" p)
      else
        do t <- get_store;
        match t !! Path.segments p with
        | Some Dir => throw (sys_error "EISDIR" "open" p)
        | Some (File _) =>
            if Str.endsWithSlash p then throw (sys_error "ENOTDIR" "open" p)
            else put_store (<[Path.segments p := File text]> t)
        | None =>
            if Str.endsWithSlash p then throw (sys_error "EISDIR" "open" p)
            else match Path.segments p, t !! parent (Path.segments p) with
                 | _ :: _, Some Dir =>
                     put_store (<[Path.segments p := File text]> t)
                 | _ :: _, Some (File _) =>
                     throw (sys_error "ENOTDIR" "open" p)
                 | _, _ => throw (sys_error "ENOENT" "open" p)
                 end
        end
  | _ => throw ERR_INVALID_ARG_TYPE
  end.

(** [fs.rm(p, { recursive: true, force: true })]: the entry and everything
    below it go; nothing to remove is not an error *)
Definition fs_rm (p : string) : Fs unit :=
  call (FsRm p) ;;;
  do t <- get_store;
  put_store (filter (λ kv, ¬ (Path.segments p `prefix_of` kv.1)) t).

(** [fs.unlink(p)] *)
Definition fs_unlink (p : string) : Fs unit :=
  call (FsUnlink p) ;;;
  do t <- get_store;
  match t !! Path.segments p with
  | Some (File _) =>
      if Str.endsWithSlash p then throw (sys_error "ENOTDIR" "unlink" p)
      else put_store (delete (Path.segments p) t)
  | Some Dir => throw (sys_error "EISDIR" "unlink" p)
  | None => throw (sys_error "ENOENT" "unlink" p)
  end.

(** What happens on the connection once a download has begun to stream:
    it completes, or it fails part-way (the client goes away, a read
    fails) after the headers have left. *)
Inductive transfer := Completes | Breaks (e : js_error).

(** a segment that [send] takes for a dotfile: it begins with a dot and is
    longer than that *)
Definition dotfile (seg : string) : bool :=
  Str.startsWith seg "." && Nat.ltb 1 (String.length seg).

(** an error made by [http-errors] *)
Definition http_error (st : Z) (name message : string) : js_error :=
  {| e_name := name; e_code := None; e_status := Some st;
     e_message := message |}.

(** what [send] turns down before it looks at the file system: a path
    with a NUL byte (400) and, as dotfiles are ignored unless asked for, a
    path with a dotfile segment (404).  Express 4 ignores a dotfile only as
    the last segment; what is stated about downloads below holds under
    either rule. *)
Definition send_refuses (p : string) : option js_error :=
  if has_nul p then Some (http_error 400 "BadRequestError" "Bad Request")
  else if existsb dotfile (Path.segments p)
  then Some (http_error 404 "NotFoundError" "Not Found")
  else None.

(** [res.download(p, filename, cb)]: a path that [send] turns down, a
    missing file or a directory fails before anything is sent; otherwise
    the headers go out, the file is streamed, and [cb] gets the error of a
    broken transfer, if any. *)
Definition res_download (p filename : string) (net : transfer)
    (cb : option js_error → Fs unit) : Fs unit :=
  call (FsSendFile p) ;;;
  match send_refuses p with
  | Some e => cb (Some e)
  | None =>
      do t <- get_store;
      match t !! Path.segments p with
      | Some (File _) =>
          if Str.endsWithSlash p then cb (Some (sys_error "ENOTDIR" "stat" p))
          else
            res_write {| status := 200; content := Attachment p filename |} ;;;
            match net with
            | Completes => cb None
            | Breaks e => cb (Some e)
            end
      | Some Dir => cb (Some (sys_error "EISDIR" "read" p))
      | None => cb (Some (sys_error "ENOENT" "stat" p))
      end
  end.

(** ** The first variant of the server: every operation below the root *)

Module Local.

(** [GET /api/file-content] *)
Definition file_content (root : string) (req : request) : Fs unit :=
  let userDir := js_or (prop (query req) "directory") (JStr "./") in
  let fileName := prop (query req) "file" in
  if negb (truthy fileName)
  then res_json 400 [("success", JBool false);
                     ("message", JStr "Nama file diperlukan.")]
  else
    do dir <- getSafePath_of root userDir;
    do filePath <- path_join_of dir fileName;
    try_catch
      (do data <- fs_readFile filePath;
       res_json 200 [("success", JBool true); ("content", JStr data)])
      (λ error,
        res_json 500 [("success", JBool false);
                      ("message", JStr "Gagal membaca file.");
                      ("error", JStr (e_message error))]).

(** [POST /api/save-file] *)
Definition save_file (root : string) (req : request) : Fs unit :=
  let file_name := prop (body req) "file_name" in
  let data := prop (body req) "content" in
  let directory := prop (body req) "directory" in
  if negb (truthy file_name) || bool_decide (data = JUndefined)
  then res_json 400 [("success", JBool false);
                     ("message", JStr "Nama file dan konten diperlukan.")]
  else
    do dir <- getSafePath_of root (js_or directory (JStr "./"));
    do filePath <- path_join_of dir file_name;
    try_catch
      (fs_writeFile filePath data ;;;
       res_json 200 [("success", JBool true);
                     ("message", JStr "File berhasil disimpan.")])
      (λ error,
        res_json 500 [("success", JBool false);
                      ("message", JStr "Gagal menyimpan file (Izin ditolak?).");
                      ("error", JStr (e_message error))]).

(** [DELETE /api/delete] *)
Definition delete (root : string) (req : request) : Fs unit :=
  let file := prop (query req) "file" in
  let directory := prop (query req) "directory" in
  if negb (truthy file)
  then res_json 400 [("success", JBool false);
                     ("message", JStr "Nama file/folder diperlukan.")]
  else
    do dir <- getSafePath_of root (js_or directory (JStr "./"));
    do delPath <- path_join_of dir file;
    try_catch
      (do isDirectory <- fs_stat delPath;
       if isDirectory
       then fs_rm delPath ;;;
            res_json 200
              [("success", JBool true);
               ("message", JStr ("Folder '" +:+ js_to_string file
                                 +:+ "' berhasil dihapus."))]
       else fs_unlink delPath ;;;
            res_json 200
              [("success", JBool true);
               ("message", JStr ("File '" +:+ js_to_string file
                                 +:+ "' berhasil dihapus."))])
      (λ error,
        res_json 500 [("success", JBool false);
                      ("message", JStr ("Gagal menghapus: "
                                        +:+ e_message error))]).

(** [GET /api/download]: the callback answers every error with a 500 *)
Definition download (root : string) (req : request) (net : transfer)
  : Fs unit :=
  let userDir := js_or (prop (query req) "directory") (JStr "./") in
  let fileName := prop (query req) "file" in
  if negb (truthy fileName)
  then res_send 400 "Nama file diperlukan."
  else
    do dir <- getSafePath_of root userDir;
    do filePath <- path_join_of dir fileName;
    res_download filePath (js_to_string fileName) net
      (λ err, match err with
              | Some _ => res_send 500 "Gagal mengunduh file."
              | None => ret tt
              end).

End Local.

(** ** [api/server.js]: reads below the root, writes under [/tmp] *)

Module Vercel.

Definition server_error (message : string) (error : js_error)
  : list (string * jsval) :=
  [("success", JBool false);
   ("message", JStr message);
   ("error_type", code_or_unknown error);
   ("internal_message", JStr (e_message error))].

(** [GET /api/file-content] *)
Definition file_content (root : string) (req : request) : Fs unit :=
  let userDir := js_or (prop (query req) "directory") (JStr "./") in
  let fileName := prop (query req) "file" in
  if negb (truthy fileName)
  then res_json 400 [("success", JBool false);
                     ("message", JStr "Nama file diperlukan.")]
  else
    do dir <- getSafePath_of root userDir;
    do filePath <- path_join_of dir fileName;
    try_catch
      (do data <- fs_readFile filePath;
       res_json 200 [("success", JBool true); ("content", JStr data)])
      (λ error,
        res_json 500
          (server_error "[SERVER ERROR] Gagal membaca file. Cek log Vercel."
             error)).

(** [POST /api/save-file] *)
Definition save_file (req : request) : Fs unit :=
  let file_name := prop (body req) "file_name" in
  let data := prop (body req) "content" in
  if negb (truthy file_name) || bool_decide (data = JUndefined)
  then res_json 400 [("success", JBool false);
                     ("message", JStr "Nama file dan konten diperlukan.")]
  else
    do filePath <- path_join_of "/tmp/" file_name;
    try_catch
      (fs_writeFile filePath data ;;;
       res_json 200
         [("success", JBool true);
          ("message", JStr "File berhasil disimpan (sementara di /tmp).")])
      (λ error,
        res_json 500
          (server_error
             "[SERVER ERROR] Gagal menyimpan file (Izin ditolak?). Cek log Vercel."
             error)).

(** [DELETE /api/delete] *)
Definition delete (req : request) : Fs unit :=
  let file := prop (query req) "file" in
  if negb (truthy file)
  then res_json 400 [("success", JBool false);
                     ("message", JStr "Nama file/folder diperlukan.")]
  else
    do delPath <- path_join_of "/tmp/" file;
    try_catch
      (do isDirectory <- fs_stat delPath;
       if isDirectory
       then fs_rm delPath ;;;
            res_json 200
              [("success", JBool true);
               ("message", JStr ("Folder '" +:+ js_to_string file
                                 +:+ "' berhasil dihapus."))]
       else fs_unlink delPath ;;;
            res_json 200
              [("success", JBool true);
               ("message", JStr ("File '" +:+ js_to_string file
                                 +:+ "' berhasil dihapus."))])
      (λ error,
        res_json 500
          (server_error "[SERVER ERROR] Gagal menghapus. Cek log Vercel."
             error)).

(** [GET /api/download]: the callback answers an error with a 500 only
    while the headers have not been sent *)
Definition download (req : request) (net : transfer) : Fs unit :=
  let fileName := prop (query req) "file" in
  if negb (truthy fileName)
  then res_send 400 "Nama file diperlukan."
  else
    do filePath <- path_join_of "/tmp/" fileName;
    res_download filePath (js_to_string fileName) net
      (λ err, match err with
              | Some _ =>
                  do headers <- res_headersSent;
                  if negb headers
                  then res_send 500 "Gagal mengunduh file. Cek log Vercel."
                  else ret tt
              | None => ret tt
              end).

End Vercel.

(** ** The remote-repository variant: the GitHub contents API through
    Octokit

    The backend is a parameter: a request changes the repository state and
    answers with data or with an error carrying the HTTP status.  So are
    the two [Buffer] conversions. *)

Inductive gh_method := GET | PUT | DELETE.

(** [octokit.request('<METHOD> /repos/{owner}/{repo}/contents/{path}',
    { owner, repo, path, message, content, sha })] *)
Record gh_request := GhRequest {
  gh_method_of : gh_method;
  gh_owner : string;
  gh_repo : string;
  gh_path : jsval;
  gh_message : option string;
  gh_content : option string;
  gh_sha : option jsval
}.

(** [response.data]: of a file, [{content, sha}]; of a directory, an
    array; of an update, [{content: {sha}}]; of a deletion,
    [{content: null}] *)
Inductive gh_data :=
| FileData (encoded sha : jsval)
| Listing
| Committed (new_sha : jsval)
| Removed.

(** [response.data.content] *)
Definition data_content (d : gh_data) : jsval :=
  match d with
  | FileData encoded _ => encoded
  | Listing => JUndefined
  | Committed _ => JObj
  | Removed => JNull
  end.

(** [response.data.sha] *)
Definition data_sha (d : gh_data) : jsval :=
  match d with
  | FileData _ sha => sha
  | _ => JUndefined
  end.

(** [response.data.content.sha]; [None] when reading it throws *)
Definition data_content_sha (d : gh_data) : option jsval :=
  match d with
  | Committed new_sha => Some new_sha
  | FileData (JUndefined | JNull) _ => None
  | FileData _ _ => Some JUndefined
  | Listing | Removed => None
  end.

Definition cannot_read_sha : js_error :=
  {| e_name := "TypeError"; e_code := None; e_status := None;
     e_message := "Cannot read properties of undefined (reading 'sha')" |}.

Module GitHub.
Section Handlers.

Context {Repo : Type}.
Variable octokit : gh_request → Repo → (js_error + gh_data) * Repo.
Variable base64_encode base64_decode : string → string.
Variables OWNER REPO : string.

Abbreviation Gh := (M Repo gh_request).

(** [await octokit.request(..)] *)
Definition octokit_request (r : gh_request) : Gh gh_data :=
  call r ;;;
  λ w, let '(answer, repo) := octokit r (store w) in
       (answer, {| store := repo; calls := calls w;
                   headersSent := headersSent w; sent := sent w;
                   late := late w |}).

(** [Buffer.from(v, 'utf8').toString('base64')]: of the values modelled,
    [Buffer.from] takes the strings and throws for the others *)
Definition encode (v : jsval) : Gh string :=
  match v with
  | JStr s => ret (base64_encode s)
  | _ => throw ERR_INVALID_ARG_TYPE
  end.

(** [Buffer.from(v, 'base64').toString('utf8')] *)
Definition decode (v : jsval) : Gh string :=
  match v with
  | JStr s => ret (base64_decode s)
  | _ => throw ERR_INVALID_ARG_TYPE
  end.

Definition github_error (message : string) (error : js_error)
  : list (string * jsval) :=
  [("success", JBool false);
   ("message", JStr message);
   ("error_type", status_or_unknown error);
   ("internal_message", JStr (e_message error))].

(** [GET /api/file-content] *)
Definition file_content (req : request) : Gh unit :=
  let fileName := prop (query req) "file" in
  if negb (truthy fileName)
  then res_json 400 [("success", JBool false);
                     ("message", JStr "Nama file diperlukan.")]
  else
    try_catch
      (do data <- octokit_request
                    {| gh_method_of := GET; gh_owner := OWNER;
                       gh_repo := REPO; gh_path := fileName;
                       gh_message := None; gh_content := None;
                       gh_sha := None |};
       if truthy (data_content data)
       then
         do text <- decode (data_content data);
         res_json 200 [("success", JBool true);
                       ("content", JStr text);
                       ("sha", data_sha data)]
       else
         res_json 404
           [("success", JBool false);
            ("message",
             JStr "File ditemukan, tetapi bukan file atau konten kosong.")])
      (λ error,
        res_json (status_or_500 error)
          (github_error "[SERVER ERROR] Gagal membaca file dari GitHub." error)).

(** [POST /api/save-file] *)
Definition save_file (req : request) : Gh unit :=
  let file_name := prop (body req) "file_name" in
  let data := prop (body req) "content" in
  let sha := prop (body req) "sha" in
  if negb (truthy file_name) || bool_decide (data = JUndefined)
     || negb (truthy sha)
  then res_json 400
         [("success", JBool false);
          ("message",
           JStr "Nama file, konten, dan SHA (untuk update) diperlukan.")]
  else
    do encodedContent <- encode data;
    try_catch
      (do answer <- octokit_request
                      {| gh_method_of := PUT; gh_owner := OWNER;
                         gh_repo := REPO; gh_path := file_name;
                         gh_message :=
                           Some ("[Vercel Editor] Updated "
                                 +:+ js_to_string file_name);
                         gh_content := Some encodedContent;
                         gh_sha := Some sha |};
       match data_content_sha answer with
       | Some new_sha =>
           res_json 200 [("success", JBool true);
                         ("message", JStr "File berhasil disimpan ke GitHub.");
                         ("new_sha", new_sha)]
       | None => throw cannot_read_sha
       end)
      (λ error,
        res_json (status_or_500 error)
          (github_error "[SERVER ERROR] Gagal menyimpan file ke GitHub." error)).

(** [DELETE /api/delete] *)
Definition delete (req : request) : Gh unit :=
  let file := prop (query req) "file" in
  let sha := prop (query req) "sha" in
  if negb (truthy file) || negb (truthy sha)
  then res_json 400
         [("success", JBool false);
          ("message",
           JStr "Nama file dan SHA diperlukan untuk menghapus di GitHub.")]
  else
    try_catch
      (octokit_request
         {| gh_method_of := DELETE; gh_owner := OWNER; gh_repo := REPO;
            gh_path := file;
            gh_message :=
              Some ("[Vercel Editor] Deleted " +:+ js_to_string file);
            gh_content := None;
            gh_sha := Some sha |} ;;;
       res_json 200
         [("success", JBool true);
          ("message", JStr ("File/Folder '" +:+ js_to_string file
                            +:+ "' berhasil dihapus dari GitHub."))])
      (λ error,
        res_json (status_or_500 error)
          (github_error "[SERVER ERROR] Gagal menghapus file dari GitHub." error)).

End Handlers.
End GitHub.

(** A repository that keeps, for each path, the encoded content and its
    fingerprint, and checks the fingerprint presented with an update or a
    deletion against the current one: the optimistic-concurrency rule of
    the contents API.  [blob_sha] computes the fingerprint of a content. *)

Definition request_error (st : Z) (message : string) : js_error :=
  {| e_name := "RequestError"; e_code := None; e_status := Some st;
     e_message := message |}.

Definition contents_api (blob_sha : string → string) (r : gh_request)
    (repo : gmap string (string * string))
  : (js_error + gh_data) * gmap string (string * string) :=
  let p := js_to_string (gh_path r) in
  match gh_method_of r with
  | GET =>
      match repo !! p with
      | Some (encoded, sha) => (inr (FileData (JStr encoded) (JStr sha)), repo)
      | None => (inl (request_error 404 "Not Found"), repo)
      end
  | PUT =>
      match repo !! p, gh_content r with
      | Some (_, sha), Some encoded =>
          if decide (gh_sha r = Some (JStr sha))
          then (inr (Committed (JStr (blob_sha encoded))),
                <[p := (encoded, blob_sha encoded)]> repo)
          else (inl (request_error 409
                       (p +:+ " does not match " +:+ sha)), repo)
      | None, Some encoded =>
          match gh_sha r with
          | None => (inr (Committed (JStr (blob_sha encoded))),
                     <[p := (encoded, blob_sha encoded)]> repo)
          | Some _ => (inl (request_error 422 "Invalid request."), repo)
          end
      | _, None => (inl (request_error 422 "Invalid request."), repo)
      end
  | DELETE =>
      match repo !! p with
      | Some (_, sha) =>
          if decide (gh_sha r = Some (JStr sha))
          then (inr Removed, base.delete p repo)
          else (inl (request_error 409
                       (p +:+ " does not match " +:+ sha)), repo)
      | None => (inl (request_error 404 "Not Found"), repo)
      end
  end.

(** ** What a run of a handler left behind *)

(** the handler answered with exactly the response [r] and made the
    backend calls [cs], leaving the store [s] *)
Definition answered {S C : Type} (s : S) (cs : list C) (r : response)
  : (js_error + unit) * world S C :=
  (inr tt, {| store := s; calls := cs; headersSent := true; sent := [r];
              late := [] |}).

(** some response with status 400 was sent *)
Definition client_error {S C A : Type} (run : A * world S C) : Prop :=
  ∃ r, r ∈ sent run.2 ∧ status r = 400%Z.

(** the three requests the handlers of the remote variant make *)
Definition get_request (OWNER REPO : string) (path : jsval) : gh_request :=
  {| gh_method_of := GET; gh_owner := OWNER; gh_repo := REPO;
     gh_path := path; gh_message := None; gh_content := None;
     gh_sha := None |}.

Definition put_request (OWNER REPO : string) (path : jsval)
    (encoded : string) (sha : jsval) : gh_request :=
  {| gh_method_of := PUT; gh_owner := OWNER; gh_repo := REPO;
     gh_path := path;
     gh_message := Some ("[Vercel Editor] Updated " +:+ js_to_string path);
     gh_content := Some encoded;
     gh_sha := Some sha |}.

Definition delete_request (OWNER REPO : string) (path sha : jsval)
  : gh_request :=
  {| gh_method_of := DELETE; gh_owner := OWNER; gh_repo := REPO;
     gh_path := path;
     gh_message := Some ("[Vercel Editor] Deleted " +:+ js_to_string path);
     gh_content := None;
     gh_sha := Some sha |}.

(** ** Sample requests and trees *)

(** [POST /api/save-file {file_name: "notes.txt", content: "hello"}] *)
Definition notes_save : request :=
  {| query := ∅;
     body := {[ "file_name" := JStr "notes.txt"; "content" := JStr "hello" ]} |}.

(** [GET /api/file-content?file=notes.txt] *)
Definition notes_read : request :=
  {| query := {[ "file" := JStr "notes.txt" ]}; body := ∅ |}.

(** [POST /api/save-file {file_name: "empty.txt", content: ""}] *)
Definition empty_save : request :=
  {| query := ∅;
     body := {[ "file_name" := JStr "empty.txt"; "content" := JStr "" ]} |}.


Definition a_download : request :=
  {| query := {[ "file" := JStr "a.txt" ]}; body := ∅ |}.

(** a deployment at [/var/task] with an empty [/tmp] *)
Definition deployed : tree :=
  {[ [] := Dir; ["tmp"] := Dir; ["var"] := Dir; ["var"; "task"] := Dir ]}.

(** a tree whose only directory besides the root is [/tmp] *)
Definition tmp_only : tree := {[ [] := Dir; ["tmp"] := Dir ]}.

(** a data directory [/srv/data] holding the file [a.txt] *)
Definition with_a_txt : tree :=
  {[ [] := Dir; ["srv"] := Dir; ["srv"; "data"] := Dir;
     ["srv"; "data"; "a.txt"] := File "0123456789" ]}.

(** [/tmp] holding the file [a.txt] *)
Definition tmp_with_a_txt : tree :=
  {[ [] := Dir; ["tmp"] := Dir; ["tmp"; "a.txt"] := File "0123456789" ]}.


Definition moved_on : gmap string (string * string) :=
  {[ "notes.txt" := ("d29ybGQ=", "f2") ]}.

Definition ECONNABORTED : js_error :=
  {| e_name := "Error"; e_code := Some "ECONNABORTED"; e_status := None;
     e_message := "Request aborted" |}.

(** ** Listing, folders and renaming: more of [fs/promises]

    These operations log their own calls; an operation of the first group
    used among them is logged as [Earlier]. *)

Inductive fs_op :=
| Earlier (c : fs_call)
| FsReaddir (p : string)
| FsMkdir (p : string)
| FsRename (oldPath newPath : string).

Abbreviation Fs2 := (M tree fs_op).

(** run [fs.stat] and the like among the operations of this group *)
Definition earlier {A : Type} (m : Fs A) : Fs2 A :=
  λ w, let '(r, w') :=
         m {| store := store w; calls := []; headersSent := headersSent w;
              sent := sent w; late := late w |} in
       (r, {| store := store w';
              calls := calls w ++ map Earlier (calls w');
              headersSent := headersSent w'; sent := sent w';
              late := late w' |}).

(** the names directly below the directory with key [k], in the order of
    the store *)
Definition dir_entries (k : list string) (t : tree) : list string :=
  omap (λ kv : list string * node,
          if decide (kv.1 ≠ [] ∧ parent kv.1 = k) then last kv.1 else None)
       (map_to_list t).

(** [fs.readdir(p)] *)
Definition fs_readdir (p : string) : Fs2 (list string) :=
  call (FsReaddir p) ;;;
  do t <- get_store;
  match t !! Path.segments p with
  | Some Dir => ret (dir_entries (Path.segments p) t)
  | Some (File _) => throw (sys_error "ENOTDIR" "scandir" p)
  | None => throw (sys_error "ENOENT" "scandir" p)
  end.

(** is some proper ancestor of [k] a file? *)
Definition file_above (k : list string) (t : tree) : bool :=
  existsb (λ i, match t !! take i k with
                | Some (File _) => true
                | _ => false
                end) (seq 0 (length k)).

(** [k] and its missing ancestors become directories *)
Definition make_dirs (k : list string) (t : tree) : tree :=
  foldr (λ i acc, <[take i k := Dir]> acc) t (seq 1 (length k)).

(** [fs.mkdir(p, { recursive: true })]: an existing directory is fine, a
    file in the way is not, nor is a path that is not usable *)
Definition fs_mkdir (p : string) : Fs2 unit :=
  call (FsMkdir p) ;;;
  if has_nul p then throw (ERR_INVALID_ARG_VALUE "path")
  else if too_long p then throw (sys_error "ENAMETOOLONG" "mkdir" p)
  else
    do t <- get_store;
    match t !! Path.segments p with
    | Some (File _) => throw (sys_error "EEXIST" "mkdir" p)
    | _ =>
        if file_above (Path.segments p) t
        then throw (sys_error "ENOTDIR" "mkdir" p)
        else put_store (make_dirs (Path.segments p) t)
    end.

(** the entries at and below [ka] move to [kb]; what was at and below
    [kb] is replaced *)
Definition move_tree (ka kb : list string) (t : tree) : tree :=
  list_to_map
    (omap (λ kv : list string * node,
             if decide (ka `prefix_of` kv.1)
             then Some (kb ++ drop (length ka) kv.1, kv.2)
             else None)
          (map_to_list t))
  ∪ filter (λ kv, ¬ ka `prefix_of` kv.1 ∧ ¬ kb `prefix_of` kv.1) t.

(** does the directory with key [k] hold anything? *)
Definition occupied (k : list string) (t : tree) : bool :=
  bool_decide (filter (λ kv : list string * node,
                         k `prefix_of` kv.1 ∧ kv.1 ≠ k) t ≠ ∅).

(** [fs.rename(oldPath, newPath)] *)
Definition fs_rename (oldPath newPath : string) : Fs2 unit :=
  call (FsRename oldPath newPath) ;;;
  if has_nul oldPath then throw (ERR_INVALID_ARG_VALUE "oldPath")
  else if has_nul newPath then throw (ERR_INVALID_ARG_VALUE "newPath")
  else if too_long oldPath || too_long newPath
  then throw (sys_error_to "ENAMETOOLONG" "rename" oldPath newPath)
  else
    do t <- get_store;
    let ka := Path.segments oldPath in
    let kb := Path.segments newPath in
    let failed (code : string) : Fs2 unit :=
      throw (sys_error_to code "rename" oldPath newPath) in
    match t !! ka with
    | None => failed "ENOENT"
    | Some source =>
        if match source with
           | File _ => Str.endsWithSlash oldPath || Str.endsWithSlash newPath
           | Dir => false
           end
        then failed "ENOTDIR"
        else if decide (ka = kb) then ret tt
        else if decide (ka `prefix_of` kb) then failed "EINVAL"
        else
          match kb, t !! parent kb with
          | _ :: _, Some Dir =>
              match source, t !! kb with
              | File _, Some Dir => failed "EISDIR"
              | Dir, Some (File _) => failed "ENOTDIR"
              | Dir, Some Dir =>
                  if occupied kb t then failed "ENOTEMPTY"
                  else put_store (move_tree ka kb t)
              | _, _ => put_store (move_tree ka kb t)
              end
          | _ :: _, Some (File _) => failed "ENOTDIR"
          | _, _ => failed "ENOENT"
          end
    end.

(** an element of the listing: [{ name, isDir }] *)
Record entry := Entry { entry_name : string; entry_isDir : bool }.

(** the [files] array of a listing answer, written out element by element *)
Definition files_fields (fileList : list entry) : list (string * jsval) :=
  flat_map (λ e, [("files[].name", JStr (entry_name e));
                  ("files[].isDir", JBool (entry_isDir e))]) fileList.

(** the loop of the listing: every name but [.] and [..] is joined onto
    the directory and examined with [fs.stat] *)
Fixpoint list_entries (safeDir : string) (files : list string)
    (fileList : list entry) : Fs2 (list entry) :=
  match files with
  | [] => ret fileList
  | file :: rest =>
      if decide (file = "." ∨ file = "..")
      then list_entries safeDir rest fileList
      else
        do isDirectory <- earlier (fs_stat (Path.join [safeDir; file]));
        list_entries safeDir rest (fileList ++ [Entry file isDirectory])
  end.

Module LocalTree.

(** [GET /api/files] of the first variant *)
Definition files (root : string) (req : request) : Fs2 unit :=
  let userDir := js_or (prop (query req) "directory") (JStr "./") in
  do safeDir <- getSafePath_of root userDir;
  try_catch
    (do names <- fs_readdir safeDir;
     do fileList <- list_entries safeDir names [];
     res_json 200
       (("success", JBool true) :: files_fields fileList
        ++ [("relativeDir", JStr (getRelativePath root safeDir))]))
    (λ error,
      res_json 500 [("success", JBool false);
                    ("message", JStr "Gagal membaca direktori.");
                    ("error", JStr (e_message error))]).

(** [POST /api/create-folder] *)
Definition create_folder (root : string) (req : request) : Fs2 unit :=
  let new_folder := prop (body req) "new_folder" in
  let directory := prop (body req) "directory" in
  if negb (truthy new_folder)
  then res_json 400 [("success", JBool false);
                     ("message", JStr "Nama folder diperlukan.")]
  else
    do dir <- getSafePath_of root (js_or directory (JStr "./"));
    do newPath <- path_join_of dir new_folder;
    try_catch
      (fs_mkdir newPath ;;;
       res_json 200
         [("success", JBool true);
          ("message", JStr ("Folder '" +:+ js_to_string new_folder
                            +:+ "' berhasil dibuat."))])
      (λ error,
        res_json 500 [("success", JBool false);
                      ("message", JStr ("Gagal membuat folder: "
                                        +:+ e_message error))]).

(** [PUT /api/rename] *)
Definition rename (root : string) (req : request) : Fs2 unit :=
  let old_name := prop (body req) "old_name" in
  let new_name := prop (body req) "new_name" in
  let directory := prop (body req) "directory" in
  if negb (truthy old_name) || negb (truthy new_name)
  then res_json 400 [("success", JBool false);
                     ("message", JStr "Nama lama dan nama baru diperlukan.")]
  else
    do safeDir <- getSafePath_of root (js_or directory (JStr "./"));
    do oldPath <- path_join_of safeDir old_name;
    do newPath <- path_join_of safeDir new_name;
    try_catch
      (fs_rename oldPath newPath ;;;
       res_json 200
         [("success", JBool true);
          ("message", JStr ("Berhasil mengganti nama dari '"
                            +:+ js_to_string old_name +:+ "' menjadi '"
                            +:+ js_to_string new_name +:+ "'."))])
      (λ error,
        res_json 500 [("success", JBool false);
                      ("message", JStr ("Gagal mengganti nama: "
                                        +:+ e_message error))]).

End LocalTree.

Module VercelTree.

(** [GET /api/files] of [api/server.js] *)
Definition files (root : string) (req : request) : Fs2 unit :=
  let userDir := js_or (prop (query req) "directory") (JStr "./") in
  do safeDir <- getSafePath_of root userDir;
  try_catch
    (do names <- fs_readdir safeDir;
     do fileList <- list_entries safeDir names [];
     res_json 200
       (("success", JBool true) :: files_fields fileList
        ++ [("relativeDir", JStr (getRelativePath root safeDir))]))
    (λ error,
      res_json 500
        (Vercel.server_error
           "[SERVER ERROR] Gagal membaca direktori. Cek log Vercel." error)).

(** [POST /api/create-folder] *)
Definition create_folder (req : request) : Fs2 unit :=
  let new_folder := prop (body req) "new_folder" in
  if negb (truthy new_folder)
  then res_json 400 [("success", JBool false);
                     ("message", JStr "Nama folder diperlukan.")]
  else
    do newPath <- path_join_of "/tmp/" new_folder;
    try_catch
      (fs_mkdir newPath ;;;
       res_json 200
         [("success", JBool true);
          ("message", JStr ("Folder '" +:+ js_to_string new_folder
                            +:+ "' berhasil dibuat (sementara di /tmp)."))])
      (λ error,
        res_json 500
          (Vercel.server_error
             "[SERVER ERROR] Gagal membuat folder. Cek log Vercel." error)).

(** [PUT /api/rename] *)
Definition rename (req : request) : Fs2 unit :=
  let old_name := prop (body req) "old_name" in
  let new_name := prop (body req) "new_name" in
  if negb (truthy old_name) || negb (truthy new_name)
  then res_json 400 [("success", JBool false);
                     ("message", JStr "Nama lama dan nama baru diperlukan.")]
  else
    do oldPath <- path_join_of "/tmp/" old_name;
    do newPath <- path_join_of "/tmp/" new_name;
    try_catch
      (fs_rename oldPath newPath ;;;
       res_json 200
         [("success", JBool true);
          ("message", JStr ("Berhasil mengganti nama dari '"
                            +:+ js_to_string old_name +:+ "' menjadi '"
                            +:+ js_to_string new_name +:+ "'."))])
      (λ error,
        res_json 500
          (Vercel.server_error
             "[SERVER ERROR] Gagal mengganti nama. Cek log Vercel." error)).

End VercelTree.

Global Instance plain_dec (seg : string) : Decision (Path.plain seg).
Proof. unfold Path.plain. apply _. Defined.

(** every name in the tree is an ordinary file name: not empty, not [.]
    or [..], without separator *)
Definition well_named (t : tree) : Prop :=
  map_Forall (λ (k : list string) (_ : node), Forall Path.plain k) t.

(** the kind that [fs.stat] reports for the entry with key [k] *)
Definition is_directory (t : tree) (k : list string) : bool :=
  match t !! k with
  | Some Dir => true
  | _ => false
  end.

(** [GET /api/files?directory=docs], [POST /api/create-folder
    {new_folder: "docs"}], [PUT /api/rename {old_name: "a.txt",
    new_name: "b.txt"}] *)
Definition docs_listing : request :=
  {| query := {[ "directory" := JStr "docs" ]}; body := ∅ |}.

Definition docs_folder : request :=
  {| query := ∅; body := {[ "new_folder" := JStr "docs" ]} |}.

Definition a_to_b : request :=
  {| query := ∅;
     body := {[ "old_name" := JStr "a.txt"; "new_name" := JStr "b.txt" ]} |}.

(** [POST /api/create-folder {new_folder: "cache", directory: "a.txt"}] *)
Definition cache_below_a_txt : request :=
  {| query := ∅;
     body := {[ "new_folder" := JStr "cache"; "directory" := JStr "a.txt" ]} |}.

(** [POST /api/create-folder {new_folder: "drafts", directory: "docs"}] *)
Definition drafts_in_docs : request :=
  {| query := ∅;
     body := {[ "new_folder" := JStr "drafts"; "directory" := JStr "docs" ]} |}.

(** [GET /api/file-content?file=b.txt] *)
Definition b_read : request :=
  {| query := {[ "file" := JStr "b.txt" ]}; body := ∅ |}.

(** [POST /api/save-file {file_name: "notes.txt", content: "hello",
    sha: "f2"}] and [DELETE /api/delete?file=notes.txt&sha=f2]: requests
    that present the current fingerprint of [notes.txt] in [moved_on] *)
Definition current_save : request :=
  {| query := ∅;
     body := {[ "file_name" := JStr "notes.txt"; "content" := JStr "hello";
                "sha" := JStr "f2" ]} |}.

Definition current_delete : request :=
  {| query := {[ "file" := JStr "notes.txt"; "sha" := JStr "f2" ]};
     body := ∅ |}.



(** [/srv/data] holding [a.txt] and the folder [docs] with [n.md] in it *)
Definition with_docs : tree :=
  {[ [] := Dir; ["srv"] := Dir; ["srv"; "data"] := Dir;
     ["srv"; "data"; "a.txt"] := File "0123456789";
     ["srv"; "data"; "docs"] := Dir;
     ["srv"; "data"; "docs"; "n.md"] := File "# notes" ]}.

(** ** The first adaptation for Vercel

    The second server of [part_001] works below [/tmp] like
    [api/server.js] but answers errors like the first variant.  Its
    download: *)

Module VercelEarly.

(** [GET /api/download]: from [/tmp], the callback answers every error
    with a 500 *)
Definition download (req : request) (net : transfer) : Fs unit :=
  let fileName := prop (query req) "file" in
  if negb (truthy fileName)
  then res_send 400 "Nama file diperlukan."
  else
    do filePath <- path_join_of "/tmp/" fileName;
    res_download filePath (js_to_string fileName) net
      (λ err, match err with
              | Some _ =>
                  res_send 500
                    "Gagal mengunduh file. (Mungkin file tidak ada di /tmp)."
              | None => ret tt
              end).

End VercelEarly.

(** * Proofs *)

(** ** Strings *)

Section StrLemmas.
Import Str.

Lemma str_app_cons a (s t : string) : String a s +:+ t = String a (s +:+ t).
Proof. reflexivity. Qed.

Lemma str_app_nil_l (s : string) : "" +:+ s = s.
Proof. reflexivity. Qed.

Lemma str_app_nil_r (s : string) : s +:+ "" = s.
Proof. induction s as [|a s IH]; [done|]. by rewrite str_app_cons, IH. Qed.

Lemma str_app_assoc (s t u : string) : (s +:+ t) +:+ u = s +:+ t +:+ u.
Proof. induction s as [|a s IH]; [done|]. by rewrite !str_app_cons, IH. Qed.

Lemma str_app_eq_nil (s t : string) : s +:+ t = "" → s = "" ∧ t = "".
Proof. destruct s; [done|]. by rewrite str_app_cons. Qed.

Lemma ascii_eqb_refl a : Ascii.eqb a a = true.
Proof. by apply Ascii.eqb_eq. Qed.

Lemma startsWith_nil s : startsWith s "" = true.
Proof. by destruct s. Qed.

Lemma startsWith_refl s : startsWith s s = true.
Proof. induction s as [|a s IH]; [done|]. simpl. by rewrite ascii_eqb_refl. Qed.

Lemma startsWith_app s t : startsWith (s +:+ t) s = true.
Proof.
  induction s as [|a s IH]; [apply startsWith_nil|].
  rewrite str_app_cons. simpl. by rewrite ascii_eqb_refl.
Qed.

Lemma startsWith_spec s pre :
  startsWith s pre = true ↔ ∃ rest, s = pre +:+ rest.
Proof.
  revert s. induction pre as [|a pre IH]; intros s.
  - rewrite startsWith_nil. split; [by exists s|done].
  - destruct s as [|b s]; simpl.
    + split; [done|]. intros [rest H]. by rewrite str_app_cons in H.
    + rewrite andb_true_iff, Ascii.eqb_eq, IH. split.
      * intros [-> [rest ->]]. by exists rest.
      * intros [rest H]. rewrite str_app_cons in H. injection H as -> ->. eauto.
Qed.
End StrLemmas.

Section SplitJoin.
Import Str.

Lemma split_not_nil s : split s ≠ [].
Proof.
  destruct s as [|c s]; [done|]. simpl.
  destruct (Ascii.eqb c "/"); [done|]. by destruct (split s).
Qed.

Lemma split_app_slash a b : split (a +:+ String "/" b) = split a ++ split b.
Proof.
  induction a as [|c a IH]; [done|].
  rewrite str_app_cons. simpl. rewrite IH.
  destruct (Ascii.eqb c "/"); [done|].
  pose proof (split_not_nil a). by destruct (split a).
Qed.

Lemma split_slashfree s : Forall (λ x, mem "/" x = false) (split s).
Proof.
  induction s as [|c s IH]; [by repeat constructor|]. simpl.
  destruct (Ascii.eqb c "/") eqn:E; [by constructor|].
  destruct (split s) as [|seg rest]; [by repeat constructor; simpl; rewrite E|].
  inversion IH; subst. constructor; [simpl; by rewrite E|done].
Qed.

Lemma join_cons2 x y l : join (x :: y :: l) = x +:+ String "/" (join (y :: l)).
Proof. reflexivity. Qed.


Lemma split_slashfree_id x : mem "/" x = false → split x = [x].
Proof.
  induction x as [|c x IH]; [done|]. simpl.
  intros [E H]%orb_false_iff. rewrite E. by rewrite IH.
Qed.

Lemma split_join l :
  l ≠ [] → Forall (λ x, mem "/" x = false) l → split (join l) = l.
Proof.
  induction l as [|x l IH]; [done|]. intros _ H.
  inversion H as [|? ? Hx Hl]; subst.
  destruct l as [|y l]; [by apply split_slashfree_id|].
  rewrite join_cons2, split_app_slash, IH, split_slashfree_id; done.
Qed.


Lemma last_app s t : t ≠ "" → last (s +:+ t) = last t.
Proof.
  intros Ht. induction s as [|c s IH]; [done|].
  rewrite str_app_cons. simpl. rewrite IH.
  destruct (s +:+ t) eqn:E; [|done].
  by apply str_app_eq_nil in E as [_ ?].
Qed.

Lemma endsWithSlash_app s t : t ≠ "" → endsWithSlash (s +:+ t) = endsWithSlash t.
Proof. intros. unfold endsWithSlash. by rewrite last_app. Qed.

Lemma endsWithSlash_slashfree x : mem "/" x = false → endsWithSlash x = false.
Proof.
  unfold endsWithSlash. induction x as [|c x IH]; [done|].
  simpl. intros [E H]%orb_false_iff. destruct x; [done|]. by apply IH.
Qed.

Lemma endsWithSlash_join l :
  Forall (λ x, x ≠ "" ∧ mem "/" x = false) l → endsWithSlash (join l) = false.
Proof.
  induction l as [|x l IH]; [done|]. intros H.
  inversion H as [|? ? [Hx Hm] Hl]; subst.
  destruct l as [|y l]; [by apply endsWithSlash_slashfree|].
  rewrite join_cons2.
  change (String "/" (join (y :: l))) with ("/" +:+ join (y :: l)).
  rewrite <- str_app_assoc. rewrite endsWithSlash_app; [by apply IH|].
  inversion Hl as [|? ? [Hy _] _]; subst.
  destruct l; [done|]. rewrite join_cons2. by destruct y.
Qed.

End SplitJoin.

(** ** Normalization and joining *)

Section PathLemmas.
Import Str Path.

Lemma step_skip b kept seg : seg = "" ∨ seg = "." → step b kept seg = kept.
Proof. intros H. unfold step. by rewrite decide_True. Qed.

Lemma step_plain b kept seg : plain seg → step b kept seg = seg :: kept.
Proof.
  intros (H1 & H2 & H3 & _). unfold step.
  rewrite (decide_False (P := seg = "" ∨ seg = ".")) by (by intros [?|?]).
  by rewrite decide_False.
Qed.

Lemma step_pop kept top : plain top → step false (top :: kept) ".." = kept.
Proof.
  intros (H1 & H2 & H3 & _). unfold step.
  rewrite (decide_False (P := ".." = "" ∨ ".." = ".")) by (by intros [?|?]).
  rewrite decide_True by done.
  by rewrite decide_False.
Qed.

Lemma step_keeps_plain kept seg :
  mem "/" seg = false → Forall plain kept → Forall plain (step false kept seg).
Proof.
  intros Hm Hk. unfold step.
  destruct (decide (seg = "" ∨ seg = ".")) as [|Hn]; [done|].
  destruct (decide (seg = "..")) as [->|Hd].
  - destruct kept as [|top below]; [done|].
    destruct (decide (top = "..")); [done|]. by inversion Hk.
  - constructor; [|done]. unfold plain. naive_solver.
Qed.

Lemma fold_step_plain xs kept :
  Forall (λ x, mem "/" x = false) xs → Forall plain kept →
  Forall plain (fold_left (step false) xs kept).
Proof.
  revert kept. induction xs as [|x xs IH]; intros kept Hx Hk; [done|].
  inversion Hx; subst. simpl. apply IH; [done|]. by apply step_keeps_plain.
Qed.

Lemma segments_plain p : Forall plain (segments p).
Proof.
  unfold segments, normalizeString. apply Forall_rev, fold_step_plain.
  - apply split_slashfree.
  - constructor.
Qed.

Lemma walk_plain from xs :
  Forall plain from → Forall (λ x, mem "/" x = false) xs →
  Forall plain (walk from xs).
Proof.
  intros Hf Hx. unfold walk. apply Forall_rev, fold_step_plain; [done|].
  by apply Forall_rev.
Qed.

Lemma fold_step_no_dotdot b xs kept :
  ".." ∉ xs →
  fold_left (step b) xs kept
  = rev (filter (λ s, s ≠ "" ∧ s ≠ ".") xs) ++ kept.
Proof.
  revert kept. induction xs as [|x xs IH]; intros kept Hn; [done|].
  apply not_elem_of_cons in Hn as [Hx Hn]. simpl. rewrite IH by done.
  rewrite filter_cons. unfold step.
  destruct (decide (x = "" ∨ x = ".")) as [Hs|Hs].
  - rewrite (decide_False (P := x ≠ "" ∧ x ≠ ".")) by tauto. done.
  - rewrite (decide_True (P := x ≠ "" ∧ x ≠ ".")) by tauto.
    rewrite (decide_False (P := x = "..")) by done.
    simpl. by rewrite <- app_assoc.
Qed.

Lemma walk_no_dotdot from xs :
  ".." ∉ xs → walk from xs = from ++ filter (λ s, s ≠ "" ∧ s ≠ ".") xs.
Proof.
  intros H. unfold walk. rewrite fold_step_no_dotdot by done.
  by rewrite rev_app_distr, !rev_involutive.
Qed.

Lemma walk_app from xs ys : walk from (xs ++ ys) = walk (walk from xs) ys.
Proof. unfold walk. by rewrite fold_left_app, rev_involutive. Qed.

Lemma walk_nil from : walk from [] = from.
Proof. unfold walk. simpl. apply rev_involutive. Qed.

Lemma segments_walk p : segments p = walk [] (split p).
Proof. reflexivity. Qed.

Lemma segments_app_slash a b :
  segments (a +:+ String "/" b) = walk (segments a) (split b).
Proof. by rewrite !segments_walk, split_app_slash, walk_app. Qed.

Lemma normalize_abs p :
  startsWith p "/" = true →
  normalize p = render_dir (segments p) (endsWithSlash p).
Proof.
  intros H. unfold normalize. rewrite decide_False by (by destruct p).
  rewrite H. simpl. fold (segments p). unfold render_dir.
  by destruct (segments p).
Qed.

Lemma render_dir_false segs : render_dir segs false = render segs.
Proof. unfold render_dir, render. destruct segs; [done|]. by rewrite str_app_nil_r. Qed.

Lemma resolved_render root : resolved root = true → root = render (segments root).
Proof. unfold resolved, resolve. intros H%bool_decide_eq_true. done. Qed.

Lemma resolved_absolute root : resolved root = true → startsWith root "/" = true.
Proof. intros H. rewrite (resolved_render root H). apply startsWith_app. Qed.

Lemma plain_join_not_nil l : l ≠ [] → Forall plain l → Str.join l ≠ "".
Proof.
  destruct l as [|x l]; [done|]. intros _ H. inversion H as [|? ? (Hx & _) _]; subst.
  destruct l; [done|]. rewrite join_cons2. by destruct x.
Qed.

Lemma plain_weaken l :
  Forall plain l → Forall (λ x, x ≠ "" ∧ mem "/" x = false) l.
Proof. intros H. eapply Forall_impl; [exact H|]. unfold plain. tauto. Qed.

Lemma plain_slashfree l :
  Forall plain l → Forall (λ x, mem "/" x = false) l.
Proof. intros H. eapply Forall_impl; [exact H|]. unfold plain. tauto. Qed.

Lemma endsWithSlash_render segs :
  segs ≠ [] → Forall plain segs → endsWithSlash (render segs) = false.
Proof.
  intros Hn Hp. unfold render.
  rewrite endsWithSlash_app by by apply plain_join_not_nil.
  by apply endsWithSlash_join, plain_weaken.
Qed.

Lemma normalize_resolved root : resolved root = true → normalize root = root.
Proof.
  intros H. rewrite normalize_abs by by apply resolved_absolute.
  destruct (decide (segments root = [])) as [E|E].
  - rewrite E. rewrite (resolved_render root H), E. done.
  - rewrite (resolved_render root H) at 2.
    rewrite endsWithSlash_render; [|done|apply segments_plain].
    rewrite render_dir_false. symmetry. by apply resolved_render.
Qed.

Lemma join_root root t :
  resolved root = true →
  Path.join [root; t]
  = render_dir (walk (segments root) (split t)) (endsWithSlash t).
Proof.
  intros H. pose proof (resolved_absolute root H) as Ha.
  assert (root ≠ "") as Hr by (by destruct root).
  unfold Path.join. rewrite filter_cons, decide_True by done.
  rewrite filter_cons. destruct (decide (t ≠ "")) as [Ht|Ht].
  - rewrite filter_nil. change (Str.join [root; t]) with (root +:+ String "/" t).
    rewrite normalize_abs.
    + rewrite segments_app_slash.
      change (String "/" t) with ("/" +:+ t). rewrite <- str_app_assoc.
      by rewrite endsWithSlash_app.
    + apply startsWith_spec in Ha as [rest ->]. rewrite str_app_assoc.
      apply startsWith_app.
  - apply dec_stable in Ht as ->. rewrite filter_nil.
    change (Str.join [root]) with root. rewrite normalize_resolved by done.
    cbn [split endsWithSlash last]. unfold walk. simpl.
    rewrite step_skip by auto. rewrite rev_involutive, render_dir_false.
    by apply resolved_render.
Qed.

End PathLemmas.

(** ** The path resolver *)

Section Resolver.
Import Str.

Lemma getSafePath0_eq root userPath :
  getSafePath0 root userPath = getSafePath root userPath.
Proof.
  unfold getSafePath0, getSafePath.
  by destruct (startsWith (Path.join _) root).
Qed.

Lemma getSafePath_unfold root userPath :
  getSafePath root userPath
  = if startsWith (Path.join [root; targetPath userPath]) root
    then Path.join [root; targetPath userPath] else root.
Proof.
  unfold getSafePath, targetPath.
  by destruct (startsWith (Path.join _) root).
Qed.

Lemma getSafePath_fail_closed root userPath :
  startsWith (Path.join [root; targetPath userPath]) root = false →
  getSafePath root userPath = root.
Proof. intros H. by rewrite getSafePath_unfold, H. Qed.




Lemma render_eq_slash segs :
  Forall Path.plain segs → Path.render segs = "/" → segs = [].
Proof.
  intros Hp H. destruct segs as [|x l]; [done|]. exfalso.
  pose proof (plain_join_not_nil (x :: l) ltac:(done) Hp) as Hj.
  unfold Path.render in H. destruct (Str.join (x :: l)); [done|].
  by rewrite str_app_cons in H.
Qed.


Lemma filter_plain_id xs :
  Forall Path.plain xs → filter (λ s, s ≠ "" ∧ s ≠ ".") xs = xs.
Proof.
  induction 1 as [|x xs (H1 & H2 & _) _ IH]; [done|].
  rewrite filter_cons, decide_True by done. by rewrite IH.
Qed.

Lemma plain_no_dotdot xs : Forall Path.plain xs → ".." ∉ xs.
Proof.
  induction 1 as [|x xs (H1 & H2 & H3 & _) _ IH]; [apply not_elem_of_nil|].
  apply not_elem_of_cons. split; [congruence|done].
Qed.

Lemma split_slashes n : split (slashes n) = replicate (S n) "".
Proof. induction n as [|n IH]; [done|]. simpl. by rewrite IH. Qed.

Lemma walk_empty_segments from n : Path.walk from (replicate n "") = from.
Proof.
  unfold Path.walk. induction n as [|n IH]; simpl.
  - apply rev_involutive.
  - rewrite step_skip by auto. done.
Qed.

Lemma endsWithSlash_slashes n : endsWithSlash (slashes (S n)) = true.
Proof.
  unfold endsWithSlash. induction n as [|n IH]; [done|].
  change (slashes (S (S n))) with (String "/" (slashes (S n))).
  remember (slashes (S n)) as s. simpl. destruct s; [done|]. done.
Qed.

Lemma getSafePath_empty_or_slash root :
  resolved root = true → getSafePath root "" = root ∧ getSafePath root "/" = root.
Proof.
  intros Hr.
  assert (getSafePath root "" = root) as H0; [|by split].
  rewrite getSafePath_unfold. change (targetPath "") with "".
  rewrite join_root by done. cbn [split endsWithSlash last].
  rewrite (walk_empty_segments _ 1), render_dir_false.
  rewrite <- resolved_render by done. by rewrite startsWith_refl.
Qed.

(** C10: whatever the input, the string [getSafePath] returns begins with
    the string [DOCUMENT_ROOT] (in both ways the function is written); this
    is weaker than directory containment: with root [/srv/data] the input
    [../data2/x] is answered with [/srv/data2/x], which has the root as a
    string prefix and lies in a sibling directory. *)
Theorem C10_getSafePath_root_prefix :
  (∀ root userPath,
     startsWith (getSafePath root userPath) root = true
     ∧ startsWith (getSafePath0 root userPath) root = true)
  ∧ startsWith (getSafePath "/srv/data" "../data2/x") "/srv/data" = true
  ∧ ¬ inside "/srv/data" (getSafePath "/srv/data" "../data2/x").
Proof.
  split; [|split].
  - intros root userPath. rewrite getSafePath0_eq, getSafePath_unfold.
    destruct (startsWith (Path.join _) root) eqn:E; [by rewrite E|].
    by rewrite startsWith_refl.
  - by vm_compute.
  - unfold inside. vm_compute. intros [k Hk]. discriminate Hk.
Qed.

(** C1 (the code at the input where it departs from the claim): with root
    [/srv/data], the join of [../data2/x] onto the root is
    [/srv/data2/x], outside the root directory, and [getSafePath] returns
    that path instead of the root. *)
Theorem C1_getSafePath_sibling_escape :
  resolved "/srv/data" = true
  ∧ Path.join ["/srv/data"; targetPath "../data2/x"] = "/srv/data2/x"
  ∧ ¬ inside "/srv/data" (Path.join ["/srv/data"; targetPath "../data2/x"])
  ∧ getSafePath "/srv/data" "../data2/x" = "/srv/data2/x"
  ∧ getSafePath "/srv/data" "../data2/x" ≠ "/srv/data".
Proof.
  split; [by vm_compute|]. split; [by vm_compute|]. split.
  - unfold inside. vm_compute. intros [k Hk]. discriminate Hk.
  - by vm_compute.
Qed.

(** C9 (amended): [getSafePath] returns exactly the root for the empty
    path and for a single separator; for two or more separators it returns
    the root followed by one separator (the root itself when the root is
    [/]), a path that resolves to the root directory. *)
Theorem C9_getSafePath_separators root :
  resolved root = true →
  getSafePath root "" = root
  ∧ getSafePath root "/" = root
  ∧ ∀ n, getSafePath root (slashes (2 + n))
         = (if decide (root = "/") then "/" else root +:+ "/")
       ∧ Path.resolve (getSafePath root (slashes (2 + n))) = root.
Proof.
  intros Hr. pose proof (segments_plain root) as HR.
  assert (getSafePath root "" = root) as H0.
  { rewrite getSafePath_unfold. change (targetPath "") with "".
    rewrite join_root by done. cbn [split endsWithSlash last].
    rewrite (walk_empty_segments _ 1), render_dir_false.
    rewrite <- resolved_render by done. by rewrite startsWith_refl. }
  split; [done|]. split; [exact H0|].
  intros n.
  assert (getSafePath root (slashes (2 + n))
          = (if decide (root = "/") then "/" else root +:+ "/")) as Hg.
  { rewrite getSafePath_unfold.
    change (targetPath (slashes (2 + n))) with (slashes (S n)).
    rewrite join_root by done.
    rewrite split_slashes, walk_empty_segments, endsWithSlash_slashes.
    destruct (decide (root = "/")) as [E|E].
    - assert (Path.segments root = []) as ->.
      { apply render_eq_slash; [done|]. by rewrite <- resolved_render. }
      rewrite E. done.
    - assert (Path.segments root ≠ []) as HR'.
      { intros E'. apply E. by rewrite (resolved_render root Hr), E'. }
      assert (Path.render_dir (Path.segments root) true = root +:+ "/") as ->.
      { unfold Path.render_dir. destruct (Path.segments root) eqn:Es; [done|].
        rewrite (resolved_render root Hr), Es.
        unfold Path.render. by rewrite str_app_assoc. }
      by rewrite startsWith_app. }
  split; [done|]. rewrite Hg.
  destruct (decide (root = "/")) as [E|E].
  - by rewrite E.
  - unfold Path.resolve. change (root +:+ "/") with (root +:+ String "/" "").
    rewrite segments_app_slash. cbn [split].
    rewrite (walk_empty_segments _ 1). symmetry. by apply resolved_render.
Qed.

Lemma C9_witness :
  getSafePath "/srv/data" "" = "/srv/data"
  ∧ getSafePath "/srv/data" "/" = "/srv/data"
  ∧ ∀ n, getSafePath "/srv/data" (slashes (2 + n))
         = (if decide ("/srv/data" = "/") then "/" else "/srv/data" +:+ "/")
       ∧ Path.resolve (getSafePath "/srv/data" (slashes (2 + n))) = "/srv/data".
Proof. apply (C9_getSafePath_separators "/srv/data"). reflexivity. Defined.

(** C9 fails as stated: for the root [/srv/data] the path [//] is answered
    with [/srv/data/], not with the root string. *)
Lemma C9_counterexample :
  resolved "/srv/data" = true
  ∧ getSafePath "/srv/data" "//" = "/srv/data/"
  ∧ getSafePath "/srv/data" "//" ≠ "/srv/data".
Proof. by vm_compute. Qed.

End Resolver.

(** ** Relative display paths *)

Section Relativize.
Import Str.

Lemma common_refl l : Path.common l l = length l.
Proof. induction l as [|x l IH]; [done|]. simpl. by rewrite decide_True, IH. Qed.

Lemma common_app l xs ys :
  Path.common (l ++ xs) (l ++ ys) = length l + Path.common xs ys.
Proof. induction l as [|x l IH]; [done|]. simpl. by rewrite decide_True, IH. Qed.

Lemma common_le_l xs ys : Path.common xs ys ≤ length xs.
Proof.
  revert ys. induction xs as [|x xs IH]; intros [|y ys]; simpl; try lia.
  destruct (decide (x = y)); [|lia]. specialize (IH ys). lia.
Qed.

Lemma common_le_r xs ys : Path.common xs ys ≤ length ys.
Proof.
  revert ys. induction xs as [|x xs IH]; intros [|y ys]; simpl; try lia.
  destruct (decide (x = y)); [|lia]. specialize (IH ys). lia.
Qed.

Lemma common_take xs ys :
  take (Path.common xs ys) xs = take (Path.common xs ys) ys.
Proof.
  revert ys. induction xs as [|x xs IH]; intros [|y ys]; simpl; try done.
  destruct (decide (x = y)) as [->|]; [|done]. simpl. by rewrite IH.
Qed.

Lemma relative_segments_refl l : Path.relative_segments l l = [].
Proof.
  unfold Path.relative_segments. rewrite common_refl, Nat.sub_diag.
  by rewrite drop_all.
Qed.

Lemma relative_eq from to :
  Path.relative from to
  = Str.join (Path.relative_segments (Path.segments from) (Path.segments to)).
Proof.
  unfold Path.relative. destruct (decide (from = to)) as [->|].
  - by rewrite relative_segments_refl.
  - destruct (decide (Path.segments from = Path.segments to)) as [->|]; [|done].
    by rewrite relative_segments_refl.
Qed.

Lemma mem_app c s t : mem c (s +:+ t) = mem c s || mem c t.
Proof.
  induction s as [|a s IH]; [done|]. rewrite str_app_cons. cbn [mem].
  by rewrite IH, orb_assoc.
Qed.

Lemma mem_replaceBackslash s : mem "\" (replaceBackslash s) = false.
Proof.
  induction s as [|a s IH]; [done|]. cbn [replaceBackslash mem]. rewrite IH.
  destruct (Ascii.eqb a "\") eqn:E; [done|]. by rewrite E.
Qed.

Lemma replaceBackslash_id s : mem "\" s = false → replaceBackslash s = s.
Proof.
  induction s as [|a s IH]; [done|]. cbn [replaceBackslash mem].
  intros [E H]%orb_false_iff. by rewrite E, IH.
Qed.

Lemma mem_split c s :
  mem c s = false → Forall (λ x, mem c x = false) (split s).
Proof.
  induction s as [|a s IH]; [by repeat constructor|]. cbn [mem split].
  intros [E H]%orb_false_iff. specialize (IH H).
  destruct (Ascii.eqb a "/"); [by constructor|].
  destruct (split s) as [|seg rest].
  - repeat constructor. cbn [mem]. by rewrite E.
  - inversion IH; subst. constructor; [|done]. cbn [mem]. by rewrite E.
Qed.

Lemma mem_join c l :
  Ascii.eqb "/" c = false →
  Forall (λ x, mem c x = false) l → mem c (Str.join l) = false.
Proof.
  intros Hc. induction 1 as [|x l Hx Hl IH]; [done|].
  destruct l as [|y l]; [done|]. rewrite join_cons2, mem_app. cbn [mem].
  by rewrite Hx, Hc, IH.
Qed.

Lemma mem_targetPath c p : mem c p = false → mem c (targetPath p) = false.
Proof.
  unfold targetPath. destruct (startsWith p "/"); [|done].
  destruct p as [|a p]; [done|]. cbn [mem substring1].
  by intros [_ ?]%orb_false_iff.
Qed.

Lemma fold_step_shape xs kept :
  ∃ j X, fold_left (Path.step false) xs kept = X ++ drop j kept
         ∧ Forall (λ x, x ∈ xs) X.
Proof.
  revert kept. induction xs as [|x xs IH]; intros kept.
  - exists 0, []. by rewrite drop_0.
  - simpl. destruct (IH (Path.step false kept x)) as (j & X & -> & HX).
    assert (Forall (λ y, y ∈ x :: xs) X) as HX'.
    { eapply Forall_impl; [exact HX|]. intros y Hy. by apply elem_of_cons; right. }
    unfold Path.step.
    destruct (decide (x = "" ∨ x = ".")); [by exists j, X|].
    destruct (decide (x = "..")).
    + destruct kept as [|top below]; [by exists j, X|].
      destruct (decide (top = "..")); [by exists j, X|].
      by exists (S j), X.
    + destruct j as [|j].
      * exists 0, (X ++ [x]). rewrite !drop_0, <- app_assoc. split; [done|].
        apply Forall_app. split; [done|]. repeat constructor.
      * by exists j, X.
Qed.

Lemma walk_shape from xs :
  ∃ j X, Path.walk from xs = take j from ++ X ∧ Forall (λ x, x ∈ xs) X.
Proof.
  unfold Path.walk. destruct (fold_step_shape xs (rev from)) as (j & X & -> & HX).
  exists (length from - j), (rev X). split.
  - rewrite rev_app_distr. f_equal. rewrite <- (rev_involutive (take _ from)).
    f_equal. apply skipn_rev.
  - by apply Forall_rev.
Qed.

Lemma walk_dotdots from m :
  Forall Path.plain from →
  Path.walk from (replicate m "..") = take (length from - m) from.
Proof.
  intros Hp. unfold Path.walk.
  assert (∀ kept, Forall Path.plain kept →
            fold_left (Path.step false) (replicate m "..") kept = drop m kept) as H.
  { induction m as [|m IH]; intros kept Hk; [by rewrite drop_0|].
    simpl. destruct kept as [|top below].
    - unfold Path.step at 2. simpl. rewrite IH by done. by rewrite drop_nil.
    - inversion Hk; subst. rewrite step_pop by done. by apply IH. }
  rewrite H by by apply Forall_rev.
  rewrite <- (rev_involutive (take _ from)). f_equal. apply skipn_rev.
Qed.

Lemma walk_plain_segments from xs :
  Forall Path.plain xs → Path.walk from xs = from ++ xs.
Proof.
  intros H. rewrite walk_no_dotdot by by apply plain_no_dotdot.
  by rewrite filter_plain_id.
Qed.

Lemma segments_render segs :
  Forall Path.plain segs → Path.segments (Path.render segs) = segs.
Proof.
  intros H. unfold Path.render.
  change ("/" +:+ Str.join segs) with ("" +:+ String "/" (Str.join segs)).
  rewrite segments_app_slash. change (Path.segments "") with (@nil string).
  destruct segs as [|x l]; [done|].
  rewrite split_join; [|done|by apply plain_slashfree].
  by rewrite walk_plain_segments.
Qed.

Lemma segments_render_dir segs tr :
  Forall Path.plain segs → Path.segments (Path.render_dir segs tr) = segs.
Proof.
  intros H. destruct tr; [|by rewrite render_dir_false, segments_render].
  unfold Path.render_dir. destruct segs as [|x l]; [done|].
  rewrite <- str_app_assoc.
  change (("/" +:+ Str.join (x :: l)) +:+ "/")
    with (Path.render (x :: l) +:+ String "/" "").
  rewrite segments_app_slash, segments_render by done.
  apply (walk_empty_segments _ 1).
Qed.

Lemma app_slash_inv a b c :
  a +:+ "/" = b +:+ c → c ≠ "" → ∃ c', c = c' +:+ "/" ∧ a = b +:+ c'.
Proof.
  revert a. induction b as [|x b IH]; intros a H Hc.
  - exists a. by rewrite !str_app_nil_l in *.
  - destruct a as [|y a].
    + rewrite str_app_cons in H. injection H as _ H.
      symmetry in H. by apply str_app_eq_nil in H as [_ ?].
    + rewrite !str_app_cons in H. injection H as -> H.
      destruct (IH a H Hc) as (c' & -> & ->). by exists c'.
Qed.

Lemma startsWith_render_of_dir root segs tr :
  resolved root = true → Forall Path.plain segs →
  startsWith (Path.render_dir segs tr) root = true →
  startsWith (Path.render segs) root = true.
Proof.
  intros Hr Hp H. destruct tr; [|by rewrite render_dir_false in H].
  destruct segs as [|x l]; [done|]. unfold Path.render_dir in H.
  rewrite <- str_app_assoc in H. fold (Path.render (x :: l)) in H.
  apply startsWith_spec in H as [rest H].
  destruct (decide (rest = "")) as [->|Hrest].
  - rewrite str_app_nil_r in H.
    destruct (decide (Path.segments root = [])) as [E|E].
    + rewrite (resolved_render root Hr), E. apply (startsWith_app "/").
    + pose proof (endsWithSlash_render _ E (segments_plain root)) as He.
      rewrite <- resolved_render in He by done. rewrite <- H in He.
      rewrite endsWithSlash_app in He by done. done.
  - destruct (app_slash_inv _ _ _ H Hrest) as (c' & _ & ->).
    apply startsWith_app.
Qed.

(** what [getSafePath] returns, in segments: a normalized path [segs] whose
    rendering starts with the root string, that lies below the common
    ancestor only through segments of the user path *)
Lemma getSafePath_shape root p :
  resolved root = true →
  ∃ segs j X,
    Forall Path.plain segs
    ∧ Path.segments (getSafePath root p) = segs
    ∧ startsWith (Path.render segs) root = true
    ∧ segs = take j (Path.segments root) ++ X
    ∧ Forall (λ x, x ∈ split (targetPath p)) X.
Proof.
  intros Hr. pose proof (segments_plain root) as HR.
  rewrite getSafePath_unfold, join_root by done.
  destruct (startsWith (Path.render_dir _ _) root) eqn:E.
  - destruct (walk_shape (Path.segments root) (split (targetPath p)))
      as (j & X & Hw & HX).
    assert (Forall Path.plain (Path.walk (Path.segments root) (split (targetPath p))))
      as Hp by (apply walk_plain; [done|apply split_slashfree]).
    exists (Path.walk (Path.segments root) (split (targetPath p))), j, X.
    split; [done|]. split; [by apply segments_render_dir|].
    split; [by eapply startsWith_render_of_dir|]. done.
  - exists (Path.segments root), (length (Path.segments root)), [].
    split; [done|]. split; [done|].
    split; [rewrite <- resolved_render by done; apply startsWith_refl|].
    split; [by rewrite take_ge, app_nil_r by lia|constructor].
Qed.

Lemma getRelativePath_slash root :
  resolved root = true → getRelativePath root (getSafePath root "/") = "/".
Proof.
  intros Hr. destruct (getSafePath_empty_or_slash root Hr) as [_ ->].
  unfold getRelativePath. by rewrite relative_eq, relative_segments_refl.
Qed.

Lemma targetPath_slash x : targetPath ("/" +:+ x) = x.
Proof.
  change ("/" +:+ x) with (String "/" x). unfold targetPath.
  cbn [startsWith]. by rewrite startsWith_nil.
Qed.

Lemma getRelativePath_stable root segs :
  resolved root = true → Forall Path.plain segs →
  startsWith (Path.render segs) root = true →
  Forall (λ x, mem "\" x = false)
    (Path.relative_segments (Path.segments root) segs) →
  getRelativePath root
    (getSafePath root
       ("/" +:+ Str.join (Path.relative_segments (Path.segments root) segs)))
  = "/" +:+ Str.join (Path.relative_segments (Path.segments root) segs).
Proof.
  intros Hr Hp Hst Hb. pose proof (segments_plain root) as HR.
  set (R := Path.segments root) in *.
  destruct (Path.relative_segments R segs) as [|y Y] eqn:EY.
  { change (Str.join []) with "". rewrite str_app_nil_r.
    by apply getRelativePath_slash. }
  rewrite <- EY in *.
  assert (Forall Path.plain (drop (Path.common R segs) segs)) as Hd
    by by apply Forall_drop.
  assert (Forall (λ x, x ≠ "" ∧ mem "/" x = false)
            (Path.relative_segments R segs)) as Hok.
  { unfold Path.relative_segments. apply Forall_app. split.
    - by apply Forall_replicate.
    - by apply plain_weaken. }
  assert (Path.walk R (Path.relative_segments R segs) = segs) as Hw.
  { unfold Path.relative_segments. rewrite walk_app, walk_dotdots by done.
    rewrite walk_plain_segments by done.
    pose proof (common_le_l R segs).
    replace (length R - (length R - Path.common R segs))
      with (Path.common R segs) by lia.
    by rewrite common_take, take_drop. }
  rewrite getSafePath_unfold.
  assert (targetPath ("/" +:+ Str.join (Path.relative_segments R segs))
          = Str.join (Path.relative_segments R segs)) as ->
    by apply targetPath_slash.
  rewrite join_root by done. fold R.
  rewrite split_join; [|by rewrite EY|].
  2:{ eapply Forall_impl; [exact Hok|]. by intros ? [_ ?]. }
  rewrite Hw, endsWithSlash_join, render_dir_false, Hst by done.
  unfold getRelativePath. rewrite relative_eq, segments_render by done.
  fold R. rewrite replaceBackslash_id; [done|].
  by apply mem_join.
Qed.

(** C8 (amended): the display path of a resolved path always starts with
    [/] and holds no backslash; when the user path holds no backslash,
    resolving the display path and rendering it again gives the same
    string. *)
Theorem C8_getRelativePath_of_getSafePath root p :
  resolved root = true →
  startsWith (getRelativePath root (getSafePath root p)) "/" = true
  ∧ mem "\" (getRelativePath root (getSafePath root p)) = false
  ∧ (mem "\" p = false →
     getRelativePath root
       (getSafePath root (getRelativePath root (getSafePath root p)))
     = getRelativePath root (getSafePath root p)).
Proof.
  intros Hr. split; [apply (startsWith_app "/")|]. split.
  { unfold getRelativePath. rewrite mem_app, mem_replaceBackslash. done. }
  intros Hb.
  destruct (getSafePath_shape root p Hr) as (segs & j & X & Hp & Hs & Hst & Hsh & HX).
  assert (Forall (λ x, mem "\" x = false)
            (Path.relative_segments (Path.segments root) segs)) as Hnb.
  { unfold Path.relative_segments. apply Forall_app. split.
    - by apply Forall_replicate.
    - set (R := Path.segments root) in *.
      assert (length (take j R) ≤ Path.common R segs) as Hle.
      { rewrite Hsh. rewrite <- (take_drop j R) at 2.
        rewrite common_app. lia. }
      rewrite Hsh at 2. rewrite drop_app_ge by done. apply Forall_drop.
      apply mem_targetPath, mem_split in Hb.
      rewrite Forall_forall in Hb. eapply Forall_impl; [exact HX|].
      intros x Hx. by apply Hb. }
  assert (getRelativePath root (getSafePath root p)
          = "/" +:+ Str.join (Path.relative_segments (Path.segments root) segs)) as ->.
  { unfold getRelativePath. rewrite relative_eq, Hs.
    rewrite replaceBackslash_id; [done|]. by apply mem_join. }
  by apply getRelativePath_stable.
Qed.

Lemma C8_witness :
  startsWith (getRelativePath "/srv/data" (getSafePath "/srv/data" "docs/../a/")) "/" = true
  ∧ mem "\" (getRelativePath "/srv/data" (getSafePath "/srv/data" "docs/../a/")) = false
  ∧ (mem "\" "docs/../a/" = false →
     getRelativePath "/srv/data"
       (getSafePath "/srv/data"
          (getRelativePath "/srv/data" (getSafePath "/srv/data" "docs/../a/")))
     = getRelativePath "/srv/data" (getSafePath "/srv/data" "docs/../a/")).
Proof. apply (C8_getRelativePath_of_getSafePath "/srv/data" "docs/../a/"). reflexivity. Defined.

(** C8 fails as stated: on POSIX a backslash is an ordinary character of a
    file name, so [a\..\b] is one segment; its display path is [/a/../b],
    and resolving and rendering that again gives [/b]. *)
Lemma C8_counterexample :
  resolved "/srv/data" = true
  ∧ getRelativePath "/srv/data" (getSafePath "/srv/data" "a\..\b") = "/a/../b"
  ∧ getRelativePath "/srv/data"
      (getSafePath "/srv/data"
         (getRelativePath "/srv/data" (getSafePath "/srv/data" "a\..\b")))
    = "/b"
  ∧ getRelativePath "/srv/data"
      (getSafePath "/srv/data"
         (getRelativePath "/srv/data" (getSafePath "/srv/data" "a\..\b")))
    ≠ getRelativePath "/srv/data" (getSafePath "/srv/data" "a\..\b").
Proof. by vm_compute. Qed.

End Relativize.

(** ** Paths without [..] *)

Section Verbatim.
Import Str.





End Verbatim.

(** ** The write operation *)

Section HandlerLemmas.

Ltac run :=
  cbv beta iota zeta delta
    [bind ret throw try_catch call get_store put_store res_json res_send
     res_write res_headersSent fresh getSafePath_of path_join_of answered];
  cbn [store calls headersSent sent late fst snd].

Lemma not_client_error_nil {S C A : Type} (x : A) (w : world S C) :
  sent w = [] → ¬ client_error (x, w).
Proof. intros E (r & Hr & _). simpl in Hr. rewrite E in Hr. by apply elem_of_nil in Hr. Qed.

Lemma not_client_error_one {S C A : Type} (x : A) (w : world S C) r :
  sent w = [r] → status r ≠ 400%Z → ¬ client_error (x, w).
Proof.
  intros E Hs (r' & Hr & Hst). simpl in Hr. rewrite E in Hr.
  apply list_elem_of_singleton in Hr as ->. done.
Qed.

(** [fs.writeFile] either fails, leaving the tree as it was, or stores the
    text under the path; either way it is logged as one call and leaves
    the response alone *)
Lemma fs_writeFile_cases (p : string) (data : jsval) (t : tree)
    (cs : list fs_call) (hs : bool) (sn lt : list response) :
  (∃ e, fs_writeFile p data (World t cs hs sn lt)
        = (inl e, World t (cs ++ [FsWriteFile p data]) hs sn lt))
  ∨ (∃ text, data = JStr text
       ∧ Str.endsWithSlash p = false
       ∧ fs_writeFile p data (World t cs hs sn lt)
         = (inr tt, World (<[Path.segments p := File text]> t)
                      (cs ++ [FsWriteFile p data]) hs sn lt)).
Proof.
  unfold fs_writeFile.
  destruct data; run; try (left; eexists; reflexivity).
  destruct (has_nul p); [left; eexists; reflexivity|].
  destruct (too_long p); [left; eexists; reflexivity|]. run.
  destruct (t !! Path.segments p) as [[]|] eqn:E1; run;
    try (left; eexists; reflexivity).
  - destruct (Str.endsWithSlash p); run; [left; eexists; reflexivity|].
    right. eexists. repeat split; reflexivity.
  - destruct (Str.endsWithSlash p); run; [left; eexists; reflexivity|].
    destruct (Path.segments p) as [|x l] eqn:E2; run;
      [left; eexists; reflexivity|].
    destruct (t !! parent (x :: l)) as [[]|] eqn:E3; run;
      try (left; eexists; reflexivity).
    right. eexists. repeat split; reflexivity.
Qed.

Lemma fs_readFile_run (p : string) (t : tree) (cs : list fs_call) (hs : bool)
    (sn lt : list response) :
  fs_readFile p (World t cs hs sn lt)
  = (match t !! Path.segments p with
     | Some (File data) =>
         if Str.endsWithSlash p then inl (sys_error "ENOTDIR" "open" p)
         else inr data
     | Some Dir => inl (sys_error_fd "EISDIR" "read")
     | None => inl (sys_error "ENOENT" "open" p)
     end, World t (cs ++ [FsReadFile p]) hs sn lt).
Proof.
  unfold fs_readFile. run. destruct (t !! Path.segments p) as [[]|]; run;
    [destruct (Str.endsWithSlash p)|..]; reflexivity.
Qed.

Lemma save_file_guard (file_name data : jsval) :
  negb (truthy file_name) || bool_decide (data = JUndefined) = true
  ↔ truthy file_name = false ∨ data = JUndefined.
Proof.
  rewrite orb_true_iff, negb_true_iff, bool_decide_eq_true. done.
Qed.

Ltac no_client_error :=
  first [ apply not_client_error_nil; reflexivity
        | eapply not_client_error_one; [reflexivity|discriminate] ].

(** C7: [save-file] answers with the client error 400, before any call to
    the file system, exactly when the file name is missing (absent or
    empty) or the content is absent (in [api/server.js] and in the first
    variant); an empty content string with a file name is not refused and
    goes to [fs.writeFile]. *)
Theorem C7_save_file_client_error (root : string) (req : request) (t : tree) :
  let file_name := prop (body req) "file_name" in
  let data := prop (body req) "content" in
  ((truthy file_name = false ∨ data = JUndefined) →
     Vercel.save_file req (fresh t)
     = answered t []
         (Response 400 (Json [("success", JBool false);
                              ("message", JStr "Nama file dan konten diperlukan.")]))
     ∧ Local.save_file root req (fresh t)
       = answered t []
           (Response 400 (Json [("success", JBool false);
                                ("message", JStr "Nama file dan konten diperlukan.")])))
  ∧ (¬ (truthy file_name = false ∨ data = JUndefined) →
     ¬ client_error (Vercel.save_file req (fresh t))
     ∧ ¬ client_error (Local.save_file root req (fresh t)))
  ∧ (∀ name, name ≠ "" → file_name = JStr name → data = JStr "" →
     calls (Vercel.save_file req (fresh t)).2
     = [FsWriteFile (Path.join ["/tmp/"; name]) (JStr "")]
     ∧ ∀ dir, js_or (prop (body req) "directory") (JStr "./") = JStr dir →
         calls (Local.save_file root req (fresh t)).2
         = [FsWriteFile (Path.join [getSafePath root dir; name]) (JStr "")]).
Proof.
  intros file_name data. subst file_name data.
  unfold Vercel.save_file, Local.save_file. cbv zeta.
  generalize (prop (body req) "file_name") (prop (body req) "content")
    (prop (body req) "directory").
  intros file_name data directory. split; [|split].
  - intros H%save_file_guard. rewrite H. by run.
  - intros H. apply (not_iff_compat (save_file_guard file_name data)) in H.
    apply not_true_is_false in H. rewrite H. split.
    + destruct file_name as [| | | |name|]; run; try no_client_error.
      destruct (fs_writeFile_cases (Path.join ["/tmp/"; name]) data t []
                  false [] [])
        as [[e ->]|(text & _ & _ & ->)]; run; no_client_error.
    + destruct (js_or directory (JStr "./")) as [| | | |dir|];
        run; try no_client_error.
      destruct file_name as [| | | |name|]; run; try no_client_error.
      destruct (fs_writeFile_cases (Path.join [getSafePath root dir; name])
                  data t [] false [] [])
        as [[e ->]|(text & _ & _ & ->)]; run; no_client_error.
  - intros name Hn -> ->.
    assert (negb (truthy (JStr name)) || bool_decide (JStr "" = JUndefined)
            = false) as ->.
    { simpl. by rewrite bool_decide_eq_true_2. }
    split.
    + run.
      destruct (fs_writeFile_cases (Path.join ["/tmp/"; name]) (JStr "") t []
                  false [] [])
        as [[e ->]|(text & _ & _ & ->)]; run; reflexivity.
    + intros dir ->. run.
      destruct (fs_writeFile_cases (Path.join [getSafePath root dir; name])
                  (JStr "") t [] false [] [])
        as [[e ->]|(text & _ & _ & ->)]; run; reflexivity.
Qed.

Lemma C7_witness :
  Vercel.save_file notes_read (fresh tmp_only)
  = answered tmp_only []
      (Response 400 (Json [("success", JBool false);
                           ("message", JStr "Nama file dan konten diperlukan.")]))
  ∧ ¬ client_error (Vercel.save_file empty_save (fresh tmp_only))
  ∧ calls (Vercel.save_file empty_save (fresh tmp_only)).2
    = [FsWriteFile (Path.join ["/tmp/"; "empty.txt"]) (JStr "")].
Proof.
  pose proof (C7_save_file_client_error "/srv/data" notes_read tmp_only) as H.
  cbv zeta in H. destruct H as (H & _ & _).
  pose proof (C7_save_file_client_error "/srv/data" empty_save tmp_only) as H'.
  cbv zeta in H'. destruct H' as (_ & H2 & H3).
  split; [|split].
  - apply H. left. vm_compute. reflexivity.
  - apply H2. intros [E|E]; vm_compute in E; discriminate E.
  - apply (H3 "empty.txt"); [discriminate|vm_compute; reflexivity..].
Defined.

(** ** The delete operation *)

Lemma fs_stat_run (p : string) (t : tree) (cs : list fs_call) (hs : bool)
    (sn lt : list response) :
  fs_stat p (World t cs hs sn lt)
  = (match t !! Path.segments p with
     | Some Dir => inr true
     | Some (File _) =>
         if Str.endsWithSlash p then inl (sys_error "ENOTDIR" "stat" p)
         else inr false
     | None => inl (sys_error "ENOENT" "stat" p)
     end, World t (cs ++ [FsStat p]) hs sn lt).
Proof.
  unfold fs_stat. run. destruct (t !! Path.segments p) as [[]|]; run;
    [destruct (Str.endsWithSlash p)|..]; reflexivity.
Qed.

Lemma fs_rm_run (p : string) (t : tree) (cs : list fs_call) (hs : bool)
    (sn lt : list response) :
  fs_rm p (World t cs hs sn lt)
  = (inr tt,
     World (filter (λ kv, ¬ (Path.segments p `prefix_of` kv.1)) t)
       (cs ++ [FsRm p]) hs sn lt).
Proof. reflexivity. Qed.

Lemma fs_unlink_run (p : string) (t : tree) (cs : list fs_call) (hs : bool)
    (sn lt : list response) :
  fs_unlink p (World t cs hs sn lt)
  = match t !! Path.segments p with
    | Some (File _) =>
        if Str.endsWithSlash p
        then (inl (sys_error "ENOTDIR" "unlink" p),
              World t (cs ++ [FsUnlink p]) hs sn lt)
        else (inr tt, World (base.delete (Path.segments p) t)
                        (cs ++ [FsUnlink p]) hs sn lt)
    | Some Dir => (inl (sys_error "EISDIR" "unlink" p),
                   World t (cs ++ [FsUnlink p]) hs sn lt)
    | None => (inl (sys_error "ENOENT" "unlink" p),
               World t (cs ++ [FsUnlink p]) hs sn lt)
    end.
Proof.
  unfold fs_unlink. run. destruct (t !! Path.segments p) as [[]|]; run;
    [destruct (Str.endsWithSlash p)|..]; reflexivity.
Qed.

(** after the recursive removal nothing is left at or below the path, and
    everything else is as before *)
Lemma rm_lookup (k q : list string) (t : tree) :
  filter (λ kv : list string * node, ¬ (k `prefix_of` kv.1)) t !! q
  = if decide (k `prefix_of` q) then None else t !! q.
Proof.
  rewrite map_lookup_filter. destruct (t !! q) as [x|]; simpl.
  - destruct (decide (k `prefix_of` q)).
    + by rewrite option_guard_False by (simpl; tauto).
    + by rewrite option_guard_True.
  - by destruct (decide (k `prefix_of` q)).
Qed.

(** the [try] block of [DELETE /api/delete], whatever the [catch] block
    puts into its 500 answer *)
Lemma delete_try (delPath file : string) (t : tree)
    (F : js_error → list (string * jsval)) :
  try_catch
    (do isDirectory <- fs_stat delPath;
     if isDirectory
     then fs_rm delPath ;;;
          res_json 200
            [("success", JBool true);
             ("message", JStr ("Folder '" +:+ file +:+ "' berhasil dihapus."))]
     else fs_unlink delPath ;;;
          res_json 200
            [("success", JBool true);
             ("message", JStr ("File '" +:+ file +:+ "' berhasil dihapus."))])
    (λ error, res_json 500 (F error)) (fresh t)
  = match t !! Path.segments delPath with
    | Some Dir =>
        answered
          (filter (λ kv, ¬ (Path.segments delPath `prefix_of` kv.1)) t)
          [FsStat delPath; FsRm delPath]
          (Response 200
             (Json [("success", JBool true);
                    ("message",
                     JStr ("Folder '" +:+ file +:+ "' berhasil dihapus."))]))
    | Some (File _) =>
        if Str.endsWithSlash delPath
        then answered t [FsStat delPath]
               (Response 500 (Json (F (sys_error "ENOTDIR" "stat" delPath))))
        else answered (base.delete (Path.segments delPath) t)
               [FsStat delPath; FsUnlink delPath]
               (Response 200
                  (Json [("success", JBool true);
                         ("message",
                          JStr ("File '" +:+ file
                                +:+ "' berhasil dihapus."))]))
    | None =>
        answered t [FsStat delPath]
          (Response 500 (Json (F (sys_error "ENOENT" "stat" delPath))))
    end.
Proof.
  run. rewrite fs_stat_run.
  destruct (t !! Path.segments delPath) as [[data|]|] eqn:E; run.
  - destruct (Str.endsWithSlash delPath) eqn:Et; run; [reflexivity|].
    rewrite fs_unlink_run, E, Et. by run.
  - rewrite fs_rm_run. by run.
  - reflexivity.
Qed.



(** ** Writing, then reading *)

(** the [try] block of [save-file] followed by the one of [file-content]
    on the same path *)
Lemma save_try_success (p : string) (C : string) (t t' : tree)
    (cs : list fs_call) (r : response) (ok : list (string * jsval))
    (F : js_error → list (string * jsval)) :
  try_catch (fs_writeFile p (JStr C) ;;; res_json 200 ok)
    (λ error, res_json 500 (F error)) (fresh t)
  = answered t' cs r →
  status r = 200%Z →
  t' = <[Path.segments p := File C]> t ∧ Str.endsWithSlash p = false.
Proof.
  run. destruct (fs_writeFile_cases p (JStr C) t [] false [] [])
    as [[e ->]|(text & [= <-] & Hs & ->)]; run.
  - intros [= <- <- <-]. done.
  - by intros [= <- <- <-].
Qed.

Lemma read_try_written (p : string) (C : string) (t : tree)
    (F : js_error → list (string * jsval)) :
  Str.endsWithSlash p = false →
  try_catch
    (do data <- fs_readFile p;
     res_json 200 [("success", JBool true); ("content", JStr data)])
    (λ error, res_json 500 (F error))
    (fresh (<[Path.segments p := File C]> t))
  = answered (<[Path.segments p := File C]> t) [FsReadFile p]
      (Response 200 (Json [("success", JBool true); ("content", JStr C)])).
Proof.
  intros Hs. run. rewrite fs_readFile_run, lookup_insert_eq, Hs. by run.
Qed.

(** C2 (amended): a save answered with success, followed by a read of the
    same file name, returns the saved content when both handlers address
    the same path: in the first variant, whenever the two requests name
    the same directory; in [api/server.js], where the save goes to
    [/tmp] and the read below the root, whenever the path read is the
    path written. *)
Theorem C2_save_then_read (root : string) (save read : request)
    (t t' : tree) (F C : string) (cs : list fs_call) (r : response) :
  prop (body save) "file_name" = JStr F →
  prop (body save) "content" = JStr C →
  prop (query read) "file" = JStr F →
  status r = 200%Z →
  (Local.save_file root save (fresh t) = answered t' cs r →
   js_or (prop (query read) "directory") (JStr "./")
   = js_or (prop (body save) "directory") (JStr "./") →
   ∃ p, Local.file_content root read (fresh t')
        = answered t' [FsReadFile p]
            (Response 200
               (Json [("success", JBool true); ("content", JStr C)])))
  ∧ (Vercel.save_file save (fresh t) = answered t' cs r →
     ∀ dir,
       js_or (prop (query read) "directory") (JStr "./") = JStr dir →
       Path.join [getSafePath root dir; F] = Path.join ["/tmp/"; F] →
       Vercel.file_content root read (fresh t')
       = answered t' [FsReadFile (Path.join ["/tmp/"; F])]
           (Response 200
              (Json [("success", JBool true); ("content", JStr C)]))).
Proof.
  intros Hf Hc Hq Hr.
  split.
  - unfold Local.save_file, Local.file_content. cbv zeta.
    rewrite Hf, Hc, Hq. intros Hs ->.
    destruct (truthy (JStr F)) eqn:Ht.
    2:{ revert Hs. run. intros [= <- <- <-]. done. }
    revert Hs. cbn [negb orb]. rewrite bool_decide_eq_false_2 by done.
    destruct (js_or (prop (body save) "directory") (JStr "./"))
      as [| | | |dir|]; try (run; discriminate).
    intros Hs.
    apply save_try_success in Hs as [-> Hs]; [|done].
    eexists. by apply read_try_written.
  - unfold Vercel.save_file, Vercel.file_content. cbv zeta.
    rewrite Hf, Hc, Hq. intros Hs dir -> Hp.
    destruct (truthy (JStr F)) eqn:Ht.
    2:{ revert Hs. run. intros [= <- <- <-]. done. }
    revert Hs. cbn [negb orb]. rewrite bool_decide_eq_false_2 by done.
    intros Hs.
    apply save_try_success in Hs as [-> Hs]; [|done].
    rewrite <- Hp in *. by apply read_try_written.
Qed.

Lemma C2_witness :
  Vercel.file_content "/tmp" notes_read
    (fresh (<[Path.segments (Path.join ["/tmp/"; "notes.txt"]) := File "hello"]>
              tmp_only))
  = answered
      (<[Path.segments (Path.join ["/tmp/"; "notes.txt"]) := File "hello"]>
         tmp_only)
      [FsReadFile (Path.join ["/tmp/"; "notes.txt"])]
      (Response 200 (Json [("success", JBool true); ("content", JStr "hello")])).
Proof.
  refine (proj2 (C2_save_then_read "/tmp" notes_save notes_read tmp_only
                   (<[Path.segments (Path.join ["/tmp/"; "notes.txt"])
                      := File "hello"]> tmp_only)
                   "notes.txt" "hello"
                   [FsWriteFile (Path.join ["/tmp/"; "notes.txt"]) (JStr "hello")]
                   (Response 200
                      (Json [("success", JBool true);
                             ("message",
                              JStr "File berhasil disimpan (sementara di /tmp).")]))
                   eq_refl eq_refl eq_refl eq_refl) _ "./" eq_refl eq_refl).
  reflexivity.
Defined.

(** C2 fails as stated in [api/server.js]: deployed at [/var/task], the
    save of [notes.txt] succeeds and creates [/tmp/notes.txt]; the read of
    [notes.txt] then looks for [/var/task/notes.txt] and answers 500. *)
Lemma C2_counterexample :
  (Vercel.save_file notes_save (fresh deployed)).1 = inr tt
  ∧ sent (Vercel.save_file notes_save (fresh deployed)).2
    = [Response 200
         (Json [("success", JBool true);
                ("message",
                 JStr "File berhasil disimpan (sementara di /tmp).")])]
  ∧ store (Vercel.save_file notes_save (fresh deployed)).2
      !! ["tmp"; "notes.txt"] = Some (File "hello")
  ∧ sent (Vercel.file_content "/var/task" notes_read
            (fresh (store (Vercel.save_file notes_save (fresh deployed)).2))).2
    = [Response 500
         (Json (Vercel.server_error
                  "[SERVER ERROR] Gagal membaca file. Cek log Vercel."
                  (sys_error "ENOENT" "open" "/var/task/notes.txt")))]
  ∧ sent (Vercel.file_content "/var/task" notes_read
            (fresh (store (Vercel.save_file notes_save (fresh deployed)).2))).2
    ≠ [Response 200 (Json [("success", JBool true);
                           ("content", JStr "hello")])].
Proof.
  split; [vm_compute; reflexivity|]. split; [vm_compute; reflexivity|].
  split; [vm_compute; reflexivity|]. split; [vm_compute; reflexivity|].
  vm_compute. discriminate.
Qed.

(** ** Downloads *)

(** C6: in [api/server.js] the download callback writes its 500 answer
    only while no headers have been sent: whatever the request, the tree
    and the fate of the transfer, no write is attempted after the headers
    (nothing is late), a 500 answer is the only response of its run, and a
    transfer that breaks after the headers leaves just the begun download
    (of a file that is there and that [send] does not turn down).
    The first variant lacks the test: for [a.txt] in [/srv/data], a
    transfer that breaks part-way makes its callback write a 500 answer
    after the headers, which throws. *)
Theorem C6_download_error_after_headers :
  (∀ (req : request) (t : tree) (net : transfer),
     late (Vercel.download req net (fresh t)).2 = []
     ∧ (∀ r, r ∈ sent (Vercel.download req net (fresh t)).2 →
             status r = 500%Z →
             sent (Vercel.download req net (fresh t)).2 = [r])
     ∧ (∀ file data e,
          prop (query req) "file" = JStr file → file ≠ "" →
          t !! Path.segments (Path.join ["/tmp/"; file]) = Some (File data) →
          Str.endsWithSlash (Path.join ["/tmp/"; file]) = false →
          send_refuses (Path.join ["/tmp/"; file]) = None →
          net = Breaks e →
          Vercel.download req net (fresh t)
          = answered t [FsSendFile (Path.join ["/tmp/"; file])]
              (Response 200 (Attachment (Path.join ["/tmp/"; file]) file))))
  ∧ (Local.download "/srv/data" a_download (Breaks ECONNABORTED)
       (fresh with_a_txt)).1
    = inl ERR_HTTP_HEADERS_SENT
  ∧ sent (Local.download "/srv/data" a_download (Breaks ECONNABORTED)
            (fresh with_a_txt)).2
    = [Response 200 (Attachment "/srv/data/a.txt" "a.txt")]
  ∧ late (Local.download "/srv/data" a_download (Breaks ECONNABORTED)
            (fresh with_a_txt)).2
    = [Response 500 (Text "Gagal mengunduh file.")].
Proof.
  split; [|split; [|split]]; [|vm_compute; reflexivity..].
  intros req t net. unfold Vercel.download. cbv zeta.
  generalize (prop (query req) "file"). intros fileName.
  split; [|split].
  - destruct (truthy fileName); cbn [negb]; [|by run].
    destruct fileName as [| | | |file|]; run; try done.
    unfold res_download. run.
    destruct (send_refuses (Path.join ["/tmp/"; file])); run; [done|].
    destruct (t !! Path.segments (Path.join ["/tmp/"; file])) as [[data|]|];
      run; try done.
    destruct (Str.endsWithSlash (Path.join ["/tmp/"; file])); run; [done|].
    destruct net; by run.
  - destruct (truthy fileName); cbn [negb].
    2:{ run. intros r Hr _. by apply list_elem_of_singleton in Hr as ->. }
    destruct fileName as [| | | |file|]; run;
      try (intros r Hr; by apply elem_of_nil in Hr).
    unfold res_download. run.
    destruct (send_refuses (Path.join ["/tmp/"; file])); run;
      [intros r Hr _; by apply list_elem_of_singleton in Hr as ->|].
    destruct (t !! Path.segments (Path.join ["/tmp/"; file])) as [[data|]|];
      run; try (intros r Hr _; by apply list_elem_of_singleton in Hr as ->).
    destruct (Str.endsWithSlash (Path.join ["/tmp/"; file])); run;
      [intros r Hr _; by apply list_elem_of_singleton in Hr as ->|].
    destruct net; run;
      intros r Hr _; by apply list_elem_of_singleton in Hr as ->.
  - intros file data e -> Hne Hl Hs Hok ->.
    cbn [truthy]. rewrite (bool_decide_eq_true_2 _ Hne). cbn [negb].
    unfold res_download.
    run. rewrite Hok. run. rewrite Hl, Hs. by run.
Qed.

Lemma C6_witness :
  Vercel.download a_download (Breaks ECONNABORTED) (fresh tmp_with_a_txt)
  = answered tmp_with_a_txt [FsSendFile (Path.join ["/tmp/"; "a.txt"])]
      (Response 200 (Attachment (Path.join ["/tmp/"; "a.txt"]) "a.txt")).
Proof.
  destruct C6_download_error_after_headers as [H _].
  destruct (H a_download tmp_with_a_txt (Breaks ECONNABORTED)) as (_ & _ & H').
  apply (H' "a.txt" "0123456789" ECONNABORTED);
    [reflexivity|discriminate|reflexivity|reflexivity|reflexivity|reflexivity].
Defined.

End HandlerLemmas.

(** ** The fingerprint protocol of the remote variant *)

Section Fingerprint.

Context {Repo : Type}.
Variable octokit : gh_request → Repo → (js_error + gh_data) * Repo.
Variable base64_encode base64_decode : string → string.
Variables OWNER REPO : string.

Ltac run :=
  cbv beta iota zeta delta
    [bind ret throw try_catch call res_json res_send res_write fresh answered
     GitHub.octokit_request GitHub.encode GitHub.decode];
  cbn [store calls headersSent sent late fst snd truthy negb orb andb].






End Fingerprint.




(** * Further properties of the code *)

(** ** The resolver: what it returns *)

Section ResolverShape.
Import Str.

Lemma split_app (x y : string) :
  ∃ init l e T,
    split x = init ++ [l] ∧ split y = e :: T
    ∧ split (x +:+ y) = init ++ [l +:+ e] ++ T.
Proof.
  induction x as [|c x (init & l & e & T & Hx & Hy & Hxy)].
  - pose proof (split_not_nil y). destruct (split y) as [|e T] eqn:E; [done|].
    exists [], "", e, T. by rewrite str_app_nil_l, E.
  - rewrite str_app_cons. cbn [split]. rewrite Hx, Hxy.
    destruct (Ascii.eqb c "/").
    + by exists ("" :: init), l, e, T.
    + destruct init as [|i I].
      * by exists [], (String c l), e, T.
      * by exists (String c i :: I), l, e, T.
Qed.

(** a string prefix between two normalized paths, read on their segments:
    the shorter path is an ancestor, or differs only by a longer name in
    its last segment *)
Lemma startsWith_render_segments (R S : list string) :
  Forall Path.plain R → Forall Path.plain S →
  startsWith (Path.render S) (Path.render R) = true →
  R `prefix_of` S
  ∨ ∃ parent name ext rest,
      ext ≠ "" ∧ R = parent ++ [name] ∧ S = parent ++ [name +:+ ext] ++ rest.
Proof.
  intros HR HS H.
  destruct R as [|r R']; [left; apply prefix_nil|].
  assert (startsWith (Str.join S) (Str.join (r :: R')) = true) as H'.
  { unfold Path.render in H. change ("/" +:+ ?a) with (String "/" a) in H.
    cbn [startsWith] in H. by apply andb_true_iff in H as [_ ?]. }
  apply startsWith_spec in H' as [tail Ht].
  destruct S as [|s S'].
  { symmetry in Ht. apply str_app_eq_nil in Ht as [Ht _].
    by apply plain_join_not_nil in Ht. }
  destruct (split_app (Str.join (r :: R')) tail)
    as (init & l & e & T & Hx & Hy & Hxy).
  rewrite <- Ht in Hxy.
  rewrite split_join in Hx, Hxy by (done || by apply plain_slashfree).
  destruct (decide (e = "")) as [->|He].
  - left. rewrite str_app_nil_r in Hxy. exists T.
    by rewrite Hxy, Hx, <- app_assoc.
  - right. by exists init, l, e, T.
Qed.

(** X1: for a resolved root, whatever the user path, the path
    [getSafePath] returns is absolute and already normalized: normalizing
    it again changes nothing, so none of its segments is empty, [.] or
    [..]. *)
Theorem X1_getSafePath_normalized (root userPath : string) :
  resolved root = true →
  startsWith (getSafePath root userPath) "/" = true
  ∧ Path.normalize (getSafePath root userPath) = getSafePath root userPath.
Proof.
  intros Hr. pose proof (segments_plain root) as HR.
  rewrite getSafePath_unfold, join_root by done.
  destruct (startsWith (Path.render_dir _ _) root) eqn:E.
  2:{ split; [by apply resolved_absolute|by apply normalize_resolved]. }
  set (S := Path.walk (Path.segments root) (split (targetPath userPath))).
  assert (Forall Path.plain S) as HS
    by (apply walk_plain; [done|apply split_slashfree]).
  assert (startsWith (Path.render_dir S (endsWithSlash (targetPath userPath)))
            "/" = true) as Ha.
  { unfold Path.render_dir. destruct S; [done|]. apply (startsWith_app "/"). }
  split; [done|]. rewrite normalize_abs, segments_render_dir by done.
  destruct S as [|s S'] eqn:ES; [done|].
  destruct (endsWithSlash (targetPath userPath)).
  - f_equal. unfold Path.render_dir. rewrite <- str_app_assoc.
    by rewrite endsWithSlash_app.
  - f_equal. rewrite render_dir_false. by apply endsWithSlash_render.
Qed.

Lemma X1_witness :
  startsWith (getSafePath "/srv/data" "a/./b/../c//") "/" = true
  ∧ Path.normalize (getSafePath "/srv/data" "a/./b/../c//")
    = getSafePath "/srv/data" "a/./b/../c//".
Proof. apply (X1_getSafePath_normalized "/srv/data"). reflexivity. Defined.

(** X2: how far the string-prefix test confines.  For a resolved root the
    path [getSafePath] returns lies in the root directory, or else in a
    sibling of the root whose name begins with the root's own name; no
    other place can be returned. *)
Theorem X2_getSafePath_confinement (root userPath : string) :
  resolved root = true →
  inside root (getSafePath root userPath)
  ∨ ∃ parent name ext rest,
      ext ≠ ""
      ∧ Path.segments root = parent ++ [name]
      ∧ Path.segments (getSafePath root userPath)
        = parent ++ [name +:+ ext] ++ rest.
Proof.
  intros Hr.
  destruct (getSafePath_shape root userPath Hr)
    as (segs & j & X & Hp & Hs & Hst & _ & _).
  unfold inside. rewrite Hs. rewrite (resolved_render root Hr) in Hst.
  apply startsWith_render_segments; [apply segments_plain|done..].
Qed.

Lemma X2_witness :
  inside "/srv/data" (getSafePath "/srv/data" "../data2/x")
  ∨ ∃ parent name ext rest,
      ext ≠ ""
      ∧ Path.segments "/srv/data" = parent ++ [name]
      ∧ Path.segments (getSafePath "/srv/data" "../data2/x")
        = parent ++ [name +:+ ext] ++ rest.
Proof. apply (X2_getSafePath_confinement "/srv/data"). reflexivity. Defined.

(** X3: climbing fails closed.  When following the user path from a
    resolved root ends at a proper ancestor of the root, [getSafePath]
    returns the root itself. *)
Theorem X3_getSafePath_ancestor (root userPath : string) (k : nat) :
  resolved root = true →
  k < length (Path.segments root) →
  Path.walk (Path.segments root) (split (targetPath userPath))
  = take k (Path.segments root) →
  getSafePath root userPath = root.
Proof.
  intros Hr Hk Hw. pose proof (segments_plain root) as HR.
  apply getSafePath_fail_closed. rewrite join_root, Hw by done.
  destruct (startsWith (Path.render_dir _ _) root) eqn:E; [exfalso|done].
  assert (Forall Path.plain (take k (Path.segments root))) as Hp
    by by apply Forall_take.
  apply startsWith_render_of_dir in E; [|done..].
  pose proof (resolved_render root Hr) as Hroot.
  set (R := Path.segments root) in *. rewrite Hroot in E.
  apply startsWith_render_segments in E as [[T E]|(pa & na & ext & T & _ & E1 & E2)];
    [| |done..].
  - apply (f_equal length) in E. rewrite length_app, length_take in E. lia.
  - apply (f_equal length) in E1. apply (f_equal length) in E2.
    rewrite !length_app, length_take in *. simpl in *. lia.
Qed.

Lemma X3_witness : getSafePath "/srv/data" "docs/../../.." = "/srv/data".
Proof.
  apply (X3_getSafePath_ancestor "/srv/data" "docs/../../.." 0);
    [reflexivity|vm_compute; lia|reflexivity].
Defined.

End ResolverShape.

(** ** The resolver: display paths sent back *)

Section ResolverRoundTrip.
Import Str.

Lemma relative_segments_nil (R segs : list string) :
  Path.relative_segments R segs = [] → segs = R.
Proof.
  unfold Path.relative_segments. intros [H1 H2]%app_eq_nil.
  apply (f_equal length) in H1, H2.
  rewrite length_replicate in H1. rewrite length_drop in H2. simpl in *.
  pose proof (common_le_l R segs). pose proof (common_le_r R segs).
  pose proof (common_take R segs) as Ht.
  rewrite !take_ge in Ht by lia. done.
Qed.

Lemma getSafePath_relative (root : string) (segs : list string) :
  resolved root = true → Forall Path.plain segs →
  startsWith (Path.render segs) root = true →
  Path.relative_segments (Path.segments root) segs ≠ [] →
  getSafePath root
    ("/" +:+ Str.join (Path.relative_segments (Path.segments root) segs))
  = Path.render segs.
Proof.
  intros Hr Hp Hst Hne. pose proof (segments_plain root) as HR.
  set (R := Path.segments root) in *.
  assert (Forall Path.plain (drop (Path.common R segs) segs)) as Hd
    by by apply Forall_drop.
  assert (Forall (λ x, x ≠ "" ∧ mem "/" x = false)
            (Path.relative_segments R segs)) as Hok.
  { unfold Path.relative_segments. apply Forall_app. split.
    - by apply Forall_replicate.
    - by apply plain_weaken. }
  assert (Path.walk R (Path.relative_segments R segs) = segs) as Hw.
  { unfold Path.relative_segments. rewrite walk_app, walk_dotdots by done.
    rewrite walk_plain_segments by done.
    pose proof (common_le_l R segs).
    replace (length R - (length R - Path.common R segs))
      with (Path.common R segs) by lia.
    by rewrite common_take, take_drop. }
  rewrite getSafePath_unfold, targetPath_slash, join_root by done. fold R.
  rewrite split_join; [|done|].
  2:{ eapply Forall_impl; [exact Hok|]. by intros ? [_ ?]. }
  by rewrite Hw, endsWithSlash_join, render_dir_false, Hst.
Qed.

(** X4: the display path addresses what was resolved.  For a resolved
    root and a user path without backslash, resolving the display path of
    a resolved path leads to the same place: the same segments, hence the
    same file or directory. *)
Theorem X4_display_path_round_trip (root p : string) :
  resolved root = true →
  mem "\" p = false →
  Path.segments (getSafePath root (getRelativePath root (getSafePath root p)))
  = Path.segments (getSafePath root p).
Proof.
  intros Hr Hb.
  destruct (getSafePath_shape root p Hr)
    as (segs & j & X & Hp & Hs & Hst & Hsh & HX).
  assert (Forall (λ x, mem "\" x = false)
            (Path.relative_segments (Path.segments root) segs)) as Hnb.
  { unfold Path.relative_segments. apply Forall_app. split.
    - by apply Forall_replicate.
    - set (R := Path.segments root) in *.
      assert (length (take j R) ≤ Path.common R segs) as Hle.
      { rewrite Hsh. rewrite <- (take_drop j R) at 2.
        rewrite common_app. lia. }
      rewrite Hsh at 2. rewrite drop_app_ge by done. apply Forall_drop.
      apply mem_targetPath, mem_split in Hb.
      rewrite Forall_forall in Hb. eapply Forall_impl; [exact HX|].
      intros x Hx. by apply Hb. }
  assert (getRelativePath root (getSafePath root p)
          = "/" +:+ Str.join (Path.relative_segments (Path.segments root) segs))
    as ->.
  { unfold getRelativePath. rewrite relative_eq, Hs.
    rewrite replaceBackslash_id; [done|]. by apply mem_join. }
  rewrite Hs.
  destruct (decide (Path.relative_segments (Path.segments root) segs = []))
    as [E|E].
  - rewrite E. change (Str.join []) with "". rewrite str_app_nil_r.
    destruct (getSafePath_empty_or_slash root Hr) as [_ ->].
    symmetry. by apply relative_segments_nil.
  - rewrite getSafePath_relative by done. by apply segments_render.
Qed.

Lemma X4_witness :
  Path.segments
    (getSafePath "/srv/data"
       (getRelativePath "/srv/data" (getSafePath "/srv/data" "docs//a/../b/")))
  = Path.segments (getSafePath "/srv/data" "docs//a/../b/").
Proof.
  apply (X4_display_path_round_trip "/srv/data" "docs//a/../b/"); reflexivity.
Defined.

End ResolverRoundTrip.

(** ** Joining a name onto a directory *)

Section JoinName.
Import Str.

Lemma join_absolute (dir t : string) :
  startsWith dir "/" = true → t ≠ "" →
  Path.join [dir; t]
  = Path.render_dir (Path.walk (Path.segments dir) (split t)) (endsWithSlash t).
Proof.
  intros Ha Ht. assert (dir ≠ "") as Hd by (by destruct dir).
  unfold Path.join. rewrite !filter_cons, !decide_True, filter_nil by done.
  change (Str.join [dir; t]) with (dir +:+ String "/" t).
  rewrite normalize_abs.
  - rewrite segments_app_slash.
    change (String "/" t) with ("/" +:+ t). rewrite <- str_app_assoc.
    by rewrite endsWithSlash_app.
  - apply startsWith_spec in Ha as [rest ->]. rewrite str_app_assoc.
    apply startsWith_app.
Qed.

(** a plain name joined onto an absolute directory is that directory's
    entry of this name *)
Lemma join_name (dir name : string) :
  startsWith dir "/" = true → Path.plain name →
  Path.join [dir; name] = Path.render (Path.segments dir ++ [name])
  ∧ Path.segments (Path.join [dir; name]) = Path.segments dir ++ [name]
  ∧ endsWithSlash (Path.join [dir; name]) = false.
Proof.
  intros Ha Hp. pose proof Hp as (Hne & _ & _ & Hs).
  assert (Forall Path.plain (Path.segments dir ++ [name])) as Hall.
  { apply Forall_app. split; [apply segments_plain|by constructor]. }
  assert (Path.join [dir; name] = Path.render (Path.segments dir ++ [name]))
    as ->.
  { rewrite join_absolute by done.
    rewrite split_slashfree_id, walk_plain_segments by (done || by constructor).
    by rewrite endsWithSlash_slashfree, render_dir_false. }
  split; [done|]. split; [by apply segments_render|].
  apply endsWithSlash_render; [|done]. by destruct (Path.segments dir).
Qed.

End JoinName.

(** ** Listing a directory *)

Section Listing.

Ltac run :=
  cbv beta iota zeta delta
    [bind ret throw try_catch call get_store put_store res_json res_send
     res_write res_headersSent fresh getSafePath_of path_join_of answered];
  cbn [store calls headersSent sent late fst snd].

Lemma getSafePath_absolute (root userPath : string) :
  resolved root = true → Str.startsWith (getSafePath root userPath) "/" = true.
Proof.
  intros Hr. pose proof (resolved_absolute root Hr) as Ha.
  rewrite getSafePath_unfold.
  destruct (Str.startsWith (Path.join _) root) eqn:E; [|done].
  apply startsWith_spec in E as [rest ->].
  apply startsWith_spec in Ha as [rest' ->].
  rewrite str_app_assoc. apply startsWith_app.
Qed.

Lemma parent_snoc (k : list string) (n : string) : parent (k ++ [n]) = k.
Proof.
  unfold parent. rewrite length_app. simpl.
  replace (length k + 1 - 1) with (length k) by lia.
  by rewrite take_app_length.
Qed.

Lemma key_snoc (k : list string) :
  k ≠ [] → ∃ n, k = parent k ++ [n] ∧ last k = Some n.
Proof.
  destruct k as [|x k _] using rev_ind; [done|]. intros _. exists x.
  by rewrite parent_snoc, last_snoc.
Qed.

(** [readdir] answers with the names of the entries directly below *)
Lemma dir_entries_spec (k : list string) (t : tree) (n : string) :
  n ∈ dir_entries k t ↔ is_Some (t !! (k ++ [n])).
Proof.
  unfold dir_entries. rewrite list_elem_of_omap. split.
  - intros ([k' x] & Hin & Hf). apply elem_of_map_to_list in Hin.
    simpl in Hf. destruct (decide (k' ≠ [] ∧ parent k' = k)) as [[Hne <-]|];
      [|done].
    destruct (key_snoc k' Hne) as (n' & Hk & Hl).
    rewrite Hl in Hf. injection Hf as ->. rewrite <- Hk. by exists x.
  - intros [x Hx]. exists (k ++ [n], x). split.
    + by apply elem_of_map_to_list.
    + simpl. rewrite decide_True.
      * apply last_snoc.
      * split; [by destruct k|apply parent_snoc].
Qed.

Lemma fs_readdir_run (p : string) (t : tree) (cs : list fs_op) (hs : bool)
    (sn lt : list response) :
  fs_readdir p (World t cs hs sn lt)
  = (match t !! Path.segments p with
     | Some Dir => inr (dir_entries (Path.segments p) t)
     | Some (File _) => inl (sys_error "ENOTDIR" "scandir" p)
     | None => inl (sys_error "ENOENT" "scandir" p)
     end, World t (cs ++ [FsReaddir p]) hs sn lt).
Proof.
  unfold fs_readdir. run. by destruct (t !! Path.segments p) as [[]|].
Qed.

Lemma earlier_stat (p : string) (t : tree) (cs : list fs_op) (hs : bool)
    (sn lt : list response) :
  earlier (fs_stat p) (World t cs hs sn lt)
  = (match t !! Path.segments p with
     | Some Dir => inr true
     | Some (File _) =>
         if Str.endsWithSlash p then inl (sys_error "ENOTDIR" "stat" p)
         else inr false
     | None => inl (sys_error "ENOENT" "stat" p)
     end, World t (cs ++ [Earlier (FsStat p)]) hs sn lt).
Proof.
  unfold earlier. cbn [store calls headersSent sent late].
  by rewrite fs_stat_run.
Qed.

(** the loop of the listing over names that are entries of the directory *)
Lemma list_entries_run (safeDir : string) (t : tree) (names : list string)
    (acc : list entry) (cs : list fs_op) (hs : bool) (sn lt : list response) :
  Str.startsWith safeDir "/" = true →
  (∀ n, n ∈ names →
        Path.plain n ∧ is_Some (t !! (Path.segments safeDir ++ [n]))) →
  list_entries safeDir names acc (World t cs hs sn lt)
  = (inr (acc ++ ((λ n, Entry n (is_directory t (Path.segments safeDir ++ [n])))
                  <$> names)),
     World t
       (cs ++ ((λ n, Earlier (FsStat (Path.join [safeDir; n]))) <$> names))
       hs sn lt).
Proof.
  intros Ha. revert acc cs. induction names as [|n names IH]; intros acc cs Hn.
  - cbn [list_entries fmap list_fmap]. by rewrite !app_nil_r.
  - destruct (Hn n) as [Hp [x Hx]]; [apply list_elem_of_here|].
    destruct (join_name safeDir n Ha Hp) as (_ & Hk & Hs).
    pose proof Hp as (_ & H1 & H2 & _).
    cbn [list_entries]. rewrite decide_False by (by intros [?|?]).
    unfold bind at 1. rewrite earlier_stat, Hk, Hx, Hs.
    assert ((match x with
             | File _ => inr false
             | Dir => inr true
             end : js_error + bool)
            = inr (is_directory t (Path.segments safeDir ++ [n]))) as ->.
    { unfold is_directory. rewrite Hx. by destruct x. }
    rewrite IH.
    + cbn [fmap list_fmap]. by rewrite <- !app_assoc.
    + intros n' Hn'. apply Hn. by apply list_elem_of_further.
Qed.

(** the [try] block of [GET /api/files] on an existing directory *)
Lemma files_try (root safeDir : string) (t : tree)
    (F : js_error → list (string * jsval)) :
  Str.startsWith safeDir "/" = true → well_named t →
  t !! Path.segments safeDir = Some Dir →
  try_catch
    (do names <- fs_readdir safeDir;
     do fileList <- list_entries safeDir names [];
     res_json 200
       (("success", JBool true) :: files_fields fileList
        ++ [("relativeDir", JStr (getRelativePath root safeDir))]))
    (λ error, res_json 500 (F error)) (fresh t)
  = answered t
      (FsReaddir safeDir
       :: ((λ n, Earlier (FsStat (Path.join [safeDir; n])))
           <$> dir_entries (Path.segments safeDir) t))
      (Response 200
         (Json (("success", JBool true)
                :: files_fields
                     ((λ n, Entry n (is_directory t (Path.segments safeDir ++ [n])))
                      <$> dir_entries (Path.segments safeDir) t)
                ++ [("relativeDir", JStr (getRelativePath root safeDir))]))).
Proof.
  intros Ha Hw Hd. run. rewrite fs_readdir_run, Hd.
  rewrite list_entries_run; [done..|].
  intros n [x Hx]%dir_entries_spec. split; [|by exists x].
  apply Hw in Hx. apply Forall_app in Hx as [_ Hx]. by inversion Hx.
Qed.

(** X5: listing an existing directory ([GET /api/files], in
    [api/server.js] and in the first variant alike).  For a resolved root
    and a well-named tree, when the resolved directory exists the handler
    answers 200 and leaves the tree as it is; the list it sends holds
    exactly the entries directly below the directory, each with its kind,
    and the display path of the directory. *)
Theorem X5_files_lists_children (root d : string) (req : request) (t : tree) :
  resolved root = true →
  well_named t →
  js_or (prop (query req) "directory") (JStr "./") = JStr d →
  t !! Path.segments (getSafePath root d) = Some Dir →
  ∃ fileList ops,
    LocalTree.files root req (fresh t)
    = answered t ops
        (Response 200
           (Json (("success", JBool true) :: files_fields fileList
                  ++ [("relativeDir",
                       JStr (getRelativePath root (getSafePath root d)))])))
    ∧ VercelTree.files root req (fresh t)
      = answered t ops
          (Response 200
             (Json (("success", JBool true) :: files_fields fileList
                    ++ [("relativeDir",
                         JStr (getRelativePath root (getSafePath root d)))])))
    ∧ ∀ n b,
        Entry n b ∈ fileList
        ↔ ∃ x, t !! (Path.segments (getSafePath root d) ++ [n]) = Some x
               ∧ b = match x with Dir => true | File _ => false end.
Proof.
  intros Hr Hw Hd Hdir.
  pose proof (getSafePath_absolute root d Hr) as Ha.
  eexists _, _. split; [|split].
  - unfold LocalTree.files. cbv zeta. rewrite Hd.
    apply (files_try root _ t _ Ha Hw Hdir).
  - unfold VercelTree.files. cbv zeta. rewrite Hd.
    apply (files_try root _ t _ Ha Hw Hdir).
  - intros n b. rewrite list_elem_of_fmap. split.
    + intros (n' & [= -> ->] & [x Hx]%dir_entries_spec). exists x.
      split; [done|]. unfold is_directory. rewrite Hx. by destruct x.
    + intros (x & Hx & ->). exists n. split.
      * unfold is_directory. rewrite Hx. by destruct x.
      * apply dir_entries_spec. by exists x.
Qed.

End Listing.

Section ListingMore.

Ltac run :=
  cbv beta iota zeta delta
    [bind ret throw try_catch call get_store put_store res_json res_send
     res_write res_headersSent fresh getSafePath_of path_join_of answered];
  cbn [store calls headersSent sent late fst snd].

Lemma well_named_with_docs : well_named with_docs.
Proof. apply (bool_decide_unpack _). vm_compute. exact I. Qed.

Lemma X5_witness :
  ∃ fileList ops,
    LocalTree.files "/srv/data" docs_listing (fresh with_docs)
    = answered with_docs ops
        (Response 200
           (Json (("success", JBool true) :: files_fields fileList
                  ++ [("relativeDir",
                       JStr (getRelativePath "/srv/data"
                               (getSafePath "/srv/data" "docs")))])))
    ∧ VercelTree.files "/srv/data" docs_listing (fresh with_docs)
      = answered with_docs ops
          (Response 200
             (Json (("success", JBool true) :: files_fields fileList
                    ++ [("relativeDir",
                         JStr (getRelativePath "/srv/data"
                                 (getSafePath "/srv/data" "docs")))])))
    ∧ ∀ n b,
        Entry n b ∈ fileList
        ↔ ∃ x, with_docs !! (Path.segments (getSafePath "/srv/data" "docs")
                              ++ [n]) = Some x
               ∧ b = match x with Dir => true | File _ => false end.
Proof.
  apply (X5_files_lists_children "/srv/data" "docs" docs_listing with_docs);
    [reflexivity|apply well_named_with_docs|reflexivity|reflexivity].
Defined.

(** the [try] block of [GET /api/files] when [readdir] fails *)
Lemma files_try_fails (root safeDir : string) (t : tree)
    (F : js_error → list (string * jsval)) :
  t !! Path.segments safeDir ≠ Some Dir →
  ∃ e,
    try_catch
      (do names <- fs_readdir safeDir;
       do fileList <- list_entries safeDir names [];
       res_json 200
         (("success", JBool true) :: files_fields fileList
          ++ [("relativeDir", JStr (getRelativePath root safeDir))]))
      (λ error, res_json 500 (F error)) (fresh t)
    = answered t [FsReaddir safeDir] (Response 500 (Json (F e))).
Proof.
  intros Hd. run. rewrite fs_readdir_run.
  destruct (t !! Path.segments safeDir) as [[]|]; [|done|]; by eexists.
Qed.

(** X6: listing what is not a directory.  When the resolved directory is
    missing or is a file, both listing handlers make the one [readdir]
    call, answer 500 with [success: false], keep the tree and throw
    nothing. *)
Theorem X6_files_not_a_directory (root d : string) (req : request) (t : tree) :
  js_or (prop (query req) "directory") (JStr "./") = JStr d →
  t !! Path.segments (getSafePath root d) ≠ Some Dir →
  (∃ fields,
     LocalTree.files root req (fresh t)
     = answered t [FsReaddir (getSafePath root d)] (Response 500 (Json fields))
     ∧ ("success", JBool false) ∈ fields)
  ∧ (∃ fields,
       VercelTree.files root req (fresh t)
       = answered t [FsReaddir (getSafePath root d)]
           (Response 500 (Json fields))
       ∧ ("success", JBool false) ∈ fields).
Proof.
  intros Hd Hdir. split.
  - destruct (files_try_fails root _ t
                (λ error, [("success", JBool false);
                           ("message", JStr "Gagal membaca direktori.");
                           ("error", JStr (e_message error))]) Hdir) as [e He].
    eexists. split.
    + unfold LocalTree.files. cbv zeta. rewrite Hd. exact He.
    + apply list_elem_of_here.
  - destruct (files_try_fails root _ t
                (Vercel.server_error
                   "[SERVER ERROR] Gagal membaca direktori. Cek log Vercel.")
                Hdir) as [e He].
    eexists. split.
    + unfold VercelTree.files. cbv zeta. rewrite Hd. exact He.
    + apply list_elem_of_here.
Qed.

Lemma X6_witness :
  (∃ fields,
     LocalTree.files "/srv/data" docs_listing (fresh tmp_only)
     = answered tmp_only [FsReaddir (getSafePath "/srv/data" "docs")]
         (Response 500 (Json fields))
     ∧ ("success", JBool false) ∈ fields)
  ∧ (∃ fields,
       VercelTree.files "/srv/data" docs_listing (fresh tmp_only)
       = answered tmp_only [FsReaddir (getSafePath "/srv/data" "docs")]
           (Response 500 (Json fields))
       ∧ ("success", JBool false) ∈ fields).
Proof.
  apply (X6_files_not_a_directory "/srv/data" "docs" docs_listing tmp_only);
    [reflexivity|]. vm_compute. discriminate.
Defined.

End ListingMore.

(** ** Deleting, then listing *)

Section DeleteThenList.

(** the listing of the first variant on an existing directory, in terms of
    the tree *)
Lemma local_files_on_directory (root d : string) (req : request) (t : tree) :
  resolved root = true → well_named t →
  js_or (prop (query req) "directory") (JStr "./") = JStr d →
  t !! Path.segments (getSafePath root d) = Some Dir →
  ∃ fileList ops,
    LocalTree.files root req (fresh t)
    = answered t ops
        (Response 200
           (Json (("success", JBool true) :: files_fields fileList
                  ++ [("relativeDir",
                       JStr (getRelativePath root (getSafePath root d)))])))
    ∧ ∀ n b,
        Entry n b ∈ fileList
        ↔ ∃ x, t !! (Path.segments (getSafePath root d) ++ [n]) = Some x
               ∧ b = match x with Dir => true | File _ => false end.
Proof.
  intros Hr Hw Hd Hdir.
  pose proof (getSafePath_absolute root d Hr) as Ha.
  eexists _, _. split.
  - unfold LocalTree.files. cbv zeta. rewrite Hd.
    apply (files_try root _ t _ Ha Hw Hdir).
  - intros n b. rewrite list_elem_of_fmap. split.
    + intros (n' & [= -> ->] & [x Hx]%dir_entries_spec). exists x.
      split; [done|]. unfold is_directory. rewrite Hx. by destruct x.
    + intros (x & Hx & ->). exists n. split.
      * unfold is_directory. rewrite Hx. by destruct x.
      * apply dir_entries_spec. by exists x.
Qed.

Lemma well_named_sub (t t' : tree) :
  well_named t → (∀ k x, t' !! k = Some x → t !! k = Some x) → well_named t'.
Proof.
  unfold well_named. rewrite !map_Forall_lookup. intros Hw Hs k x Hx.
  by apply (Hw k x), Hs.
Qed.

(** what a successful delete of the first variant leaves: nothing at the
    target, everything that is not at or below it as before, and nothing
    new *)
Lemma local_delete_success (root d file : string) (req : request)
    (t t' : tree) (cs : list fs_call) (r : response) :
  resolved root = true → Path.plain file →
  prop (query req) "file" = JStr file →
  js_or (prop (query req) "directory") (JStr "./") = JStr d →
  Local.delete root req (fresh t) = answered t' cs r →
  status r = 200%Z →
  t' !! (Path.segments (getSafePath root d) ++ [file]) = None
  ∧ (∀ q, ¬ Path.segments (getSafePath root d) ++ [file] `prefix_of` q →
          t' !! q = t !! q)
  ∧ (∀ q x, t' !! q = Some x → t !! q = Some x).
Proof.
  intros Hr Hp Hf Hd Hrun Hst.
  pose proof (getSafePath_absolute root d Hr) as Ha.
  destruct (join_name (getSafePath root d) file Ha Hp) as (_ & Hk & Hs).
  pose proof Hp as (Hne & _).
  assert (truthy (JStr file) = true) as Ht
    by (simpl; by apply bool_decide_eq_true_2).
  assert (Local.delete root req (fresh t)
          = try_catch
              (do isDirectory <- fs_stat (Path.join [getSafePath root d; file]);
               if isDirectory
               then fs_rm (Path.join [getSafePath root d; file]) ;;;
                    res_json 200
                      [("success", JBool true);
                       ("message",
                        JStr ("Folder '" +:+ file +:+ "' berhasil dihapus."))]
               else fs_unlink (Path.join [getSafePath root d; file]) ;;;
                    res_json 200
                      [("success", JBool true);
                       ("message",
                        JStr ("File '" +:+ file +:+ "' berhasil dihapus."))])
              (λ error,
                res_json 500 [("success", JBool false);
                              ("message", JStr ("Gagal menghapus: "
                                                +:+ e_message error))])
              (fresh t)) as Hrun'.
  { unfold Local.delete. cbv zeta. rewrite Hf, Hd, Ht. reflexivity. }
  rewrite Hrun', delete_try, Hk, Hs in Hrun. clear Hrun'.
  destruct (t !! (Path.segments (getSafePath root d) ++ [file]))
    as [[data|]|] eqn:E.
  - injection Hrun as <- <- <-. split; [apply lookup_delete_eq|]. split.
    + intros q Hq. apply lookup_delete_ne. intros <-. by apply Hq.
    + intros q x Hx. apply lookup_delete_Some in Hx as [_ ?]. done.
  - injection Hrun as <- <- <-. split; [|split].
    + rewrite rm_lookup. by rewrite decide_True.
    + intros q Hq. rewrite rm_lookup. by rewrite decide_False.
    + intros q x. rewrite rm_lookup. by destruct (decide _).
  - injection Hrun as <- <- <-. done.
Qed.

(** X7: deleting, then listing (first variant).  For a resolved root and a
    well-named tree, after a delete of the plain name [file] in an existing
    directory was answered with success, the listing of that directory
    succeeds, no longer holds [file], and holds every other entry exactly
    as before. *)
Theorem X7_delete_then_list (root d file : string) (del lst : request)
    (t t' : tree) (cs : list fs_call) (r : response) :
  resolved root = true →
  well_named t →
  Path.plain file →
  prop (query del) "file" = JStr file →
  js_or (prop (query del) "directory") (JStr "./") = JStr d →
  js_or (prop (query lst) "directory") (JStr "./") = JStr d →
  t !! Path.segments (getSafePath root d) = Some Dir →
  Local.delete root del (fresh t) = answered t' cs r →
  status r = 200%Z →
  ∃ fileList ops,
    LocalTree.files root lst (fresh t')
    = answered t' ops
        (Response 200
           (Json (("success", JBool true) :: files_fields fileList
                  ++ [("relativeDir",
                       JStr (getRelativePath root (getSafePath root d)))])))
    ∧ (∀ b, Entry file b ∉ fileList)
    ∧ ∀ n b, n ≠ file →
        (Entry n b ∈ fileList
         ↔ ∃ x, t !! (Path.segments (getSafePath root d) ++ [n]) = Some x
                ∧ b = match x with Dir => true | File _ => false end).
Proof.
  intros Hr Hw Hp Hf Hd Hd' Hdir Hrun Hst.
  destruct (local_delete_success root d file del t t' cs r Hr Hp Hf Hd Hrun Hst)
    as (Hgone & Hkeep & Hsub).
  set (K := Path.segments (getSafePath root d)) in *.
  assert (∀ n, n ≠ file → ¬ K ++ [file] `prefix_of` K ++ [n]) as Hother.
  { intros n Hn [rest E]. rewrite <- app_assoc in E.
    apply app_inv_head in E. by injection E. }
  assert (t' !! K = Some Dir) as Hdir'.
  { rewrite Hkeep; [done|]. intros [rest E].
    apply (f_equal length) in E. rewrite !length_app in E. simpl in E. lia. }
  destruct (local_files_on_directory root d lst t' Hr
              (well_named_sub t t' Hw Hsub) Hd' Hdir')
    as (fileList & ops & Hfiles & Hin).
  exists fileList, ops. split; [done|]. fold K in Hin. split.
  - intros b [x [Hx _]]%Hin. by rewrite Hgone in Hx.
  - intros n b Hn. rewrite Hin, Hkeep by by apply Hother. done.
Qed.

Lemma X7_witness :
  ∃ fileList ops,
    LocalTree.files "/srv/data" a_download
      (fresh (base.delete ["srv"; "data"; "a.txt"] with_docs))
    = answered (base.delete ["srv"; "data"; "a.txt"] with_docs) ops
        (Response 200
           (Json (("success", JBool true) :: files_fields fileList
                  ++ [("relativeDir",
                       JStr (getRelativePath "/srv/data"
                               (getSafePath "/srv/data" "./")))])))
    ∧ (∀ b, Entry "a.txt" b ∉ fileList)
    ∧ ∀ n b, n ≠ "a.txt" →
        (Entry n b ∈ fileList
         ↔ ∃ x, with_docs !! (Path.segments (getSafePath "/srv/data" "./")
                               ++ [n]) = Some x
                ∧ b = match x with Dir => true | File _ => false end).
Proof.
  apply (X7_delete_then_list "/srv/data" "./" "a.txt" a_download a_download
           with_docs (base.delete ["srv"; "data"; "a.txt"] with_docs)
           [FsStat "/srv/data/a.txt"; FsUnlink "/srv/data/a.txt"]
           (Response 200
              (Json [("success", JBool true);
                     ("message", JStr "File 'a.txt' berhasil dihapus.")]))).
  - reflexivity.
  - apply well_named_with_docs.
  - repeat split; done.
  - reflexivity.
  - reflexivity.
  - reflexivity.
  - reflexivity.
  - reflexivity.
  - reflexivity.
Defined.

End DeleteThenList.

(** ** Trees after [mkdir] and [rename] *)

Section TreeOps.

Lemma dirs_lookup_made (l : list nat) (k q : list string) (t : tree) :
  (∃ i, i ∈ l ∧ take i k = q) →
  foldr (λ i acc, <[take i k := Dir]> acc) t l !! q = Some Dir.
Proof.
  induction l as [|j l IH]; intros (i & Hi & Hq).
  - by apply elem_of_nil in Hi.
  - simpl. destruct (decide (take j k = q)) as [->|Hne].
    + apply lookup_insert_eq.
    + rewrite lookup_insert_ne by done. apply IH. exists i. split; [|done].
      apply elem_of_cons in Hi as [->|Hi]; done.
Qed.

Lemma dirs_lookup_kept (l : list nat) (k q : list string) (t : tree) :
  (∀ i, i ∈ l → take i k ≠ q) →
  foldr (λ i acc, <[take i k := Dir]> acc) t l !! q = t !! q.
Proof.
  induction l as [|j l IH]; intros Hq; [done|]. simpl.
  rewrite lookup_insert_ne by (apply Hq, list_elem_of_here).
  apply IH. intros i Hi. apply Hq. by apply list_elem_of_further.
Qed.

(** after [mkdir -p] every non-empty prefix of the path is a directory and
    nothing else has changed *)
Lemma make_dirs_lookup (k q : list string) (t : tree) :
  make_dirs k t !! q
  = if decide (q ≠ [] ∧ q `prefix_of` k) then Some Dir else t !! q.
Proof.
  unfold make_dirs. destruct (decide (q ≠ [] ∧ q `prefix_of` k)) as [[Hne Hp]|Hn].
  - apply dirs_lookup_made. exists (length q). split.
    + apply elem_of_seq. pose proof (prefix_length _ _ Hp).
      destruct q; [done|]. simpl in *. lia.
    + destruct Hp as [rest ->]. apply take_app_length.
  - apply dirs_lookup_kept. intros i [Hi1 Hi2]%elem_of_seq <-. apply Hn. split.
    + destruct k; simpl in *; [lia|]. destruct i; [lia|done].
    + exists (drop i k). by rewrite take_drop.
Qed.

Lemma make_dirs_again (k : list string) (t : tree) :
  make_dirs k (make_dirs k t) = make_dirs k t.
Proof.
  apply map_eq. intros q. rewrite !make_dirs_lookup.
  by destruct (decide (q ≠ [] ∧ q `prefix_of` k)).
Qed.

Lemma file_above_false (k : list string) (t : tree) :
  file_above k t = false
  ↔ ∀ i data, i < length k → t !! take i k ≠ Some (File data).
Proof.
  unfold file_above. rewrite <- not_true_iff_false, existsb_exists. split.
  - intros H i data Hi E. apply H. exists i. split.
    + apply in_seq. lia.
    + by rewrite E.
  - intros H (i & [_ Hi]%in_seq & E).
    destruct (t !! take i k) as [[data|]|] eqn:E'; [|done..].
    apply (H i data); [simpl in Hi; lia|done].
Qed.

(** the moved part of the tree: under [kb] lies what lay under [ka] *)
Lemma moved_lookup (ka kb q : list string) (t : tree) :
  (list_to_map
     (omap (λ kv : list string * node,
              if decide (ka `prefix_of` kv.1)
              then Some (kb ++ drop (length ka) kv.1, kv.2)
              else None)
           (map_to_list t)) : tree) !! q
  = if decide (kb `prefix_of` q) then t !! (ka ++ drop (length kb) q)
    else None.
Proof.
  set (L := omap _ (map_to_list t)).
  assert (∀ q' x, (q', x) ∈ L
                  ↔ ∃ rest, q' = kb ++ rest ∧ t !! (ka ++ rest) = Some x) as HL.
  { intros q' x. unfold L. rewrite list_elem_of_omap. split.
    - intros ([k' y] & Hin%elem_of_map_to_list & Hf). simpl in Hf.
      destruct (decide (ka `prefix_of` k')) as [[rest ->]|]; [|done].
      rewrite drop_app_length in Hf. injection Hf as <- <-. by exists rest.
    - intros (rest & -> & Hx). exists (ka ++ rest, x). split.
      + by apply elem_of_map_to_list.
      + simpl. rewrite decide_True by by exists rest.
        by rewrite drop_app_length. }
  destruct (decide (kb `prefix_of` q)) as [[rest ->]|Hn].
  - rewrite drop_app_length.
    destruct (t !! (ka ++ rest)) as [x|] eqn:E.
    + apply elem_of_list_to_map'.
      * intros x' _ (rest' & E' & Hx')%HL. apply app_inv_head in E' as <-.
        congruence.
      * apply HL. by exists rest.
    + apply eq_None_not_Some. intros [x Hx%elem_of_list_to_map_2].
      apply HL in Hx as (rest' & E' & Hx'). apply app_inv_head in E' as <-.
      congruence.
  - apply eq_None_not_Some. intros [x Hx%elem_of_list_to_map_2].
    apply HL in Hx as (rest & -> & _). apply Hn. by exists rest.
Qed.

(** after a move, under the new key lies what lay under the old one, the
    old place is empty, and the rest is as before *)
Lemma move_tree_lookup (ka kb q : list string) (t : tree) :
  move_tree ka kb t !! q
  = if decide (kb `prefix_of` q) then t !! (ka ++ drop (length kb) q)
    else if decide (ka `prefix_of` q) then None
    else t !! q.
Proof.
  unfold move_tree. destruct (decide (kb `prefix_of` q)) as [Hb|Hb].
  - rewrite lookup_union_l.
    + by rewrite moved_lookup, decide_True.
    + apply map_lookup_filter_None. right. intros x _ [_ H]. by apply H.
  - rewrite lookup_union_r by by rewrite moved_lookup, decide_False.
    destruct (decide (ka `prefix_of` q)) as [Ha|Ha].
    + apply map_lookup_filter_None. right. intros x _ [H _]. by apply H.
    + destruct (t !! q) as [x|] eqn:E.
      * by apply map_lookup_filter_Some.
      * apply map_lookup_filter_None. by left.
Qed.

End TreeOps.

(** ** Creating folders *)

Section CreateFolder.

Ltac run :=
  cbv beta iota zeta delta
    [bind ret throw try_catch call get_store put_store res_json res_send
     res_write res_headersSent fresh getSafePath_of path_join_of answered];
  cbn [store calls headersSent sent late fst snd].

Lemma usable_true (p : string) :
  usable p = true ↔ has_nul p = false ∧ too_long p = false.
Proof.
  unfold usable. by rewrite andb_true_iff, !negb_true_iff.
Qed.

Lemma fs_mkdir_run (p : string) (t : tree) (cs : list fs_op) (hs : bool)
    (sn lt : list response) :
  fs_mkdir p (World t cs hs sn lt)
  = if has_nul p
    then (inl (ERR_INVALID_ARG_VALUE "path"),
          World t (cs ++ [FsMkdir p]) hs sn lt)
    else if too_long p
    then (inl (sys_error "ENAMETOOLONG" "mkdir" p),
          World t (cs ++ [FsMkdir p]) hs sn lt)
    else
      (match t !! Path.segments p with
       | Some (File _) => inl (sys_error "EEXIST" "mkdir" p)
       | _ => if file_above (Path.segments p) t
              then inl (sys_error "ENOTDIR" "mkdir" p)
              else inr tt
       end,
       World (match t !! Path.segments p with
              | Some (File _) => t
              | _ => if file_above (Path.segments p) t then t
                     else make_dirs (Path.segments p) t
              end) (cs ++ [FsMkdir p]) hs sn lt).
Proof.
  unfold fs_mkdir. run.
  destruct (has_nul p); [reflexivity|]. destruct (too_long p); [reflexivity|].
  run.
  destruct (t !! Path.segments p) as [[]|]; run; try reflexivity;
    by destruct (file_above (Path.segments p) t).
Qed.

(** the [try] block of [POST /api/create-folder], whatever the answers
    hold *)
Lemma create_try (newPath : string) (t : tree) (ok : list (string * jsval))
    (F : js_error → list (string * jsval)) :
  try_catch (fs_mkdir newPath ;;; res_json 200 ok)
    (λ error, res_json 500 (F error)) (fresh t)
  = if has_nul newPath
    then answered t [FsMkdir newPath]
           (Response 500 (Json (F (ERR_INVALID_ARG_VALUE "path"))))
    else if too_long newPath
    then answered t [FsMkdir newPath]
           (Response 500
              (Json (F (sys_error "ENAMETOOLONG" "mkdir" newPath))))
    else
      match t !! Path.segments newPath with
      | Some (File _) =>
          answered t [FsMkdir newPath]
            (Response 500 (Json (F (sys_error "EEXIST" "mkdir" newPath))))
      | _ =>
          if file_above (Path.segments newPath) t
          then answered t [FsMkdir newPath]
                 (Response 500
                    (Json (F (sys_error "ENOTDIR" "mkdir" newPath))))
          else answered (make_dirs (Path.segments newPath) t)
                 [FsMkdir newPath] (Response 200 (Json ok))
      end.
Proof.
  run. rewrite fs_mkdir_run.
  destruct (has_nul newPath); [reflexivity|].
  destruct (too_long newPath); [reflexivity|].
  destruct (t !! Path.segments newPath) as [[]|]; try reflexivity;
    by destruct (file_above (Path.segments newPath) t).
Qed.

(** both folder handlers are that [try] block once the name is there *)
Lemma create_folder_unfold (root : string) (req : request) (name dir : string)
    (handler : Fs2 unit) (newPath : string) :
  prop (body req) "new_folder" = JStr name →
  name ≠ "" →
  (handler = VercelTree.create_folder req
   ∧ newPath = Path.join ["/tmp/"; name])
  ∨ (handler = LocalTree.create_folder root req
     ∧ js_or (prop (body req) "directory") (JStr "./") = JStr dir
     ∧ newPath = Path.join [getSafePath root dir; name]) →
  ∃ ok F,
    (∀ t, handler (fresh t)
          = try_catch (fs_mkdir newPath ;;; res_json 200 ok)
              (λ error, res_json 500 (F error)) (fresh t))
    ∧ ("success", JBool true) ∈ ok
    ∧ ∀ e, ("success", JBool false) ∈ F e.
Proof.
  intros Hn Hne Hh.
  assert (truthy (JStr name) = true) as Ht
    by (simpl; by apply bool_decide_eq_true_2).
  destruct Hh as [[-> ->]|(-> & Hd & ->)].
  - eexists _, (Vercel.server_error
                  "[SERVER ERROR] Gagal membuat folder. Cek log Vercel.").
    split; [|split].
    + intros t. unfold VercelTree.create_folder. cbv zeta.
      rewrite Hn, Ht. reflexivity.
    + apply list_elem_of_here.
    + intros e. apply list_elem_of_here.
  - eexists _, (λ error, [("success", JBool false);
                          ("message", JStr ("Gagal membuat folder: "
                                            +:+ e_message error))]).
    split; [|split].
    + intros t. unfold LocalTree.create_folder. cbv zeta.
      rewrite Hn, Hd, Ht. reflexivity.
    + apply list_elem_of_here.
    + intros e. apply list_elem_of_here.
Qed.

Lemma no_file_at_or_above (k : list string) (t : tree) :
  (∀ i data, i ≤ length k → t !! take i k ≠ Some (File data))
  ↔ (∀ data, t !! k ≠ Some (File data)) ∧ file_above k t = false.
Proof.
  rewrite file_above_false. split.
  - intros H. split.
    + intros data. rewrite <- (firstn_all k). by apply H.
    + intros i data Hi. apply H. lia.
  - intros [H1 H2] i data Hi. destruct (decide (i = length k)) as [->|].
    + rewrite firstn_all. apply H1.
    + apply H2. lia.
Qed.

(** X8: creating a folder ([POST /api/create-folder], in [api/server.js]
    below [/tmp] and in the first variant below the root).  When the new
    path is one the file system takes (no NUL byte, no name or path too
    long) and no file lies at it or at one of its ancestors, the handler
    makes the one [mkdir] call and answers 200; afterwards the new path
    and every missing ancestor is a directory and nothing else has
    changed; the same request once more answers 200 again and changes
    nothing. *)
Theorem X8_create_folder (root : string) (req : request) (t : tree)
    (name dir : string) (handler : Fs2 unit) (newPath : string) :
  prop (body req) "new_folder" = JStr name →
  name ≠ "" →
  (handler = VercelTree.create_folder req
   ∧ newPath = Path.join ["/tmp/"; name])
  ∨ (handler = LocalTree.create_folder root req
     ∧ js_or (prop (body req) "directory") (JStr "./") = JStr dir
     ∧ newPath = Path.join [getSafePath root dir; name]) →
  usable newPath = true →
  (∀ i data, i ≤ length (Path.segments newPath) →
             t !! take i (Path.segments newPath) ≠ Some (File data)) →
  ∃ t' ok,
    handler (fresh t)
    = answered t' [FsMkdir newPath] (Response 200 (Json ok))
    ∧ ("success", JBool true) ∈ ok
    ∧ (∀ q, t' !! q
            = if decide (q ≠ [] ∧ q `prefix_of` Path.segments newPath)
              then Some Dir else t !! q)
    ∧ handler (fresh t')
      = answered t' [FsMkdir newPath] (Response 200 (Json ok)).
Proof.
  intros Hn Hne Hh [Hnul Hlong]%usable_true Hfree.
  destruct (create_folder_unfold root req name dir handler newPath Hn Hne Hh)
    as (ok & F & Hrun & Hok & _).
  set (K := Path.segments newPath) in *.
  assert (∀ u, (∀ i data, i ≤ length K → u !! take i K ≠ Some (File data)) →
               handler (fresh u)
               = answered (make_dirs K u) [FsMkdir newPath]
                   (Response 200 (Json ok))) as Hgo.
  { intros u [H1 H2]%no_file_at_or_above.
    rewrite Hrun, create_try, Hnul, Hlong.
    fold K. rewrite H2. destruct (u !! K) as [[data|]|] eqn:E; [|done..].
    by destruct (H1 data). }
  exists (make_dirs K t), ok. split; [by apply Hgo|]. split; [done|]. split.
  - intros q. apply make_dirs_lookup.
  - rewrite <- (make_dirs_again K t) at 2. apply Hgo.
    intros i data Hi. rewrite make_dirs_lookup.
    destruct (decide _); [done|]. by apply Hfree.
Qed.

Lemma X8_witness :
  ∃ t' ok,
    VercelTree.create_folder docs_folder (fresh tmp_with_a_txt)
    = answered t' [FsMkdir (Path.join ["/tmp/"; "docs"])]
        (Response 200 (Json ok))
    ∧ ("success", JBool true) ∈ ok
    ∧ (∀ q, t' !! q
            = if decide (q ≠ []
                         ∧ q `prefix_of`
                             Path.segments (Path.join ["/tmp/"; "docs"]))
              then Some Dir else tmp_with_a_txt !! q)
    ∧ VercelTree.create_folder docs_folder (fresh t')
      = answered t' [FsMkdir (Path.join ["/tmp/"; "docs"])]
          (Response 200 (Json ok)).
Proof.
  apply (X8_create_folder "/srv/data" docs_folder tmp_with_a_txt "docs" "./"
           (VercelTree.create_folder docs_folder)
           (Path.join ["/tmp/"; "docs"]) eq_refl ltac:(discriminate)
           (or_introl (conj eq_refl eq_refl)) eq_refl).
  intros i data Hi.
  change (Path.segments (Path.join ["/tmp/"; "docs"])) with ["tmp"; "docs"] in *.
  simpl in Hi.
  destruct i as [|[|[|i]]]; [vm_compute; discriminate..|lia].
Defined.

(** X9: a file in the way.  When the new path or one of its ancestors is a
    file, both folder handlers make the one [mkdir] call, answer 500 with
    [success: false], leave the tree as it is and throw nothing. *)
Theorem X9_create_folder_blocked (root : string) (req : request) (t : tree)
    (name dir : string) (handler : Fs2 unit) (newPath : string)
    (i : nat) (data : string) :
  prop (body req) "new_folder" = JStr name →
  name ≠ "" →
  (handler = VercelTree.create_folder req
   ∧ newPath = Path.join ["/tmp/"; name])
  ∨ (handler = LocalTree.create_folder root req
     ∧ js_or (prop (body req) "directory") (JStr "./") = JStr dir
     ∧ newPath = Path.join [getSafePath root dir; name]) →
  i ≤ length (Path.segments newPath) →
  t !! take i (Path.segments newPath) = Some (File data) →
  ∃ fields,
    handler (fresh t)
    = answered t [FsMkdir newPath] (Response 500 (Json fields))
    ∧ ("success", JBool false) ∈ fields.
Proof.
  intros Hn Hne Hh Hi Hfile.
  destruct (create_folder_unfold root req name dir handler newPath Hn Hne Hh)
    as (ok & F & Hrun & _ & HF).
  rewrite Hrun, create_try. set (K := Path.segments newPath) in *.
  destruct (has_nul newPath); [by eexists|].
  destruct (too_long newPath); [by eexists|].
  destruct (t !! K) as [[data'|]|] eqn:E; [by eexists|..].
  all: destruct (file_above K t) eqn:Ea; [by eexists|].
  all: exfalso; destruct (decide (i = length K)) as [->|Hlt];
    [rewrite firstn_all in Hfile; congruence|].
  all: apply file_above_false with (i := i) (data := data) in Ea; [done|lia].
Qed.

Lemma X9_witness :
  ∃ fields,
    LocalTree.create_folder "/srv/data" cache_below_a_txt (fresh with_a_txt)
    = answered with_a_txt
        [FsMkdir (Path.join [getSafePath "/srv/data" "a.txt"; "cache"])]
        (Response 500 (Json fields))
    ∧ ("success", JBool false) ∈ fields.
Proof.
  apply (X9_create_folder_blocked "/srv/data" cache_below_a_txt
           with_a_txt "cache" "a.txt"
           (LocalTree.create_folder "/srv/data" cache_below_a_txt)
           (Path.join [getSafePath "/srv/data" "a.txt"; "cache"])
           3 "0123456789").
  - reflexivity.
  - discriminate.
  - right. repeat split; reflexivity.
  - vm_compute. lia.
  - reflexivity.
Defined.

Lemma well_named_make_dirs (p : string) (t : tree) :
  well_named t → well_named (make_dirs (Path.segments p) t).
Proof.
  unfold well_named. rewrite !map_Forall_lookup. intros Hw q x.
  rewrite make_dirs_lookup. destruct (decide _) as [[_ [rest E]]|].
  - intros _. pose proof (segments_plain p) as Hp. rewrite E in Hp.
    by apply Forall_app in Hp as [Hp _].
  - apply Hw.
Qed.

(** X10: creating a folder, then listing (first variant).  For a resolved
    root and a well-named tree, after a folder with the plain name [name]
    was created with success in an existing directory, the listing of that
    directory succeeds, shows [name] as a directory, and shows every other
    entry exactly as before. *)
Theorem X10_create_then_list (root d name : string) (mk lst : request)
    (t t' : tree) (ops : list fs_op) (r : response) :
  resolved root = true →
  well_named t →
  Path.plain name →
  prop (body mk) "new_folder" = JStr name →
  js_or (prop (body mk) "directory") (JStr "./") = JStr d →
  js_or (prop (query lst) "directory") (JStr "./") = JStr d →
  t !! Path.segments (getSafePath root d) = Some Dir →
  LocalTree.create_folder root mk (fresh t) = answered t' ops r →
  status r = 200%Z →
  ∃ fileList ops',
    LocalTree.files root lst (fresh t')
    = answered t' ops'
        (Response 200
           (Json (("success", JBool true) :: files_fields fileList
                  ++ [("relativeDir",
                       JStr (getRelativePath root (getSafePath root d)))])))
    ∧ Entry name true ∈ fileList
    ∧ ∀ n b, n ≠ name →
        (Entry n b ∈ fileList
         ↔ ∃ x, t !! (Path.segments (getSafePath root d) ++ [n]) = Some x
                ∧ b = match x with Dir => true | File _ => false end).
Proof.
  intros Hr Hw Hp Hn Hd Hd' Hdir Hrun Hst.
  pose proof (getSafePath_absolute root d Hr) as Ha.
  destruct (join_name (getSafePath root d) name Ha Hp) as (_ & Hk & _).
  pose proof Hp as (Hne & _).
  destruct (create_folder_unfold root mk name d
              (LocalTree.create_folder root mk)
              (Path.join [getSafePath root d; name]) Hn Hne
              (or_intror (conj eq_refl (conj Hd eq_refl))))
    as (ok & F & Hgo & _ & _).
  rewrite Hgo, create_try in Hrun. clear Hgo.
  set (p := Path.join [getSafePath root d; name]) in *.
  set (K := Path.segments (getSafePath root d)) in *.
  assert (t' = make_dirs (Path.segments p) t) as ->.
  { destruct (has_nul p); [injection Hrun as <- <- <-; done|].
    destruct (too_long p); [injection Hrun as <- <- <-; done|].
    destruct (t !! Path.segments p) as [[data|]|];
      [injection Hrun as <- <- <-; done|..];
      (destruct (file_above (Path.segments p) t);
       [injection Hrun as <- <- <-; done|by injection Hrun as <- <- <-]). }
  assert (make_dirs (Path.segments p) t !! K = Some Dir) as Hdir'.
  { rewrite make_dirs_lookup. by destruct (decide _). }
  destruct (local_files_on_directory root d lst _ Hr
              (well_named_make_dirs p t Hw) Hd' Hdir')
    as (fileList & ops' & Hfiles & Hin).
  exists fileList, ops'. split; [done|]. fold K in Hin. split.
  - apply Hin. exists Dir. split; [|done].
    rewrite make_dirs_lookup, Hk. rewrite decide_True; [done|].
    split; [by destruct K|done].
  - intros n b Hneq. rewrite Hin, make_dirs_lookup, Hk.
    rewrite decide_False; [done|]. intros [_ [rest E]].
    rewrite <- app_assoc in E. apply app_inv_head in E. simpl in E.
    by injection E.
Qed.

Lemma X10_witness :
  ∃ fileList ops',
    LocalTree.files "/srv/data" docs_listing
      (fresh (make_dirs ["srv"; "data"; "docs"; "drafts"] with_docs))
    = answered (make_dirs ["srv"; "data"; "docs"; "drafts"] with_docs) ops'
        (Response 200
           (Json (("success", JBool true) :: files_fields fileList
                  ++ [("relativeDir",
                       JStr (getRelativePath "/srv/data"
                               (getSafePath "/srv/data" "docs")))])))
    ∧ Entry "drafts" true ∈ fileList
    ∧ ∀ n b, n ≠ "drafts" →
        (Entry n b ∈ fileList
         ↔ ∃ x, with_docs !! (Path.segments (getSafePath "/srv/data" "docs")
                               ++ [n]) = Some x
                ∧ b = match x with Dir => true | File _ => false end).
Proof.
  apply (X10_create_then_list "/srv/data" "docs" "drafts" drafts_in_docs
           docs_listing with_docs
           (make_dirs ["srv"; "data"; "docs"; "drafts"] with_docs)
           [FsMkdir "/srv/data/docs/drafts"]
           (Response 200
              (Json [("success", JBool true);
                     ("message", JStr "Folder 'drafts' berhasil dibuat.")]))).
  - reflexivity.
  - apply well_named_with_docs.
  - repeat split; done.
  - reflexivity.
  - reflexivity.
  - reflexivity.
  - reflexivity.
  - reflexivity.
  - reflexivity.
Defined.

End CreateFolder.

(** ** Renaming *)

Section Rename.

Ltac run :=
  cbv beta iota zeta delta
    [bind ret throw try_catch call get_store put_store res_json res_send
     res_write res_headersSent fresh getSafePath_of path_join_of answered];
  cbn [store calls headersSent sent late fst snd].

(** [fs.rename] either fails and leaves the tree alone, or moves the source *)
Lemma fs_rename_run (oldPath newPath : string) (t : tree) (cs : list fs_op)
    (hs : bool) (sn lt : list response) :
  ∃ res t',
    fs_rename oldPath newPath (World t cs hs sn lt)
    = (res, World t' (cs ++ [FsRename oldPath newPath]) hs sn lt)
    ∧ match res with
      | inl _ => t' = t
      | inr _ =>
          is_Some (t !! Path.segments oldPath)
          ∧ (t' = t ∧ Path.segments oldPath = Path.segments newPath
             ∨ t' = move_tree (Path.segments oldPath) (Path.segments newPath) t)
      end.
Proof.
  unfold fs_rename. run.
  destruct (has_nul oldPath); [by eexists _, _|].
  destruct (has_nul newPath); [by eexists _, _|].
  destruct (too_long oldPath || too_long newPath); [by eexists _, _|].
  run.
  destruct (t !! Path.segments oldPath) as [source|] eqn:E;
    [|by eexists _, _].
  repeat case_match; eexists _, _; (split; [reflexivity|]); simpl; eauto.
Qed.

(** a sufficient condition for the move *)
Lemma fs_rename_moves (oldPath newPath : string) (t : tree) (x : node)
    (cs : list fs_op) (hs : bool) (sn lt : list response) :
  usable oldPath = true → usable newPath = true →
  t !! Path.segments oldPath = Some x →
  Str.endsWithSlash oldPath = false → Str.endsWithSlash newPath = false →
  Path.segments oldPath ≠ Path.segments newPath →
  ¬ Path.segments oldPath `prefix_of` Path.segments newPath →
  Path.segments newPath ≠ [] →
  t !! parent (Path.segments newPath) = Some Dir →
  t !! Path.segments newPath = None →
  fs_rename oldPath newPath (World t cs hs sn lt)
  = (inr tt,
     World (move_tree (Path.segments oldPath) (Path.segments newPath) t)
       (cs ++ [FsRename oldPath newPath]) hs sn lt).
Proof.
  intros [Hna Hla]%usable_true [Hnb Hlb]%usable_true.
  intros Hx Ha Hb Hne Hpre Hnil Hpar Hfree. unfold fs_rename. run.
  rewrite Hna, Hnb, Hla, Hlb. cbn [orb]. run.
  rewrite Hx, Ha, Hb. rewrite !decide_False by done.
  destruct (Path.segments newPath) as [|s l]; [done|].
  rewrite Hpar, Hfree. by destruct x.
Qed.

(** the [try] block of [PUT /api/rename] *)
Lemma rename_try (oldPath newPath : string) (t : tree)
    (ok : list (string * jsval)) (F : js_error → list (string * jsval)) :
  (∃ e,
     try_catch (fs_rename oldPath newPath ;;; res_json 200 ok)
       (λ error, res_json 500 (F error)) (fresh t)
     = answered t [FsRename oldPath newPath] (Response 500 (Json (F e))))
  ∨ (∃ t',
       try_catch (fs_rename oldPath newPath ;;; res_json 200 ok)
         (λ error, res_json 500 (F error)) (fresh t)
       = answered t' [FsRename oldPath newPath] (Response 200 (Json ok))
       ∧ is_Some (t !! Path.segments oldPath)
       ∧ (t' = t ∧ Path.segments oldPath = Path.segments newPath
          ∨ t' = move_tree (Path.segments oldPath) (Path.segments newPath) t)).
Proof.
  run.
  destruct (fs_rename_run oldPath newPath t [] false [] [])
    as ([e|[]] & t' & -> & H).
  - left. exists e. by rewrite H.
  - right. exists t'. by destruct H.
Qed.

(** both rename handlers are that [try] block once the names are there *)
Lemma rename_unfold (root : string) (req : request) (a b d : string)
    (handler : Fs2 unit) (safeDir : string) :
  prop (body req) "old_name" = JStr a → a ≠ "" →
  prop (body req) "new_name" = JStr b → b ≠ "" →
  (handler = VercelTree.rename req ∧ safeDir = "/tmp/")
  ∨ (handler = LocalTree.rename root req
     ∧ js_or (prop (body req) "directory") (JStr "./") = JStr d
     ∧ safeDir = getSafePath root d) →
  ∃ ok F,
    (∀ t, handler (fresh t)
          = try_catch
              (fs_rename (Path.join [safeDir; a]) (Path.join [safeDir; b]) ;;;
               res_json 200 ok)
              (λ error, res_json 500 (F error)) (fresh t))
    ∧ ("success", JBool true) ∈ ok
    ∧ ∀ e, ("success", JBool false) ∈ F e.
Proof.
  intros Ha Hane Hb Hbne Hh.
  assert (truthy (JStr a) = true) as Hta
    by (simpl; by apply bool_decide_eq_true_2).
  assert (truthy (JStr b) = true) as Htb
    by (simpl; by apply bool_decide_eq_true_2).
  destruct Hh as [[-> ->]|(-> & Hd & ->)].
  - eexists _, (Vercel.server_error
                  "[SERVER ERROR] Gagal mengganti nama. Cek log Vercel.").
    split; [|split].
    + intros t. unfold VercelTree.rename. cbv zeta.
      rewrite Ha, Hb, Hta, Htb. reflexivity.
    + apply list_elem_of_here.
    + intros e. apply list_elem_of_here.
  - eexists _, (λ error, [("success", JBool false);
                          ("message", JStr ("Gagal mengganti nama: "
                                            +:+ e_message error))]).
    split; [|split].
    + intros t. unfold LocalTree.rename. cbv zeta.
      rewrite Ha, Hb, Hd, Hta, Htb. reflexivity.
    + apply list_elem_of_here.
    + intros e. apply list_elem_of_here.
Qed.

(** the base directory of either rename handler is absolute *)
Lemma rename_base (root : string) (req : request) (d : string)
    (handler : Fs2 unit) (safeDir : string) :
  (handler = VercelTree.rename req ∧ safeDir = "/tmp/")
  ∨ (handler = LocalTree.rename root req
     ∧ resolved root = true
     ∧ js_or (prop (body req) "directory") (JStr "./") = JStr d
     ∧ safeDir = getSafePath root d) →
  Str.startsWith safeDir "/" = true
  ∧ ((handler = VercelTree.rename req ∧ safeDir = "/tmp/")
     ∨ (handler = LocalTree.rename root req
        ∧ js_or (prop (body req) "directory") (JStr "./") = JStr d
        ∧ safeDir = getSafePath root d)).
Proof.
  intros [[-> ->]|(-> & Hr & Hd & ->)].
  - split; [done|by left].
  - split; [by apply getSafePath_absolute|by right].
Qed.

Lemma snoc_not_prefix (K : list string) (a b : string) (rest : list string) :
  a ≠ b → ¬ K ++ [a] `prefix_of` K ++ b :: rest.
Proof.
  intros Hab [more E]. rewrite <- app_assoc in E. apply app_inv_head in E.
  simpl in E. by injection E.
Qed.

(** renaming an entry to a free plain name in the same directory moves it *)
Lemma rename_success (root : string) (req : request) (t : tree)
    (a b d : string) (handler : Fs2 unit) (safeDir : string) (x : node) :
  prop (body req) "old_name" = JStr a →
  prop (body req) "new_name" = JStr b →
  Path.plain a → Path.plain b → a ≠ b →
  (handler = VercelTree.rename req ∧ safeDir = "/tmp/")
  ∨ (handler = LocalTree.rename root req
     ∧ resolved root = true
     ∧ js_or (prop (body req) "directory") (JStr "./") = JStr d
     ∧ safeDir = getSafePath root d) →
  usable (Path.join [safeDir; a]) = true →
  usable (Path.join [safeDir; b]) = true →
  t !! Path.segments safeDir = Some Dir →
  t !! (Path.segments safeDir ++ [a]) = Some x →
  t !! (Path.segments safeDir ++ [b]) = None →
  ∃ ok,
    handler (fresh t)
    = answered
        (move_tree (Path.segments safeDir ++ [a])
           (Path.segments safeDir ++ [b]) t)
        [FsRename (Path.join [safeDir; a]) (Path.join [safeDir; b])]
        (Response 200 (Json ok))
    ∧ ("success", JBool true) ∈ ok.
Proof.
  intros Ha Hb Hpa Hpb Hab Hh Hua Hub Hdir Hx Hfree.
  destruct (rename_base root req d handler safeDir Hh) as [Habs Hh'].
  pose proof Hpa as (Hane & _). pose proof Hpb as (Hbne & _).
  destruct (rename_unfold root req a b d handler safeDir Ha Hane Hb Hbne Hh')
    as (ok & F & Hgo & Hok & _).
  destruct (join_name safeDir a Habs Hpa) as (_ & Hka & Hsa).
  destruct (join_name safeDir b Habs Hpb) as (_ & Hkb & Hsb).
  exists ok. split; [|done]. rewrite Hgo. run.
  rewrite (fs_rename_moves _ _ t x); rewrite ?Hka, ?Hkb; try done.
  - intros E. apply app_inv_head in E. by injection E.
  - by apply snoc_not_prefix.
  - by destruct (Path.segments safeDir).
  - by rewrite parent_snoc.
Qed.

(** X11: renaming within a directory ([PUT /api/rename], in
    [api/server.js] below [/tmp] and in the first variant below the
    root).  When the old name is an entry of the existing directory and
    the new name, different from it, is free, both being plain names that
    give paths the file system takes (no NUL byte, no name or path too
    long), the
    handler answers 200 after the one [rename] call; afterwards the entry
    and everything below it is found under the new name, nothing is left
    under the old name, and the rest of the tree is as before. *)
Theorem X11_rename_moves (root : string) (req : request) (t : tree)
    (a b d : string) (handler : Fs2 unit) (safeDir : string) (x : node) :
  prop (body req) "old_name" = JStr a →
  prop (body req) "new_name" = JStr b →
  Path.plain a → Path.plain b → a ≠ b →
  (handler = VercelTree.rename req ∧ safeDir = "/tmp/")
  ∨ (handler = LocalTree.rename root req
     ∧ resolved root = true
     ∧ js_or (prop (body req) "directory") (JStr "./") = JStr d
     ∧ safeDir = getSafePath root d) →
  usable (Path.join [safeDir; a]) = true →
  usable (Path.join [safeDir; b]) = true →
  t !! Path.segments safeDir = Some Dir →
  t !! (Path.segments safeDir ++ [a]) = Some x →
  t !! (Path.segments safeDir ++ [b]) = None →
  ∃ t' ok,
    handler (fresh t)
    = answered t'
        [FsRename (Path.join [safeDir; a]) (Path.join [safeDir; b])]
        (Response 200 (Json ok))
    ∧ ("success", JBool true) ∈ ok
    ∧ (∀ rest, t' !! (Path.segments safeDir ++ b :: rest)
               = t !! (Path.segments safeDir ++ a :: rest))
    ∧ (∀ rest, t' !! (Path.segments safeDir ++ a :: rest) = None)
    ∧ (∀ q, ¬ Path.segments safeDir ++ [a] `prefix_of` q →
            ¬ Path.segments safeDir ++ [b] `prefix_of` q →
            t' !! q = t !! q).
Proof.
  intros Ha Hb Hpa Hpb Hab Hh Hua Hub Hdir Hx Hfree.
  destruct (rename_success root req t a b d handler safeDir x
              Ha Hb Hpa Hpb Hab Hh Hua Hub Hdir Hx Hfree)
    as (ok & Hrun & Hok).
  set (K := Path.segments safeDir) in *.
  eexists _, ok. split; [exact Hrun|]. split; [done|]. split; [|split].
  - intros rest. rewrite move_tree_lookup.
    rewrite decide_True by (exists rest; by rewrite <- app_assoc).
    rewrite (cons_middle b K rest), app_assoc, drop_app_length.
    by rewrite <- app_assoc.
  - intros rest. rewrite move_tree_lookup.
    rewrite decide_False by (apply snoc_not_prefix; congruence).
    rewrite decide_True; [done|]. exists rest. by rewrite <- app_assoc.
  - intros q Hqa Hqb. rewrite move_tree_lookup.
    by rewrite !decide_False.
Qed.

Lemma X11_witness :
  ∃ t' ok,
    VercelTree.rename a_to_b (fresh tmp_with_a_txt)
    = answered t'
        [FsRename (Path.join ["/tmp/"; "a.txt"]) (Path.join ["/tmp/"; "b.txt"])]
        (Response 200 (Json ok))
    ∧ ("success", JBool true) ∈ ok
    ∧ (∀ rest, t' !! (Path.segments "/tmp/" ++ "b.txt" :: rest)
               = tmp_with_a_txt !! (Path.segments "/tmp/" ++ "a.txt" :: rest))
    ∧ (∀ rest, t' !! (Path.segments "/tmp/" ++ "a.txt" :: rest) = None)
    ∧ (∀ q, ¬ Path.segments "/tmp/" ++ ["a.txt"] `prefix_of` q →
            ¬ Path.segments "/tmp/" ++ ["b.txt"] `prefix_of` q →
            t' !! q = tmp_with_a_txt !! q).
Proof.
  apply (X11_rename_moves "/srv/data" a_to_b tmp_with_a_txt "a.txt" "b.txt"
           "./" (VercelTree.rename a_to_b) "/tmp/" (File "0123456789")).
  - reflexivity.
  - reflexivity.
  - repeat split; done.
  - repeat split; done.
  - discriminate.
  - left. split; reflexivity.
  - reflexivity.
  - reflexivity.
  - reflexivity.
  - reflexivity.
  - reflexivity.
Defined.

(** X12: a rename changes the tree only when it answers 200.  Whatever
    the request and the tree, when neither rename handler sends a 200
    answer (the names are missing, a value is no string, or [rename]
    fails), the tree is left exactly as it was. *)
Theorem X12_rename_all_or_nothing (root : string) (req : request) (t : tree)
    (handler : Fs2 unit) :
  handler = VercelTree.rename req ∨ handler = LocalTree.rename root req →
  (∀ r, r ∈ sent (handler (fresh t)).2 → status r ≠ 200%Z) →
  store (handler (fresh t)).2 = t.
Proof.
  assert (∀ oldPath newPath ok F,
            let run := try_catch (fs_rename oldPath newPath ;;; res_json 200 ok)
                         (λ error, res_json 500 (F error)) (fresh t) in
            (∀ r, r ∈ sent run.2 → status r ≠ 200%Z) →
            store run.2 = t) as Htry.
  { intros oldPath newPath ok F.
    destruct (rename_try oldPath newPath t ok F) as [[e ->]|(t' & -> & _)];
      cbv zeta; [done|].
    intros H. by destruct (H (Response 200 (Json ok)) (list_elem_of_here _ _)). }
  intros [->| ->].
  - unfold VercelTree.rename. cbv zeta.
    destruct (negb (truthy (prop (body req) "old_name"))
              || negb (truthy (prop (body req) "new_name"))); [done|].
    destruct (prop (body req) "old_name") as [| | | |a|]; try done.
    destruct (prop (body req) "new_name") as [| | | |b|]; try done.
    apply Htry.
  - unfold LocalTree.rename. cbv zeta.
    destruct (negb (truthy (prop (body req) "old_name"))
              || negb (truthy (prop (body req) "new_name"))); [done|].
    destruct (js_or (prop (body req) "directory") (JStr "./"))
      as [| | | |d|]; try done.
    destruct (prop (body req) "old_name") as [| | | |a|]; try done.
    destruct (prop (body req) "new_name") as [| | | |b|]; try done.
    apply Htry.
Qed.

Lemma X12_witness :
  store (VercelTree.rename a_to_b (fresh tmp_only)).2 = tmp_only.
Proof.
  apply (X12_rename_all_or_nothing "/srv/data" a_to_b tmp_only
           (VercelTree.rename a_to_b) (or_introl eq_refl)).
  intros r Hr. vm_compute in Hr.
  apply list_elem_of_singleton in Hr as ->. discriminate.
Defined.

End Rename.

(** ** Renaming, then reading; handlers that only read *)

Section Reading.

Ltac run :=
  cbv beta iota zeta delta
    [bind ret throw try_catch call get_store put_store res_json res_send
     res_write res_headersSent fresh getSafePath_of path_join_of answered];
  cbn [store calls headersSent sent late fst snd].

(** the [try] block of [GET /api/file-content] *)
Lemma read_try (p : string) (t : tree) (F : js_error → list (string * jsval)) :
  try_catch
    (do data <- fs_readFile p;
     res_json 200 [("success", JBool true); ("content", JStr data)])
    (λ error, res_json 500 (F error)) (fresh t)
  = match t !! Path.segments p with
    | Some (File data) =>
        if Str.endsWithSlash p
        then answered t [FsReadFile p]
               (Response 500 (Json (F (sys_error "ENOTDIR" "open" p))))
        else answered t [FsReadFile p]
               (Response 200
                  (Json [("success", JBool true); ("content", JStr data)]))
    | Some Dir =>
        answered t [FsReadFile p]
          (Response 500 (Json (F (sys_error_fd "EISDIR" "read"))))
    | None =>
        answered t [FsReadFile p]
          (Response 500 (Json (F (sys_error "ENOENT" "open" p))))
    end.
Proof.
  run. rewrite fs_readFile_run.
  destruct (t !! Path.segments p) as [[data|]|]; try reflexivity.
  by destruct (Str.endsWithSlash p).
Qed.

(** the read of the first variant, once the name is there *)
Lemma local_file_content_unfold (root : string) (req : request)
    (file d : string) (t : tree) :
  prop (query req) "file" = JStr file → file ≠ "" →
  js_or (prop (query req) "directory") (JStr "./") = JStr d →
  Local.file_content root req (fresh t)
  = try_catch
      (do data <- fs_readFile (Path.join [getSafePath root d; file]);
       res_json 200 [("success", JBool true); ("content", JStr data)])
      (λ error,
        res_json 500 [("success", JBool false);
                      ("message", JStr "Gagal membaca file.");
                      ("error", JStr (e_message error))]) (fresh t).
Proof.
  intros Hf Hne Hd. unfold Local.file_content. cbv zeta. rewrite Hf, Hd.
  cbn [truthy]. rewrite (bool_decide_eq_true_2 _ Hne). reflexivity.
Qed.

(** X13: renaming a file, then reading (first variant).  For a resolved
    root and two different plain names in one directory, after a rename of
    a file was answered with success, reading the new name answers 200
    with the content the file had, and reading the old name answers 500. *)
Theorem X13_rename_then_read (root d a b data : string)
    (mv rd_new rd_old : request) (t t' : tree) (ops : list fs_op)
    (r : response) :
  resolved root = true →
  Path.plain a → Path.plain b → a ≠ b →
  prop (body mv) "old_name" = JStr a →
  prop (body mv) "new_name" = JStr b →
  js_or (prop (body mv) "directory") (JStr "./") = JStr d →
  prop (query rd_new) "file" = JStr b →
  js_or (prop (query rd_new) "directory") (JStr "./") = JStr d →
  prop (query rd_old) "file" = JStr a →
  js_or (prop (query rd_old) "directory") (JStr "./") = JStr d →
  t !! (Path.segments (getSafePath root d) ++ [a]) = Some (File data) →
  LocalTree.rename root mv (fresh t) = answered t' ops r →
  status r = 200%Z →
  Local.file_content root rd_new (fresh t')
  = answered t' [FsReadFile (Path.join [getSafePath root d; b])]
      (Response 200 (Json [("success", JBool true); ("content", JStr data)]))
  ∧ ∃ fields,
      Local.file_content root rd_old (fresh t')
      = answered t' [FsReadFile (Path.join [getSafePath root d; a])]
          (Response 500 (Json fields))
      ∧ ("success", JBool false) ∈ fields.
Proof.
  intros Hr Hpa Hpb Hab Ha Hb Hd Hfb Hdb Hfa Hda Hx Hrun Hst.
  pose proof (getSafePath_absolute root d Hr) as Habs.
  pose proof Hpa as (Hane & _). pose proof Hpb as (Hbne & _).
  destruct (join_name _ a Habs Hpa) as (_ & Hka & Hsa).
  destruct (join_name _ b Habs Hpb) as (_ & Hkb & Hsb).
  destruct (rename_unfold root mv a b d (LocalTree.rename root mv)
              (getSafePath root d) Ha Hane Hb Hbne
              (or_intror (conj eq_refl (conj Hd eq_refl))))
    as (ok & F & Hgo & _ & _).
  rewrite Hgo in Hrun. clear Hgo.
  set (K := Path.segments (getSafePath root d)) in *.
  assert (t' = move_tree (K ++ [a]) (K ++ [b]) t) as ->.
  { destruct (rename_try (Path.join [getSafePath root d; a])
                (Path.join [getSafePath root d; b]) t ok F)
      as [[e He]|(u & Hu & _ & Hcase)].
    - rewrite He in Hrun. injection Hrun as <- <- <-. done.
    - rewrite Hu in Hrun. injection Hrun as <- <- <-.
      rewrite Hka, Hkb in Hcase. destruct Hcase as [[_ E]|E]; [|done].
      apply app_inv_head in E. by injection E. }
  split.
  - rewrite (local_file_content_unfold root rd_new b d _ Hfb Hbne Hdb).
    rewrite read_try, Hkb, move_tree_lookup, decide_True by done.
    by rewrite drop_all, app_nil_r, Hx, Hsb.
  - rewrite (local_file_content_unfold root rd_old a d _ Hfa Hane Hda).
    rewrite read_try, Hka, move_tree_lookup.
    rewrite decide_False.
    + rewrite decide_True by done. eexists. split; [reflexivity|].
      apply list_elem_of_here.
    + rewrite <- (app_nil_r (K ++ [a])), <- app_assoc.
      apply snoc_not_prefix. congruence.
Qed.

Lemma X13_witness :
  Local.file_content "/srv/data" b_read
    (fresh (move_tree ["srv"; "data"; "a.txt"] ["srv"; "data"; "b.txt"]
              with_a_txt))
  = answered
      (move_tree ["srv"; "data"; "a.txt"] ["srv"; "data"; "b.txt"] with_a_txt)
      [FsReadFile (Path.join [getSafePath "/srv/data" "./"; "b.txt"])]
      (Response 200
         (Json [("success", JBool true); ("content", JStr "0123456789")]))
  ∧ ∃ fields,
      Local.file_content "/srv/data" a_download
        (fresh (move_tree ["srv"; "data"; "a.txt"] ["srv"; "data"; "b.txt"]
                  with_a_txt))
      = answered
          (move_tree ["srv"; "data"; "a.txt"] ["srv"; "data"; "b.txt"]
             with_a_txt)
          [FsReadFile (Path.join [getSafePath "/srv/data" "./"; "a.txt"])]
          (Response 500 (Json fields))
      ∧ ("success", JBool false) ∈ fields.
Proof.
  apply (X13_rename_then_read "/srv/data" "./" "a.txt" "b.txt" "0123456789"
           a_to_b b_read a_download with_a_txt
           (move_tree ["srv"; "data"; "a.txt"] ["srv"; "data"; "b.txt"]
              with_a_txt)
           [FsRename "/srv/data/a.txt" "/srv/data/b.txt"]
           (Response 200
              (Json [("success", JBool true);
                     ("message",
                      JStr "Berhasil mengganti nama dari 'a.txt' menjadi 'b.txt'.")]))).
  - reflexivity.
  - repeat split; done.
  - repeat split; done.
  - discriminate.
  - reflexivity.
  - reflexivity.
  - reflexivity.
  - reflexivity.
  - reflexivity.
  - reflexivity.
  - reflexivity.
  - reflexivity.
  - reflexivity.
  - reflexivity.
Defined.

Lemma list_entries_store (safeDir : string) (names : list string)
    (acc : list entry) (w : world tree fs_op) :
  store (list_entries safeDir names acc w).2 = store w.
Proof.
  revert acc w. induction names as [|n names IH]; intros acc w; [done|].
  cbn [list_entries]. destruct (decide _); [apply IH|].
  unfold bind at 1. destruct w as [t cs hs sn lt]. rewrite earlier_stat.
  destruct (t !! _) as [[data|]|]; [destruct (Str.endsWithSlash _)|..];
    try done; by rewrite IH.
Qed.

Lemma files_try_store (root safeDir : string) (t : tree)
    (F : js_error → list (string * jsval)) :
  store
    (try_catch
       (do names <- fs_readdir safeDir;
        do fileList <- list_entries safeDir names [];
        res_json 200
          (("success", JBool true) :: files_fields fileList
           ++ [("relativeDir", JStr (getRelativePath root safeDir))]))
       (λ error, res_json 500 (F error)) (fresh t)).2 = t.
Proof.
  run. rewrite fs_readdir_run.
  destruct (t !! Path.segments safeDir) as [[data|]|]; [done| |done].
  match goal with
  | |- context [list_entries ?d ?n ?a ?w] =>
      pose proof (list_entries_store d n a w) as Hs;
      destruct (list_entries d n a w) as [[e|fileList] w']
  end; simpl in Hs; destruct (headersSent w'); done.
Qed.

Lemma read_try_store (p : string) (t : tree)
    (F : js_error → list (string * jsval)) :
  store
    (try_catch
       (do data <- fs_readFile p;
        res_json 200 [("success", JBool true); ("content", JStr data)])
       (λ error, res_json 500 (F error)) (fresh t)).2 = t.
Proof.
  rewrite read_try. destruct (t !! Path.segments p) as [[data|]|]; try done.
  by destruct (Str.endsWithSlash p).
Qed.

Lemma res_download_store (p filename : string) (net : transfer) (t : tree)
    (cb : option js_error → Fs unit) :
  (∀ err w, store (cb err w).2 = store w) →
  store (res_download p filename net cb (fresh t)).2 = t.
Proof.
  intros Hcb. unfold res_download. run.
  destruct (send_refuses p); [by rewrite Hcb|]. run.
  destruct (t !! Path.segments p) as [[data|]|]; try by rewrite Hcb.
  destruct (Str.endsWithSlash p); [by rewrite Hcb|].
  run. destruct net; by rewrite Hcb.
Qed.

(** X14: the handlers that read leave the tree alone.  Whatever the
    request, the tree and the fate of a transfer, the listing, the read
    and the download of [api/server.js] and of the first variant end with
    the tree they began with, also when they answer with an error or
    throw. *)
Theorem X14_reading_keeps_the_tree (root : string) (req : request) (t : tree)
    (net : transfer) :
  store (LocalTree.files root req (fresh t)).2 = t
  ∧ store (VercelTree.files root req (fresh t)).2 = t
  ∧ store (Local.file_content root req (fresh t)).2 = t
  ∧ store (Vercel.file_content root req (fresh t)).2 = t
  ∧ store (Local.download root req net (fresh t)).2 = t
  ∧ store (Vercel.download req net (fresh t)).2 = t.
Proof.
  split; [|split; [|split; [|split; [|split]]]].
  - unfold LocalTree.files. cbv zeta.
    destruct (js_or (prop (query req) "directory") (JStr "./"))
      as [| | | |d|]; try done.
    apply files_try_store.
  - unfold VercelTree.files. cbv zeta.
    destruct (js_or (prop (query req) "directory") (JStr "./"))
      as [| | | |d|]; try done.
    apply files_try_store.
  - unfold Local.file_content. cbv zeta.
    destruct (negb (truthy (prop (query req) "file"))); [done|].
    destruct (js_or (prop (query req) "directory") (JStr "./"))
      as [| | | |d|]; try done.
    destruct (prop (query req) "file") as [| | | |file|]; try done.
    apply read_try_store.
  - unfold Vercel.file_content. cbv zeta.
    destruct (negb (truthy (prop (query req) "file"))); [done|].
    destruct (js_or (prop (query req) "directory") (JStr "./"))
      as [| | | |d|]; try done.
    destruct (prop (query req) "file") as [| | | |file|]; try done.
    apply read_try_store.
  - unfold Local.download. cbv zeta.
    destruct (negb (truthy (prop (query req) "file"))); [done|].
    destruct (js_or (prop (query req) "directory") (JStr "./"))
      as [| | | |d|]; try done.
    destruct (prop (query req) "file") as [| | | |file|]; try done.
    apply res_download_store. intros [e|] w; [|done].
    by destruct w as [u cs [] sn lt].
  - unfold Vercel.download. cbv zeta.
    destruct (negb (truthy (prop (query req) "file"))); [done|].
    destruct (prop (query req) "file") as [| | | |file|]; try done.
    apply res_download_store. intros [e|] w; [|done].
    by destruct w as [u cs [] sn lt].
Qed.

End Reading.

(** ** Downloads without the test of [headersSent] *)

Section Downloads.

Ltac run :=
  cbv beta iota zeta delta
    [bind ret throw try_catch call get_store put_store res_json res_send
     res_write res_headersSent fresh getSafePath_of path_join_of answered];
  cbn [store calls headersSent sent late fst snd].







End Downloads.

(** ** The remote variant against a repository that checks fingerprints *)

Section RemoteRoundTrip.

Variable blob_sha : string → string.
Variable base64_encode base64_decode : string → string.
Variables OWNER REPO : string.

Ltac run :=
  cbv beta iota zeta delta
    [bind ret throw try_catch call res_json res_send res_write fresh answered
     GitHub.octokit_request GitHub.encode GitHub.decode];
  cbn [store calls headersSent sent late fst snd truthy negb orb andb].

Lemma contents_api_get (name : string) (files : gmap string (string * string)) :
  contents_api blob_sha (get_request OWNER REPO (JStr name)) files
  = (match files !! name with
     | Some (encoded, sha) => inr (FileData (JStr encoded) (JStr sha))
     | None => inl (request_error 404 "Not Found")
     end, files).
Proof.
  unfold contents_api. cbn [get_request gh_method_of gh_path js_to_string].
  by destruct (files !! name) as [[]|].
Qed.

Lemma contents_api_put (name encoded old current : string)
    (files : gmap string (string * string)) :
  files !! name = Some (old, current) →
  contents_api blob_sha
    (put_request OWNER REPO (JStr name) encoded (JStr current)) files
  = (inr (Committed (JStr (blob_sha encoded))),
     <[name := (encoded, blob_sha encoded)]> files).
Proof.
  intros Hl. unfold contents_api.
  cbn [put_request gh_method_of gh_path gh_content gh_sha js_to_string].
  rewrite Hl. by rewrite decide_True.
Qed.

Lemma contents_api_delete (name old current : string)
    (files : gmap string (string * string)) :
  files !! name = Some (old, current) →
  contents_api blob_sha
    (delete_request OWNER REPO (JStr name) (JStr current)) files
  = (inr Removed, base.delete name files).
Proof.
  intros Hl. unfold contents_api.
  cbn [delete_request gh_method_of gh_path gh_sha js_to_string].
  rewrite Hl. by rewrite decide_True.
Qed.

(** the read of a path the repository answers for *)
Lemma remote_read (req : request) (name : string)
    (files : gmap string (string * string)) :
  prop (query req) "file" = JStr name → name ≠ "" →
  GitHub.file_content (contents_api blob_sha) base64_decode OWNER REPO req
    (fresh files)
  = answered files [get_request OWNER REPO (JStr name)]
      (match files !! name with
       | Some (encoded, sha) =>
           if decide (encoded = "")
           then Response 404
                  (Json [("success", JBool false);
                         ("message",
                          JStr "File ditemukan, tetapi bukan file atau konten kosong.")])
           else Response 200
                  (Json [("success", JBool true);
                         ("content", JStr (base64_decode encoded));
                         ("sha", JStr sha)])
       | None =>
           Response 404
             (Json (GitHub.github_error
                      "[SERVER ERROR] Gagal membaca file dari GitHub."
                      (request_error 404 "Not Found")))
       end).
Proof.
  intros Hf Hne. unfold GitHub.file_content. cbv zeta. rewrite Hf.
  run. rewrite (bool_decide_eq_true_2 _ Hne). cbn [negb]. run.
  fold (get_request OWNER REPO (JStr name)). rewrite contents_api_get.
  destruct (files !! name) as [[encoded sha]|]; [|reflexivity].
  cbn [data_content data_sha truthy].
  destruct (decide (encoded = "")) as [->|Hc].
  - reflexivity.
  - rewrite (bool_decide_eq_true_2 _ Hc). reflexivity.
Qed.

(** X17: saving to the repository, then reading.  Against a repository
    that checks fingerprints, a save that presents the current
    fingerprint of an existing file is answered 200 with the new
    fingerprint and stores the encoded text; the read that follows
    answers with the decoding of what was stored and with that same new
    fingerprint, which is what the next save has to present; when the
    encoded text is empty, the read answers 404 although the file is
    there. *)
Theorem X17_remote_save_then_read (save read : request)
    (files : gmap string (string * string))
    (name text old current : string) :
  prop (body save) "file_name" = JStr name → name ≠ "" →
  prop (body save) "content" = JStr text →
  prop (body save) "sha" = JStr current → current ≠ "" →
  prop (query read) "file" = JStr name →
  files !! name = Some (old, current) →
  GitHub.save_file (contents_api blob_sha) base64_encode OWNER REPO save
    (fresh files)
  = answered
      (<[name := (base64_encode text, blob_sha (base64_encode text))]> files)
      [put_request OWNER REPO (JStr name) (base64_encode text) (JStr current)]
      (Response 200
         (Json [("success", JBool true);
                ("message", JStr "File berhasil disimpan ke GitHub.");
                ("new_sha", JStr (blob_sha (base64_encode text)))]))
  ∧ GitHub.file_content (contents_api blob_sha) base64_decode OWNER REPO read
      (fresh (<[name := (base64_encode text, blob_sha (base64_encode text))]>
                files))
    = answered
        (<[name := (base64_encode text, blob_sha (base64_encode text))]> files)
        [get_request OWNER REPO (JStr name)]
        (if decide (base64_encode text = "")
         then Response 404
                (Json [("success", JBool false);
                       ("message",
                        JStr "File ditemukan, tetapi bukan file atau konten kosong.")])
         else Response 200
                (Json [("success", JBool true);
                       ("content", JStr (base64_decode (base64_encode text)));
                       ("sha", JStr (blob_sha (base64_encode text)))])).
Proof.
  intros Hf Hne Hc Hs Hcur Hq Hl. split.
  - unfold GitHub.save_file. cbv zeta. rewrite Hf, Hc, Hs. run.
    rewrite (bool_decide_eq_true_2 _ Hne), (bool_decide_eq_true_2 _ Hcur).
    rewrite (bool_decide_eq_false_2 (JStr text = JUndefined)) by done.
    cbn [negb orb]. run.
    fold (put_request OWNER REPO (JStr name) (base64_encode text)
            (JStr current)).
    by rewrite (contents_api_put name _ old current files Hl).
  - rewrite (remote_read read name _ Hq Hne). by rewrite lookup_insert_eq.
Qed.

(** X18: deleting from the repository, then reading.  Against a
    repository that checks fingerprints, a delete that presents the
    current fingerprint of an existing file is answered 200 and removes
    the file; the read that follows, and the same delete once more, pass
    on the 404 of the repository and leave it as it is. *)
Theorem X18_remote_delete_then_read (del read : request)
    (files : gmap string (string * string)) (name old current : string) :
  prop (query del) "file" = JStr name → name ≠ "" →
  prop (query del) "sha" = JStr current → current ≠ "" →
  prop (query read) "file" = JStr name →
  files !! name = Some (old, current) →
  GitHub.delete (contents_api blob_sha) OWNER REPO del (fresh files)
  = answered (base.delete name files)
      [delete_request OWNER REPO (JStr name) (JStr current)]
      (Response 200
         (Json [("success", JBool true);
                ("message", JStr ("File/Folder '" +:+ name
                                  +:+ "' berhasil dihapus dari GitHub."))]))
  ∧ (∃ fields,
       GitHub.file_content (contents_api blob_sha) base64_decode OWNER REPO
         read (fresh (base.delete name files))
       = answered (base.delete name files)
           [get_request OWNER REPO (JStr name)] (Response 404 (Json fields))
       ∧ ("success", JBool false) ∈ fields)
  ∧ (∃ fields,
       GitHub.delete (contents_api blob_sha) OWNER REPO del
         (fresh (base.delete name files))
       = answered (base.delete name files)
           [delete_request OWNER REPO (JStr name) (JStr current)]
           (Response 404 (Json fields))
       ∧ ("success", JBool false) ∈ fields).
Proof.
  intros Hf Hne Hs Hcur Hq Hl. split; [|split].
  - unfold GitHub.delete. cbv zeta. rewrite Hf, Hs. run.
    rewrite (bool_decide_eq_true_2 _ Hne), (bool_decide_eq_true_2 _ Hcur).
    cbn [negb orb]. run.
    fold (delete_request OWNER REPO (JStr name) (JStr current)).
    by rewrite (contents_api_delete name old current files Hl).
  - rewrite (remote_read read name _ Hq Hne), lookup_delete_eq.
    eexists. split; [reflexivity|]. apply list_elem_of_here.
  - unfold GitHub.delete. cbv zeta. rewrite Hf, Hs. run.
    rewrite (bool_decide_eq_true_2 _ Hne), (bool_decide_eq_true_2 _ Hcur).
    cbn [negb orb]. run.
    fold (delete_request OWNER REPO (JStr name) (JStr current)).
    unfold contents_api.
    cbn [delete_request gh_method_of gh_path gh_sha js_to_string].
    rewrite lookup_delete_eq.
    eexists. split; [reflexivity|]. apply list_elem_of_here.
Qed.

End RemoteRoundTrip.

Lemma X17_witness :
  GitHub.save_file (contents_api (λ s, "sha-" +:+ s)) (λ s, s) "owner" "repo"
    current_save (fresh moved_on)
  = answered (<[ "notes.txt" := ("hello", "sha-hello") ]> moved_on)
      [put_request "owner" "repo" (JStr "notes.txt") "hello" (JStr "f2")]
      (Response 200
         (Json [("success", JBool true);
                ("message", JStr "File berhasil disimpan ke GitHub.");
                ("new_sha", JStr "sha-hello")]))
  ∧ GitHub.file_content (contents_api (λ s, "sha-" +:+ s)) (λ s, s)
      "owner" "repo" notes_read
      (fresh (<[ "notes.txt" := ("hello", "sha-hello") ]> moved_on))
    = answered (<[ "notes.txt" := ("hello", "sha-hello") ]> moved_on)
        [get_request "owner" "repo" (JStr "notes.txt")]
        (Response 200
           (Json [("success", JBool true);
                  ("content", JStr "hello");
                  ("sha", JStr "sha-hello")])).
Proof.
  apply (X17_remote_save_then_read (λ s, "sha-" +:+ s) (λ s, s) (λ s, s)
           "owner" "repo" current_save notes_read moved_on
           "notes.txt" "hello" "d29ybGQ=" "f2").
  - reflexivity.
  - discriminate.
  - reflexivity.
  - reflexivity.
  - discriminate.
  - reflexivity.
  - reflexivity.
Defined.

Lemma X18_witness :
  GitHub.delete (contents_api (λ s, "sha-" +:+ s)) "owner" "repo"
    current_delete (fresh moved_on)
  = answered (base.delete "notes.txt" moved_on)
      [delete_request "owner" "repo" (JStr "notes.txt") (JStr "f2")]
      (Response 200
         (Json [("success", JBool true);
                ("message", JStr ("File/Folder '" +:+ "notes.txt"
                                  +:+ "' berhasil dihapus dari GitHub."))]))
  ∧ (∃ fields,
       GitHub.file_content (contents_api (λ s, "sha-" +:+ s)) (λ s, s)
         "owner" "repo" notes_read (fresh (base.delete "notes.txt" moved_on))
       = answered (base.delete "notes.txt" moved_on)
           [get_request "owner" "repo" (JStr "notes.txt")]
           (Response 404 (Json fields))
       ∧ ("success", JBool false) ∈ fields)
  ∧ (∃ fields,
       GitHub.delete (contents_api (λ s, "sha-" +:+ s)) "owner" "repo"
         current_delete (fresh (base.delete "notes.txt" moved_on))
       = answered (base.delete "notes.txt" moved_on)
           [delete_request "owner" "repo" (JStr "notes.txt") (JStr "f2")]
           (Response 404 (Json fields))
       ∧ ("success", JBool false) ∈ fields).
Proof.
  apply (X18_remote_delete_then_read (λ s, "sha-" +:+ s) (λ s, s)
           "owner" "repo" current_delete notes_read moved_on
           "notes.txt" "d29ybGQ=" "f2").
  - reflexivity.
  - discriminate.
  - reflexivity.
  - discriminate.
  - reflexivity.
  - reflexivity.
Defined.
